(** * Student_Management_CLI: the record store of [student_management.py]

    A shallow embedding of class [StudentManagementSystem] and of the
    parts of the Python runtime it calls ([int], [str.lower], [in] on
    strings, [dict], [pathlib.Path], [csv], [json.dump]), followed by
    the properties of the store.

    - Python [str] is [string]: a sequence of code points below 256.
    - A method is a function from the state of the world - the
      attributes of the object, the files, the working directory, what
      was printed - to its result or exception and the new state.
    - A file holds text, read and written by the [csv] module character
      by character, or a JSON document, which [json.load] returns as
      [json.dump] was given it.
    - [tabulate] is kept abstract: printing a table is an event that
      carries the rows and the headers.
    - The menu loop [main] is not part of the store and is not modelled. *)

From Stdlib Require Import Ascii String ZArith Lia.
From stdpp Require Import base decidable list strings gmap.

Local Open Scope Z_scope.

(** ** Python values and exceptions *)

(** The values a record holds: a [str], or [None] (what [csv.DictReader]
    puts under the columns a short row lacks, and what JSON [null]
    loads as). *)
Inductive pyval :=
| VStr (s : string)
| VNone.

#[global] Instance pyval_eq_dec : EqDecision pyval.
Proof. solve_decision. Defined.

(** The message of a [ValueError]. [json.JSONDecodeError] is a subclass
    of [ValueError]. *)
Inductive vmsg :=
| Msg (s : string)
| FieldsRequired (headers : list string)
    (* f"All fields {self.headers} are required" *)
| InvalidLiteral (s : string)
    (* int(): "invalid literal for int() with base 10: ..." *)
| ExtraFields (wrong : list (option string))
    (* csv.DictWriter: "dict contains fields not in fieldnames: ..." *)
| JSONDecode.

Inductive exn :=
| ValueError (msg : vmsg)
| KeyError (key : string)
| TypeError (builtin : string)      (* a builtin applied to [None] *)
| FileNotFoundError (path : string).

#[global] Instance vmsg_eq_dec : EqDecision vmsg.
Proof. solve_decision. Defined.
#[global] Instance exn_eq_dec : EqDecision exn.
Proof. solve_decision. Defined.

(** Computations that may raise. *)
Abbreviation result := (sum exn).

#[global] Instance result_ret : MRet result := λ A x, inr x.
#[global] Instance result_bind : MBind result := λ A B f m,
  match m with inl e => inl e | inr x => f x end.

Definition is_ValueError (e : exn) : bool :=
  match e with ValueError _ => true | _ => false end.

(** [try: body  except ValueError: handler] *)
Definition try_except_ValueError {A} (body handler : result A) : result A :=
  match body with
  | inl e => if is_ValueError e then handler else inl e
  | inr x => inr x
  end.

(** ** Builtins on strings *)

Module Py.

Definition code (c : ascii) : N := N_of_ascii c.

Definition in_range (lo hi : N) (c : ascii) : bool :=
  ((lo <=? code c) && (code c <=? hi))%N.

(** [str.lower], one code point: A-Z and the Latin-1 capitals. *)
Definition lower_char (c : ascii) : ascii :=
  if in_range 65 90 c || (in_range 192 222 c && negb (code c =? 215)%N)
  then ascii_of_N (code c + 32) else c.

Fixpoint lower (s : string) : string :=
  match s with
  | EmptyString => EmptyString
  | String c s' => String (lower_char c) (lower s')
  end.

Fixpoint startswith (p s : string) : bool :=
  match p, s with
  | EmptyString, _ => true
  | String a p', String b s' => bool_decide (a = b) && startswith p' s'
  | String _ _, EmptyString => false
  end.

(** [sub in s] on strings. *)
Fixpoint contains (sub s : string) : bool :=
  startswith sub s ||
  match s with
  | EmptyString => false
  | String _ s' => contains sub s'
  end.

(** The white space [int] strips: the ASCII one, and the two Latin-1
    code points [int] turns into a space (NEL and NBSP). *)
Definition is_space (c : ascii) : bool :=
  in_range 9 13 c || (code c =? 32)%N || (code c =? 133)%N || (code c =? 160)%N.

Definition is_digit (c : ascii) : bool := in_range 48 57 c.

Definition digit (c : ascii) : option Z :=
  if is_digit c then Some (Z.of_N (code c) - 48) else None.

Fixpoint lstrip (s : string) : string :=
  match s with
  | String c s' => if is_space c then lstrip s' else s
  | EmptyString => EmptyString
  end.

Definition strip (s : string) : string :=
  String.rev (lstrip (String.rev (lstrip s))).

(** Digits with single underscores between them. *)
Fixpoint int_digits (acc : Z) (s : string) : option Z :=
  match s with
  | EmptyString => Some acc
  | String c s' =>
      match digit c with
      | Some d => int_digits (10 * acc + d) s'
      | None =>
          if bool_decide (c = "_"%char) then
            match s' with
            | String c' _ => if is_digit c' then int_digits acc s' else None
            | EmptyString => None
            end
          else None
      end
  end.

Definition int_unsigned (s : string) : option Z :=
  match s with
  | String c _ => if is_digit c then int_digits 0 s else None
  | EmptyString => None
  end.

(** [int(s)] for a [str]: white space around, an optional sign, the
    digits in base 10. [None] is [ValueError]. (The interpreter's
    limit on the number of digits is not modelled.) *)
Definition int_of_str (s : string) : option Z :=
  match strip s with
  | String "+" s' => int_unsigned s'
  | String "-" s' => Z.opp <$> int_unsigned s'
  | s' => int_unsigned s'
  end.

(** [int(v)] *)
Definition int (v : pyval) : result Z :=
  match v with
  | VStr s =>
      match int_of_str s with
      | Some n => inr n
      | None => inl (ValueError (InvalidLiteral s))
      end
  | VNone => inl (TypeError "int")
  end.

(** [str(v)] *)
Definition str (v : pyval) : string :=
  match v with VStr s => s | VNone => "None" end.

(** Truth value: the empty string and [None] are false. *)
Definition truthy (v : pyval) : bool :=
  match v with VStr EmptyString | VNone => false | VStr _ => true end.

Definition isinstance_str (v : pyval) : bool :=
  match v with VStr _ => true | VNone => false end.

End Py.

(** ** Dictionaries with [str] keys

    Insertion-ordered, as in Python 3.7+: an association list whose
    operations keep the position of an existing key. *)

Module Dict.
Section dict.
Context {V : Type}.
Implicit Types (d : list (string * V)) (k : string).

Fixpoint get k d : option V :=
  match d with
  | [] => None
  | (k', v) :: d' => if decide (k = k') then Some v else get k d'
  end.

(** [k in d] *)
Definition mem k d : bool := bool_decide (is_Some (get k d)).

(** [d[k]] *)
Definition getitem d k : result V :=
  match get k d with Some v => inr v | None => inl (KeyError k) end.

(** [d[k] = v] *)
Fixpoint set k (v : V) d : list (string * V) :=
  match d with
  | [] => [(k, v)]
  | (k', v') :: d' =>
      if decide (k = k') then (k, v) :: d' else (k', v') :: set k v d'
  end.

(** [del d[k]] *)
Definition del k d : result (list (string * V)) :=
  if mem k d then inr (filter (λ kv, kv.1 ≠ k) d) else inl (KeyError k).

(** [d.update(patch)] *)
Definition update d (patch : list (string * V)) : list (string * V) :=
  fold_left (λ acc kv, set kv.1 kv.2 acc) patch d.

Definition keys d : list string := d.*1.

End dict.
End Dict.

(** A student record: [Dict[str, str]], with [None] where a loader put it. *)
Definition record := list (string * pyval).

(** ** [validate_student_data] *)

Definition validate_student_data (headers : list string) (student_data : record)
  : result bool :=
  if negb (forallb (λ key, Dict.mem key student_data) headers) then
    inl (ValueError (FieldsRequired headers))
  else
  id ← Dict.getitem student_data "id";
  if negb (Py.truthy id) || negb (Py.isinstance_str id) then
    inl (ValueError (Msg "ID must be a non-empty string"))
  else
  name ← Dict.getitem student_data "name";
  if negb (Py.truthy name) || negb (Py.isinstance_str name) then
    inl (ValueError (Msg "Name must be a non-empty string"))
  else
  _ ← try_except_ValueError
        (v ← Dict.getitem student_data "age";
         age ← Py.int v;
         if negb ((5 <=? age) && (age <=? 100)) then
           inl (ValueError (Msg "Age must be between 5 and 100"))
         else mret age)
        (inl (ValueError (Msg "Age must be a valid number")));
  grade ← Dict.getitem student_data "grade";
  if negb (bool_decide (grade ∈ [VStr "A"; VStr "B"; VStr "C"; VStr "D"; VStr "F"])) then
    inl (ValueError (Msg "Grade must be one of: A, B, C, D, F"))
  else mret true.

(** ** [pathlib.Path] (POSIX flavour) *)

Module Path.

Record t := { root : string; parts : list string }.

Fixpoint split (sep : ascii) (s : string) : list string :=
  match s with
  | EmptyString => [EmptyString]
  | String c s' =>
      if decide (c = sep) then EmptyString :: split sep s'
      else match split sep s' with
           | h :: tl => String c h :: tl
           | [] => [String c EmptyString]
           end
  end.

Fixpoint join (sep : string) (l : list string) : string :=
  match l with
  | [] => ""
  | [x] => x
  | x :: l' => x +:+ sep +:+ join sep l'
  end.

(** [Path(s)]: empty and "." components are dropped; exactly two
    leading slashes are kept as the root. *)
Definition parse (s : string) : t :=
  {| root := if Py.startswith "//" s && negb (Py.startswith "///" s) then "//"
             else if Py.startswith "/" s then "/" else "";
     parts := filter (λ p, p ≠ "" ∧ p ≠ ".") (split "/" s) |}.

Definition is_absolute (p : t) : bool := negb (bool_decide (root p = "")).

(** [a / b] *)
Definition joinpath (a b : t) : t :=
  if is_absolute b then b
  else {| root := root a; parts := parts a ++ parts b |}.

Definition name (p : t) : string := List.last (parts p) "".

(** Split at the last dot. *)
Fixpoint rsplit_dot (s : string) : option (string * string) :=
  match s with
  | EmptyString => None
  | String c s' =>
      match rsplit_dot s' with
      | Some (b, a) => Some (String c b, a)
      | None => if decide (c = "."%char) then Some (EmptyString, s') else None
      end
  end.

(** [p.suffix]: from the last dot of the name, unless the dot is the
    first or the last character. *)
Definition suffix (p : t) : string :=
  match rsplit_dot (name p) with
  | Some (String _ _, (String _ _) as a) => String "." a
  | _ => ""
  end.

(** [str(p)] *)
Definition to_str (p : t) : string :=
  match root p, parts p with
  | EmptyString, [] => "."
  | r, ps => r +:+ join "/" ps
  end.

End Path.

(** ** The [csv] module (dialect excel)

    The writer under QUOTE_MINIMAL and the reader in its default,
    non-strict mode; the reader's limit on the size of a field is not
    modelled. *)

Module Csv.

Definition CR : ascii := "013"%char.
Definition LF : ascii := "010"%char.
Definition QUOTE : ascii := "034"%char.
Definition COMMA : ascii := ","%char.

Fixpoint any_char (P : ascii → bool) (s : string) : bool :=
  match s with
  | EmptyString => false
  | String c s' => P c || any_char P s'
  end.

Definition special (c : ascii) : bool :=
  bool_decide (c = COMMA) || bool_decide (c = QUOTE) ||
  bool_decide (c = CR) || bool_decide (c = LF).

Fixpoint double_quotes (s : string) : string :=
  match s with
  | EmptyString => EmptyString
  | String c s' =>
      if decide (c = QUOTE) then String QUOTE (String QUOTE (double_quotes s'))
      else String c (double_quotes s')
  end.

(** One field under QUOTE_MINIMAL. *)
Definition field_text (f : string) : string :=
  if any_char special f then String QUOTE (double_quotes f +:+ String QUOTE "")
  else f.

(** [csv.writer(file).writerow(row)]: the text written. A row made of
    one empty field is written quoted. *)
Definition writerow (row : list string) : string :=
  match row with
  | [EmptyString] => String QUOTE (String QUOTE "")
  | _ => Path.join "," (field_text <$> row)
  end +:+ String CR (String LF "").

(** What reading a file opened with [open(name, 'r')] does to line
    ends (universal newlines). *)
Fixpoint universal_newlines (s : string) : string :=
  match s with
  | EmptyString => EmptyString
  | String c s' =>
      if decide (c = CR) then
        match s' with
        | String c' s'' =>
            if decide (c' = LF) then String LF (universal_newlines s'')
            else String LF (universal_newlines s')
        | EmptyString => String LF EmptyString
        end
      else String c (universal_newlines s')
  end.

(** The reader's automaton (non-strict), on text whose line ends are
    all LF. [field] and [fields] and [rows] are kept reversed. *)
Inductive state :=
| START_RECORD | START_FIELD | IN_FIELD | IN_QUOTED_FIELD | QUOTE_IN_QUOTED_FIELD.

Record parser := {
  st : state;
  field : string;
  fields : list string;
  rows : list (list string)
}.

Definition add_char (c : ascii) (s : state) (p : parser) : parser :=
  {| st := s; field := String c (field p); fields := fields p; rows := rows p |}.

Definition save_field (s : state) (p : parser) : parser :=
  {| st := s; field := EmptyString;
     fields := String.rev (field p) :: fields p; rows := rows p |}.

Definition end_record (p : parser) : parser :=
  {| st := START_RECORD; field := EmptyString; fields := [];
     rows := rev (fields p) :: rows p |}.

Definition goto (s : state) (p : parser) : parser :=
  {| st := s; field := field p; fields := fields p; rows := rows p |}.

Definition start_field (c : ascii) (p : parser) : parser :=
  if decide (c = LF) then end_record (save_field START_RECORD p)
  else if decide (c = QUOTE) then goto IN_QUOTED_FIELD p
  else if decide (c = COMMA) then save_field START_FIELD p
  else add_char c IN_FIELD p.

Definition step (p : parser) (c : ascii) : parser :=
  match st p with
  | START_RECORD =>
      if decide (c = LF) then end_record p else start_field c p
  | START_FIELD => start_field c p
  | IN_FIELD =>
      if decide (c = LF) then end_record (save_field START_RECORD p)
      else if decide (c = COMMA) then save_field START_FIELD p
      else add_char c IN_FIELD p
  | IN_QUOTED_FIELD =>
      if decide (c = QUOTE) then goto QUOTE_IN_QUOTED_FIELD p
      else add_char c IN_QUOTED_FIELD p
  | QUOTE_IN_QUOTED_FIELD =>
      if decide (c = QUOTE) then add_char c IN_QUOTED_FIELD p
      else if decide (c = COMMA) then save_field START_FIELD p
      else if decide (c = LF) then end_record (save_field START_RECORD p)
      else add_char c IN_FIELD p
  end.

Fixpoint run (p : parser) (s : string) : parser :=
  match s with
  | EmptyString => p
  | String c s' => run (step p c) s'
  end.

(** At the end of the file an unfinished record is returned as it is. *)
Definition finish (p : parser) : list (list string) :=
  match st p with
  | START_RECORD => rev (rows p)
  | _ => rev (rows (end_record (save_field START_RECORD p)))
  end.

(** [list(csv.reader(open(name, 'r')))] on a file holding [text]. *)
Definition reader (text : string) : list (list string) :=
  finish (run {| st := START_RECORD; field := EmptyString; fields := []; rows := [] |}
              (universal_newlines text)).

(** A dict made by [DictReader]: its [str] keys, and the entry under
    the key [None] (the fields of a row beyond the header), which no
    [str] key reads. *)
Record row := { cells : record; rest : option (list string) }.

Definition to_dict (fieldnames : list string) (r : list string) : row :=
  let d := fold_left (λ acc kv, Dict.set kv.1 (VStr kv.2) acc) (zip fieldnames r) [] in
  let lf := length fieldnames in
  let lr := length r in
  if (lf <? lr)%nat then {| cells := d; rest := Some (drop lf r) |}
  else {| cells := fold_left (λ acc key, Dict.set key VNone acc) (drop lr fieldnames) d;
          rest := None |}.

(** [list(csv.DictReader(file))]: the first row is the header, blank
    rows are skipped. *)
Definition DictReader (text : string) : list row :=
  match reader text with
  | [] => []
  | fieldnames :: data =>
      to_dict fieldnames <$> filter (λ r, r ≠ []) data
  end.

Definition of_record (r : record) : row := {| cells := r; rest := None |}.

(** [DictWriter._dict_to_list], with [extrasaction='raise'] and
    [restval='']; [None] is written as the empty field. *)
Definition dict_to_list (fieldnames : list string) (rowdict : row)
  : result (list string) :=
  let wrong_fields :=
    (Some <$> filter (λ k, k ∉ fieldnames) (Dict.keys (cells rowdict)))
    ++ (if rest rowdict is Some _ then [None] else []) in
  if negb (bool_decide (wrong_fields = [])) then
    inl (ValueError (ExtraFields wrong_fields))
  else
    inr ((λ key, match Dict.get key (cells rowdict) with
                 | Some (VStr s) => s
                 | Some VNone => ""
                 | None => ""
                 end) <$> fieldnames).

(** [DictWriter.writeheader] *)
Definition writeheader (fieldnames : list string) : string :=
  writerow fieldnames.

(** [DictWriter.writerows]: the text written, and the exception that
    stopped it, if any. *)
Fixpoint writerows (fieldnames : list string) (rowdicts : list row)
  : string * option exn :=
  match rowdicts with
  | [] => (EmptyString, None)
  | r :: rs =>
      match dict_to_list fieldnames r with
      | inl e => (EmptyString, Some e)
      | inr l =>
          let '(text, e) := writerows fieldnames rs in
          (writerow l +:+ text, e)
      end
  end.

End Csv.

(** ** [json.dump(data, file, indent=2)] *)

Module Json.

Definition hex_digit (n : N) : ascii :=
  ascii_of_N (if (n <? 10)%N then 48 + n else 87 + n).

Definition escape_char (c : ascii) : string :=
  let n := Py.code c in
  if decide (c = Csv.QUOTE) then String "\" (String Csv.QUOTE "")
  else if decide (c = "\"%char) then "\\"
  else if decide (n = 10%N) then "\n"
  else if decide (n = 13%N) then "\r"
  else if decide (n = 9%N) then "\t"
  else if decide (n = 8%N) then "\b"
  else if decide (n = 12%N) then "\f"
  else if Py.in_range 32 126 c then String c ""
  else "\u00" +:+ String (hex_digit (n / 16)) (String (hex_digit (n mod 16)) "").

Fixpoint escape (s : string) : string :=
  match s with
  | EmptyString => EmptyString
  | String c s' => escape_char c +:+ escape s'
  end.

Definition dumps_str (s : string) : string :=
  String Csv.QUOTE (escape s +:+ String Csv.QUOTE "").

Definition dumps_val (v : pyval) : string :=
  match v with VStr s => dumps_str s | VNone => "null" end.

Definition NL : string := String Csv.LF "".

Definition dumps_item (kv : string * pyval) : string :=
  "    " +:+ dumps_str kv.1 +:+ ": " +:+ dumps_val kv.2.

Definition dumps_obj (r : record) : string :=
  match r with
  | [] => "{}"
  | _ => "{" +:+ NL +:+ Path.join ("," +:+ NL) (dumps_item <$> r) +:+ NL +:+ "  }"
  end.

Definition dumps (data : list record) : string :=
  match data with
  | [] => "[]"
  | _ => "[" +:+ NL
         +:+ Path.join ("," +:+ NL) ((λ r, "  " +:+ dumps_obj r) <$> data)
         +:+ NL +:+ "]"
  end.

End Json.
(** ** The store and its environment *)

(** What a file holds: text, or the document [json.dump] wrote (its text
    is [Json.dumps]). [json.load] returns the document of the latter as
    it is; text that [json.dump] did not write is modelled as not
    being JSON. A file is named by the string of its path; directories
    are not modelled, and no file fails to open but a missing one. *)
Inductive file_content :=
| Text (s : string)
| JsonDoc (data : list record).

Definition text_of (c : file_content) : string :=
  match c with Text s => s | JsonDoc data => Json.dumps data end.

Definition json_load (c : file_content) : result (list record) :=
  match c with
  | JsonDoc data => inr data
  | Text _ => inl (ValueError JSONDecode)
  end.

(** [print] and [print(tabulate(table_data, headers=..., tablefmt='grid'))] *)
Inductive output :=
| Print (s : string)
| PrintTable (table_data : list (list pyval)) (headers : list string).

(** The attributes of a [StudentManagementSystem]. *)
Record sms := {
  headers : list string;
  filename : option string;
  file_type : option string;
  default_filename : string
}.

Record world := {
  self : sms;
  files : gmap string file_content;
  cwd : Path.t;                      (* [Path.cwd()], absolute *)
  stdout : list output
}.

(** [StudentManagementSystem()] *)
Definition init : sms :=
  {| headers := ["id"; "name"; "age"; "grade"];
     filename := None;
     file_type := None;
     default_filename := "students.csv" |}.

(** Methods: state and exceptions. *)
Definition M (A : Type) : Type := world → result A * world.

#[global] Instance M_ret : MRet M := λ A x w, (inr x, w).
#[global] Instance M_bind : MBind M := λ A B f m w,
  match m w with
  | (inl e, w') => (inl e, w')
  | (inr x, w') => f x w'
  end.

Definition raise {A} (e : exn) : M A := λ w, (inl e, w).

Definition lift {A} (r : result A) : M A := λ w, (r, w).

Definition get_self : M sms := λ w, (inr (self w), w).

Definition get_cwd : M Path.t := λ w, (inr (cwd w), w).

Definition set_self (s : sms) : M unit := λ w,
  (inr (), {| self := s; files := files w; cwd := cwd w; stdout := stdout w |}).

Definition set_headers (h : list string) : M unit :=
  s ← get_self;
  set_self {| headers := h; filename := filename s; file_type := file_type s;
              default_filename := default_filename s |}.

Definition set_filename (f : option string) : M unit :=
  s ← get_self;
  set_self {| headers := headers s; filename := f; file_type := file_type s;
              default_filename := default_filename s |}.

Definition set_file_type (t : option string) : M unit :=
  s ← get_self;
  set_self {| headers := headers s; filename := filename s; file_type := t;
              default_filename := default_filename s |}.

Definition emit (o : output) : M unit := λ w,
  (inr (), {| self := self w; files := files w; cwd := cwd w; stdout := stdout w ++ [o] |}).

Definition print (s : string) : M unit := emit (Print s).

(** What a loop printed, in order. *)
Definition print_all (out : list output) : M unit :=
  foldr (λ o k, emit o;; k) (mret ()) out.

(** [os.path.exists(name)] *)
Definition path_exists (name : option string) : M bool := λ w,
  match name with
  | None => (inl (TypeError "os.path.exists"), w)
  | Some f => (inr (bool_decide (is_Some (files w !! f))), w)
  end.

(** The content of the file [open(name, 'r')] opens. *)
Definition open_read (name : option string) : M file_content := λ w,
  match name with
  | None => (inl (TypeError "open"), w)
  | Some f =>
      match files w !! f with
      | Some c => (inr c, w)
      | None => (inl (FileNotFoundError f), w)
      end
  end.

(** [open(name, 'w')] followed by writing [c]. *)
Definition write_file (name : option string) (c : file_content) : M unit := λ w,
  match name with
  | None => (inl (TypeError "open"), w)
  | Some f =>
      (inr (), {| self := self w; files := <[f := c]> (files w); cwd := cwd w;
                  stdout := stdout w |})
  end.

(** [open(name, 'a')]: a missing file is created empty. *)
Definition open_append (name : option string) : M unit := λ w,
  match name with
  | None => (inl (TypeError "open"), w)
  | Some f =>
      match files w !! f with
      | Some _ => (inr (), w)
      | None =>
          (inr (), {| self := self w; files := <[f := Text ""]> (files w);
                      cwd := cwd w; stdout := stdout w |})
      end
  end.

(** Writing [text] at the end of the file. *)
Definition append_file (name : option string) (text : string) : M unit :=
  c ← open_read name;
  write_file name (Text (text_of c +:+ text)).

(** [not self.filename] *)
Definition not_filename (s : sms) : bool :=
  match filename s with
  | None | Some EmptyString => true
  | Some _ => false
  end.

Definition is_csv (s : sms) : bool := bool_decide (file_type s = Some ".csv").

(** ** The methods of [StudentManagementSystem] *)

Definition create_file_if_not_exists : M unit :=
  s ← get_self;
  ex ← path_exists (filename s);
  if negb ex then
    if is_csv s then write_file (filename s) (Text (Csv.writerow (headers s)))
    else write_file (filename s) (JsonDoc [])
  else mret ().

Definition set_file_path (file_path : option string) : M unit :=
  s ← get_self;
  let file_path :=
    match file_path with
    | None | Some EmptyString => default_filename s
    | Some f => f
    end in
  let path := Path.parse file_path in
  here ← get_cwd;
  let path := if negb (Path.is_absolute path) then Path.joinpath here path else path in
  if negb (bool_decide (Py.lower (Path.suffix path) ∈ [".csv"; ".json"])) then
    raise (ValueError (Msg "File must be either CSV or JSON format"))
  else
  set_filename (Some (Path.to_str path));;
  set_file_type (Some (Py.lower (Path.suffix path)));;
  create_file_if_not_exists.

Definition read_json_file : M (list record) :=
  s ← get_self;
  c ← (λ w, match filename s with
            | None => (inl (TypeError "os.path.getsize"), w)
            | Some f =>
                match files w !! f with
                | Some c => (inr c, w)
                | None => (inl (FileNotFoundError f), w)
                end
            end);
  if bool_decide (text_of c = "") then mret []
  else lift (json_load c).

Definition write_json_file (data : list record) : M unit :=
  s ← get_self;
  write_file (filename s) (JsonDoc data).

(** [with open(name, 'w', newline='') as file: writer = DictWriter(file,
    fieldnames); writer.writeheader(); writer.writerows(students)]:
    what was written before an exception stays in the file. *)
Definition rewrite_csv (name : option string) (fieldnames : list string)
    (students : list Csv.row) : M unit :=
  let '(text, e) := Csv.writerows fieldnames students in
  write_file name (Text (Csv.writeheader fieldnames +:+ text));;
  match e with Some e => raise e | None => mret () end.

(** [list(csv.DictReader(file))] on the bound file. *)
Definition read_csv_file : M (list Csv.row) :=
  s ← get_self;
  c ← open_read (filename s);
  mret (Csv.DictReader (text_of c)).

Definition NOT_SET : exn :=
  ValueError (Msg "File path not set. Call set_file_path() first").

Definition add_student (student_data : record) : M unit :=
  s ← get_self;
  if not_filename s then raise NOT_SET else
  lift (validate_student_data (headers s) student_data);;
  (if is_csv s then
     open_append (filename s);;
     l ← lift (Csv.dict_to_list (headers s) (Csv.of_record student_data));
     append_file (filename s) (Csv.writerow l)
   else
     students ← read_json_file;
     write_json_file (students ++ [student_data]));;
  print "Student added successfully!".

(** [students]: the rows [DictReader] gave, or the loaded JSON. *)
Definition load_students : M (list record) :=
  s ← get_self;
  if is_csv s then rows ← read_csv_file; mret (Csv.cells <$> rows)
  else read_json_file.

(** [[student[h] for h in headers]] *)
Definition table_row (headers : list string) (student : record) : result (list pyval) :=
  mapM (Dict.getitem student) headers.

Definition view_all_students : M unit :=
  s ← get_self;
  if not_filename s then raise NOT_SET else
  students ← load_students;
  if bool_decide (students = []) then print "No students found!" else
  table_data ← lift (mapM (table_row (headers s)) students);
  print (Json.NL +:+ "Student Records:");;
  emit (PrintTable table_data (headers s)).

Definition view_specific_columns (columns : list string) : M unit :=
  students ← load_students;
  if bool_decide (students = []) then print "No students found!" else
  let table_data :=
    (λ student, omap (λ col, Dict.get col student) columns) <$> students in
  print (Json.NL +:+ "Selected Student Records:");;
  emit (PrintTable table_data columns).

(** The loop of [update_student] over the rows of a CSV file. *)
Fixpoint update_csv_rows (student_id : string) (updated_data : record)
    (rows : list Csv.row) : result (list Csv.row * bool) :=
  match rows with
  | [] => mret ([], false)
  | student :: rows' =>
      id ← Dict.getitem (Csv.cells student) "id";
      let '(student, hit) :=
        if bool_decide (id = VStr student_id) then
          ({| Csv.cells := Dict.update (Csv.cells student) updated_data;
              Csv.rest := Csv.rest student |}, true)
        else (student, false) in
      '(students, updated) ← update_csv_rows student_id updated_data rows';
      mret (student :: students, hit || updated)
  end.

(** The loop of [update_student] over loaded JSON. *)
Fixpoint update_json_rows (student_id : string) (updated_data : record)
    (students : list record) : result (list record * bool) :=
  match students with
  | [] => mret ([], false)
  | student :: students' =>
      id ← Dict.getitem student "id";
      let '(student, hit) :=
        if bool_decide (id = VStr student_id) then
          (Dict.update student updated_data, true)
        else (student, false) in
      '(students, updated) ← update_json_rows student_id updated_data students';
      mret (student :: students, hit || updated)
  end.

Definition update_student (student_id : string) (updated_data : record) : M unit :=
  s ← get_self;
  updated ←
    (if is_csv s then
       rows ← read_csv_file;
       '(students, updated) ← lift (update_csv_rows student_id updated_data rows);
       (if updated : bool then rewrite_csv (filename s) (headers s) students
        else mret ());;
       mret updated
     else
       students ← read_json_file;
       '(students, updated) ← lift (update_json_rows student_id updated_data students);
       (if updated : bool then write_json_file students else mret ());;
       mret updated);
  if updated : bool then print "Student updated successfully!"
  else print "Student not found!".

(** The loop of [delete_student]. *)
Fixpoint delete_rows (student_id : string) (rows : list Csv.row)
  : result (list Csv.row * bool) :=
  match rows with
  | [] => mret ([], false)
  | student :: rows' =>
      id ← Dict.getitem (Csv.cells student) "id";
      '(students, deleted) ← delete_rows student_id rows';
      if negb (bool_decide (id = VStr student_id)) then
        mret (student :: students, deleted)
      else mret (students, true)
  end.

Definition delete_student (student_id : string) : M unit :=
  s ← get_self;
  rows ← read_csv_file;
  '(students, deleted) ← lift (delete_rows student_id rows);
  if deleted : bool then
    rewrite_csv (filename s) (headers s) students;;
    print "Student deleted successfully!"
  else print "Student not found!".

Definition add_column (column_name : string) : M unit :=
  let column_name := Py.lower column_name in
  s ← get_self;
  if bool_decide (column_name ∈ Py.lower <$> headers s) then
    print "Column already exists!"
  else
  (if is_csv s then
     rows ← read_csv_file;
     let students :=
       (λ student, {| Csv.cells := Dict.set column_name (VStr "") (Csv.cells student);
                      Csv.rest := Csv.rest student |}) <$> rows in
     set_headers (headers s ++ [column_name]);;
     rewrite_csv (filename s) (headers s ++ [column_name]) students
   else
     students ← read_json_file;
     let students := Dict.set column_name (VStr "") <$> students in
     set_headers (headers s ++ [column_name]);;
     write_json_file students);;
  print ("Column '" +:+ column_name +:+ "' added successfully!").

(** [self.headers.remove(x)]: the first occurrence ([x] is present
    where the method calls it). *)
Fixpoint list_remove (x : string) (l : list string) : list string :=
  match l with
  | [] => []
  | y :: l' => if decide (x = y) then l' else y :: list_remove x l'
  end.

Definition remove_column (column_name : string) : M unit :=
  s ← get_self;
  if negb (bool_decide (column_name ∈ headers s)) then
    print "Column does not exist!"
  else if bool_decide (column_name = "id") then
    print "Cannot remove ID column!"
  else
  rows ← read_csv_file;
  students ← lift (mapM (λ student,
                cells ← Dict.del column_name (Csv.cells student);
                mret {| Csv.cells := cells; Csv.rest := Csv.rest student |}) rows);
  set_headers (list_remove column_name (headers s));;
  rewrite_csv (filename s) (list_remove column_name (headers s)) students;;
  print ("Column '" +:+ column_name +:+ "' removed successfully!").

(** The inner loop of [search_students]: the flag [matches_all], and
    the warning printed when a field is absent. *)
Fixpoint matches_all (search_criteria : list (string * string)) (student : record)
  : bool * list output :=
  match search_criteria with
  | [] => (true, [])
  | (field, value) :: rest =>
      match Dict.get field student with
      | None =>
          (false, [Print ("Warning: Field '" +:+ field +:+
                          "' not found in student records")])
      | Some v =>
          if negb (Py.contains (Py.lower value) (Py.lower (Py.str v)))
          then (false, [])
          else matches_all rest student
      end
  end.

(** The outer loop: [filtered_students] and what was printed. *)
Fixpoint filter_students (search_criteria : list (string * string))
    (students : list record) : list record * list output :=
  match students with
  | [] => ([], [])
  | student :: students' =>
      let '(ok, warned) := matches_all search_criteria student in
      let '(filtered, out) := filter_students search_criteria students' in
      (if ok then student :: filtered else filtered, warned ++ out)
  end.

Definition search_students (search_criteria : list (string * string)) : M unit :=
  s ← get_self;
  if not_filename s then raise NOT_SET else
  students ← load_students;
  if bool_decide (students = []) then print "No students found!" else
  let '(filtered_students, warnings) := filter_students search_criteria students in
  print_all warnings;;
  if bool_decide (filtered_students = []) then print "No matching students found!" else
  table_data ← lift (mapM (table_row (headers s)) filtered_students);
  print (Json.NL +:+ "Search Results:");;
  emit (PrintTable table_data (headers s)).

(** ** The calls a program can make, and the states they reach *)

Inductive call :=
| SetFilePath (file_path : option string)
| AddStudent (student_data : record)
| ViewAllStudents
| ViewSpecificColumns (columns : list string)
| UpdateStudent (student_id : string) (updated_data : record)
| DeleteStudent (student_id : string)
| AddColumn (column_name : string)
| RemoveColumn (column_name : string)
| SearchStudents (search_criteria : list (string * string)).

Definition run_call (c : call) : M unit :=
  match c with
  | SetFilePath file_path => set_file_path file_path
  | AddStudent student_data => add_student student_data
  | ViewAllStudents => view_all_students
  | ViewSpecificColumns columns => view_specific_columns columns
  | UpdateStudent student_id updated_data => update_student student_id updated_data
  | DeleteStudent student_id => delete_student student_id
  | AddColumn column_name => add_column column_name
  | RemoveColumn column_name => remove_column column_name
  | SearchStudents search_criteria => search_students search_criteria
  end.

(** A fresh store in any directory, over any files. *)
Definition fresh (fs : gmap string file_content) (here : Path.t) : world :=
  {| self := init; files := fs; cwd := here; stdout := [] |}.

(** The states of a store: a fresh one, then any calls; a call that
    raises leaves the state it had reached. *)
Inductive reachable : world → Prop :=
| reachable_fresh fs here : reachable (fresh fs here)
| reachable_call w c : reachable w → reachable (run_call c w).2.

(** [w] after printing [out]. *)
Definition printed (w : world) (out : list output) : world :=
  {| self := self w; files := files w; cwd := cwd w; stdout := stdout w ++ out |}.

(** ** The vocabulary of the specification *)

(** The error kinds of the specification, and the [ValueError] each one
    is in the code. *)
Inductive error_kind :=
| InvalidFormat
| NotConfigured
| MissingField
| InvalidField (field : string).

Definition kind_of (e : exn) : option error_kind :=
  match e with
  | ValueError (FieldsRequired _) => Some MissingField
  | ValueError (Msg m) =>
      if decide (m = "File must be either CSV or JSON format") then Some InvalidFormat
      else if decide (m = "File path not set. Call set_file_path() first") then Some NotConfigured
      else if decide (m = "ID must be a non-empty string") then Some (InvalidField "id")
      else if decide (m = "Name must be a non-empty string") then Some (InvalidField "name")
      else if decide (m = "Age must be a valid number") then Some (InvalidField "age")
      else if decide (m = "Grade must be one of: A, B, C, D, F") then Some (InvalidField "grade")
      else None
  | _ => None
  end.

Definition failure {A} (r : result A) : option error_kind :=
  match r with inl e => kind_of e | inr _ => None end.



(** The key set of a record is the schema. *)
Definition conforms (schema : list string) (r : record) : Prop :=
  ∀ k, k ∈ Dict.keys r ↔ k ∈ schema.

(** The record [update_student] leaves in the place of [r]. *)
Definition patched (student_id : string) (updated_data : record) (r : record) : record :=
  if bool_decide (Dict.get "id" r = Some (VStr student_id))
  then Dict.update r updated_data else r.

(** The calls that keep the store on its file and read it in its own
    format, passing no key from outside the schema. *)
Definition within_schema (schema : list string) (c : call) : Prop :=
  match c with
  | AddStudent student_data => ∀ k, k ∈ Dict.keys student_data → k ∈ schema
  | UpdateStudent _ updated_data => ∀ k, k ∈ Dict.keys updated_data → k ∈ schema
  | ViewAllStudents | ViewSpecificColumns _ | AddColumn _ | SearchStudents _ => True
  | SetFilePath _ | DeleteStudent _ | RemoveColumn _ => False
  end.

(** The text of a CSV file of the schema: the header row, then rows
    that have one field for each column. *)
Definition concat_text (l : list string) : string := foldr String.append "" l.

Definition csv_table (schema : list string) (c : file_content) : Prop :=
  ∃ rows : list (list string),
    text_of c = Csv.writeheader schema +:+ concat_text (Csv.writerow <$> rows) ∧
    ∀ row, row ∈ rows → length row = length schema.

(** The store is bound to [f], a CSV file of its schema. *)
Definition csv_bound (f : string) (w : world) : Prop :=
  filename (self w) = Some f ∧ file_type (self w) = Some ".csv" ∧
  ∃ c, files w !! f = Some c ∧ csv_table (headers (self w)) c.

(** One call takes the schema [old] to [new]. *)
Definition schema_step (old new : list string) : Prop :=
  new = old ∨ (∃ c, new = old ++ [c]) ∨ (∃ c, c ≠ "id" ∧ new = list_remove c old).

(** The path [set_file_path] checks and binds. *)
Definition resolved_path (w : world) (file_path : option string) : Path.t :=
  let p := Path.parse match file_path with
                      | None | Some EmptyString => default_filename (self w)
                      | Some f => f
                      end in
  if Path.is_absolute p then p else Path.joinpath (cwd w) p.

(** ** Sample data *)

Definition ann : record :=
  [("id", VStr "1"); ("name", VStr "Ann"); ("age", VStr "20"); ("grade", VStr "A")].

Definition bob : record :=
  [("id", VStr "2"); ("name", VStr "Bob"); ("age", VStr "31"); ("grade", VStr "B")].

Definition root_dir : Path.t := {| Path.root := "/"; Path.parts := ["data"] |}.

Definition students_csv : string := "/data/students.csv".
Definition students_json : string := "/data/students.json".

(** A store bound to a CSV file that holds the header and [students]. *)
Definition csv_store (students : list record) : world :=
  {| self := {| headers := headers init; filename := Some students_csv;
                file_type := Some ".csv"; default_filename := "students.csv" |};
     files := {[ students_csv :=
                   Text (Csv.writeheader (headers init) +:+
                         (Csv.writerows (headers init) (Csv.of_record <$> students)).1) ]};
     cwd := root_dir;
     stdout := [] |}.

(** A store bound to a JSON file that holds [students]. *)
Definition json_store (students : list record) : world :=
  {| self := {| headers := headers init; filename := Some students_json;
                file_type := Some ".json"; default_filename := "students.csv" |};
     files := {[ students_json := JsonDoc students ]};
     cwd := root_dir;
     stdout := [] |}.

(** The state after a sequence of calls. *)
Definition after (calls : list call) (w : world) : world :=
  fold_left (λ w c, (run_call c w).2) calls w.

(** A program that binds [students.json] in an empty directory and adds
    [students]; the same with [students.csv]. *)
Definition json_session (students : list record) : world :=
  after (SetFilePath (Some "students.json") :: (AddStudent <$> students))
        (fresh ∅ root_dir).

Definition csv_session (students : list record) : world :=
  after (SetFilePath (Some "students.csv") :: (AddStudent <$> students))
        (fresh ∅ root_dir).

(** A JSON file edited by hand: the record lacks grade and has a key
    that is not a column. *)
Definition edited : record :=
  [("id", VStr "7"); ("name", VStr "Eve"); ("age", VStr "19"); ("nickname", VStr "E")].

(** A program that binds the edited file. *)
Definition edited_session : world :=
  after [SetFilePath (Some "students.json")]
        (fresh {[ students_json := JsonDoc [edited] ]} root_dir).

(** A record whose name holds a carriage return. *)
Definition cara : record :=
  [("id", VStr "3"); ("name", VStr (String "A" (String Csv.CR "B")));
   ("age", VStr "20"); ("grade", VStr "A")].

Definition cara_read : record :=
  [("id", VStr "3"); ("name", VStr (String "A" (String Csv.LF "B")));
   ("age", VStr "20"); ("grade", VStr "A")].

(** A second record with the id of [ann]. *)
Definition ann_again : record :=
  [("id", VStr "1"); ("name", VStr "Anna"); ("age", VStr "22"); ("grade", VStr "C")].

(** ** The vocabulary of the further properties *)

(** No carriage return in [s]: reading leaves it as it is. *)
Definition no_CR (s : string) : Prop := Csv.universal_newlines s = s.

(** The record [DictReader] makes of a row under the header. *)
Definition csv_record (fieldnames : list string) (row : list string) : record :=
  zip fieldnames (VStr <$> row).

(** A row as it is read back: line ends in its fields are line feeds. *)
Definition read_back (row : list string) : list string :=
  Csv.universal_newlines <$> row.

(** The records [DictReader] makes of the rows of a file of the schema. *)
Definition csv_records (schema : list string) (rows : list (list string)) : list record :=
  (λ row, csv_record schema (read_back row)) <$> rows.

(** The row [DictWriter] writes for a record. *)
Definition row_of (schema : list string) (r : record) : list string :=
  (λ key, match Dict.get key r with
          | Some (VStr s) => s
          | Some VNone => ""
          | None => ""
          end) <$> schema.

(** The text of a value in a CSV field. *)
Definition cell_text (v : pyval) : string :=
  match v with VStr s => s | VNone => "" end.

(** A record as a CSV file gives it back: every value the string that
    was written, line ends as line feeds. *)
Definition stored (r : record) : record :=
  (λ kv, (kv.1, VStr (Csv.universal_newlines (cell_text kv.2)))) <$> r.

(** The store is bound to the CSV file [f], which holds the header row
    of the schema and then [rows], one field for each column. *)
Definition csv_holds (w : world) (f : string) (rows : list (list string)) : Prop :=
  filename (self w) = Some f ∧ file_type (self w) = Some ".csv" ∧
  (∃ c, files w !! f = Some c ∧
        text_of c = Csv.writeheader (headers (self w))
                    +:+ concat_text (Csv.writerow <$> rows)) ∧
  ∀ row, row ∈ rows → length row = length (headers (self w)).

(** A schema that a CSV file gives back as it is: distinct names, none
    with a carriage return, id among them. *)
Definition plain_schema (schema : list string) : Prop :=
  NoDup schema ∧ read_back schema = schema ∧ "id" ∈ schema.

(** The store is bound to the CSV file [f] of its schema, and the file
    holds the records [recs]. *)
Definition csv_store_of (w : world) (f : string) (recs : list record) : Prop :=
  f ≠ "" ∧ plain_schema (headers (self w)) ∧
  ∃ rows, csv_holds w f rows ∧ csv_records (headers (self w)) rows = recs.

(** [w] with another schema, the file [f] rewritten and [out] printed. *)
Definition rewritten (w : world) (h : list string) (f : string) (text : string)
    (out : list output) : world :=
  {| self := {| headers := h; filename := filename (self w);
                file_type := file_type (self w);
                default_filename := default_filename (self w) |};
     files := <[f := Text text]> (files w);
     cwd := cwd w;
     stdout := stdout w ++ out |}.

#[global] Arguments rewritten : simpl never.

(** The text of a CSV file of the schema [h] that holds [rs]. *)
Definition csv_text (h : list string) (rs : list record) : string :=
  Csv.writeheader h +:+ concat_text (Csv.writerow <$> (row_of h <$> rs)).

(** The store as [set_file_path] binds it to the file [f] of type [t]. *)
Definition bound_to (s : sms) (f t : string) : sms :=
  {| headers := headers s; filename := Some f; file_type := Some t;
     default_filename := default_filename s |}.

(** The file [create_file_if_not_exists] writes for a store of type [t]. *)
Definition empty_file (h : list string) (t : string) : file_content :=
  if bool_decide (t = ".csv") then Text (Csv.writerow h) else JsonDoc [].

(** The store is bound to the JSON file [f], which holds [data]. *)
Definition json_store_of (w : world) (f : string) (data : list record) : Prop :=
  f ≠ "" ∧ filename (self w) = Some f ∧ file_type (self w) = Some ".json" ∧
  files w !! f = Some (JsonDoc data).

(** A record that passes validation and has the columns of the schema
    as its keys, in their order. *)
Definition enterable (h : list string) (r : record) : Prop :=
  Dict.keys r = h ∧ ∃ b, validate_student_data h r = inr b.

(** The shape of a schema: id comes first, and no two names are the
    same up to the case of letters. *)
Definition schema_ok (h : list string) : Prop :=
  (∃ tl, h = "id" :: tl) ∧ NoDup (Py.lower <$> h) ∧ Forall (λ x, Py.lower x = x) h.

(** The store is bound to nothing, or to a file that exists, of one of
    the two types. *)
Definition binding_ok (w : world) : Prop :=
  match filename (self w), file_type (self w) with
  | None, None => True
  | Some f, Some t => f ≠ "" ∧ t ∈ [".csv"; ".json"] ∧ is_Some (files w !! f)
  | _, _ => False
  end.

(** The one file a call may write to: the bound file, or the file
    that [set_file_path] is to bind. *)
Definition target (w : world) (c : call) : option string :=
  match c with
  | SetFilePath file_path => Some (Path.to_str (resolved_path w file_path))
  | _ => filename (self w)
  end.

(** A field as the writer quotes it. *)
Definition quoted_text (f : string) : string :=
  String Csv.QUOTE (Csv.double_quotes f +:+ String Csv.QUOTE "").

(** A state of the reader at the start of a record or of a field. *)
Definition at_start (s : Csv.state) : Prop :=
  s = Csv.START_RECORD ∨ s = Csv.START_FIELD.

Abbreviation parser_at s f fs rs :=
  {| Csv.st := s; Csv.field := f; Csv.fields := fs; Csv.rows := rs |}.

(** ** The inputs on which the files are as the model has them

    The model of the reader has no limit on the size of a field, a file
    is named by the string of its path, and no directory is in the way
    of a file. The properties of reading, of binding and of whole runs
    are stated for fields within the limit of [csv] and for files that
    are named by a plain name in the current directory. *)

(** [csv.field_size_limit()]: the reader of [csv] raises on a field of
    more characters. *)
Definition field_size_limit : N := 131072.

Definition short (s : string) : Prop :=
  (N.of_nat (String.length s) ≤ field_size_limit)%N.

(** No field of a CSV file of the schema [h] that holds [recs] is over
    the limit of the reader. *)
Definition readable (h : list string) (recs : list record) : Prop :=
  Forall short h ∧
  Forall (λ r : record, Forall (λ kv, short (cell_text kv.2)) r) recs.

(** The number of bytes of a string in UTF-8, its characters being code
    points below 256. *)
Fixpoint utf8_length (s : string) : N :=
  match s with
  | EmptyString => 0
  | String c s' => ((if (Py.code c <? 128)%N then 1 else 2) + utf8_length s')%N
  end.

(** A name that the file system takes for an entry of a directory: not
    empty, not "." or "..", with no slash and no null character, of 255
    bytes at most. *)
Definition plain_name (name : string) : Prop :=
  name ≠ "" ∧ name ≠ "." ∧ name ≠ ".." ∧
  Forall (λ c, c ≠ "/"%char ∧ c ≠ "000"%char) (list_ascii_of_string name) ∧
  (utf8_length name ≤ 255)%N.

(** A directory as [Path.cwd()] gives it: absolute, every part a plain
    name, and short enough for the path of a file in it. *)
Definition canonical (here : Path.t) : Prop :=
  Path.root here = "/" ∧ Forall plain_name (Path.parts here) ∧
  (utf8_length (Path.to_str here) ≤ 3800)%N.

(** The path string or, without one, the default name: what
    [set_file_path] parses. *)
Definition named (w : world) (file_path : option string) : string :=
  match file_path with
  | None | Some EmptyString => default_filename (self w)
  | Some f => f
  end.

(** [f] is the path of a plain name in the current directory. *)
Definition in_cwd (w : world) (f : string) : Prop :=
  ∃ name, plain_name name ∧
          f = Path.to_str (Path.joinpath (cwd w) (Path.parse name)).

(** The files are the entries of the current directory, each under its
    one path; so is the file of the store, when it has one. *)
Definition flat (w : world) : Prop :=
  canonical (cwd w) ∧
  (∀ f, is_Some (files w !! f) → in_cwd w f) ∧
  (∀ f, filename (self w) = Some f → in_cwd w f).

(** A string of 1000 characters at most: the lines that [json.dump]
    writes for such keys and values are within the limit of the reader
    of [csv] too. *)
Definition small (s : string) : Prop := (N.of_nat (String.length s) ≤ 1000)%N.

(** A call with a plain name for its path and small strings for what it
    is to write. *)
Definition plain_call (w : world) (c : call) : Prop :=
  match c with
  | SetFilePath file_path => plain_name (named w file_path)
  | AddStudent student_data | UpdateStudent _ student_data =>
      Forall (λ kv : string * pyval, small kv.1 ∧ small (cell_text kv.2)) student_data
  | AddColumn column_name => small column_name
  | _ => True
  end.

(** The states of a store that starts in an empty directory and is
    given plain calls only. *)
Inductive reachable_plain : world → Prop :=
| reachable_plain_fresh here : canonical here → reachable_plain (fresh ∅ here)
| reachable_plain_call w c :
    reachable_plain w → plain_call w c → reachable_plain (run_call c w).2.

(** The exceptions of a method that has opened its file: none says that
    the file is missing, and the only [TypeError] is that of [int(None)]. *)
Definition opened (e : exn) : Prop :=
  match e with
  | FileNotFoundError _ => False
  | TypeError builtin => builtin = "int"
  | _ => True
  end.

(** The rows of the sample CSV file. *)
Definition sample_rows : list (list string) :=
  [["1"; "Ann"; "20"; "A"]; ["2"; "Bob"; "31"; "B"]].

(** The sample store after the column age was removed. *)
Definition no_age_store : world := (remove_column "age" (csv_store [ann; bob])).2.

Definition no_age_rows : list (list string) :=
  [["1"; "Ann"; "A"]; ["2"; "Bob"; "B"]].

(** ** The command line: [main]

    The program reads lines with [input] and writes prompts, messages
    and tables. The lines typed are a list; at its end [input] raises
    [EOFError]. The text of an exception, [str(e)], and the text of a
    list, as [print] writes it, are not modelled: the transcript keeps
    the exception and the list. *)

Module Cli.

(** [str.isspace] on the code points below 256. *)
Definition isspace (c : ascii) : bool := Py.is_space c || Py.in_range 28 31 c.

Fixpoint lstrip (s : string) : string :=
  match s with
  | String c s' => if isspace c then lstrip s' else s
  | EmptyString => EmptyString
  end.

(** [s.strip()] *)
Definition strip (s : string) : string :=
  String.rev (lstrip (String.rev (lstrip s))).

(** What a [try] of [main] can catch: an exception of a method, or the
    [EOFError] of [input]. *)
Inductive raised :=
| Raised (e : exn)
| EOFError.

Inductive event :=
| Out (o : output)                (* [print(...)], by [main] or by a method *)
| Prompt (s : string)             (* the prompt of [input(s)] *)
| Columns (h : list string)       (* [print("Available columns:", sms.headers)] *)
| Error (e : exn)                 (* [print(f"Error: {e}")] *)
| Unexpected (e : raised).        (* [print(f"An unexpected error occurred: {e}")] *)

Record state := {
  store : world;                  (* [sms], the files and the directory *)
  pending : list string;          (* the lines not read yet *)
  transcript : list event
}.

Definition C (A : Type) : Type := state → (raised + A) * state.

#[global] Instance C_ret : MRet C := λ A x st, (inr x, st).
#[global] Instance C_bind : MBind C := λ A B f m st,
  match m st with
  | (inl e, st') => (inl e, st')
  | (inr x, st') => f x st'
  end.

Definition say (e : event) : C unit := λ st,
  (inr (), {| store := store st; pending := pending st;
              transcript := transcript st ++ [e] |}).

Definition print (s : string) : C unit := say (Out (Print s)).

(** [input(prompt)] *)
Definition input (prompt : string) : C string := λ st,
  match pending st with
  | [] =>
      (inl EOFError, {| store := store st; pending := [];
                        transcript := transcript st ++ [Prompt prompt] |})
  | line :: rest =>
      (inr line, {| store := store st; pending := rest;
                    transcript := transcript st ++ [Prompt prompt] |})
  end.

(** A call of a method of [sms]: what it printed goes to the
    transcript. *)
Definition invoke (m : M unit) : C unit := λ st,
  let '(r, w) := m (store st) in
  (match r with inl e => inl (Raised e) | inr x => inr x end,
   {| store := w; pending := pending st;
      transcript := transcript st ++
                    (Out <$> drop (length (stdout (store st))) (stdout w)) |}).

Definition get_headers : C (list string) := λ st,
  (inr (headers (self (store st))), st).

(** [for header in sms.headers: value = input(prompt); data[header] = value],
    and with [skip]: [if value: data[header] = value]. *)
Fixpoint ask {V} (prompt : string → string) (skip : bool) (wrap : string → V)
    (hs : list string) (data : list (string * V)) : C (list (string * V)) :=
  match hs with
  | [] => mret data
  | header :: hs' =>
      value ← input (prompt header);
      ask prompt skip wrap hs'
        (if skip && bool_decide (value = "") then data
         else Dict.set header (wrap value) data)
  end.

(** The body of the [try] of the menu, but for the choice 10. *)
Definition serve (choice : string) : C unit :=
  hs ← get_headers;
  if bool_decide (choice = "1") then
    student_data ← ask (λ header, "Enter student " +:+ header +:+ ": ") false VStr hs [];
    invoke (add_student student_data)
  else if bool_decide (choice = "2") then
    invoke view_all_students
  else if bool_decide (choice = "3") then
    say (Columns hs);;
    line ← input "Enter column names (comma-separated): ";
    invoke (view_specific_columns (strip <$> Path.split "," line))
  else if bool_decide (choice = "4") then
    student_id ← input "Enter student ID to update: ";
    update_data ← ask (λ header, "Enter new " +:+ header +:+ " (press enter to skip): ")
                      true VStr hs [];
    invoke (update_student student_id update_data)
  else if bool_decide (choice = "5") then
    student_id ← input "Enter student ID to delete: ";
    invoke (delete_student student_id)
  else if bool_decide (choice = "6") then
    column_name ← input "Enter new column name: ";
    invoke (add_column column_name)
  else if bool_decide (choice = "7") then
    say (Columns hs);;
    column_name ← input "Enter column name to remove: ";
    invoke (remove_column column_name)
  else if bool_decide (choice = "8") then
    file_path ← input "Enter new file path (CSV or JSON): ";
    invoke (set_file_path (Some file_path));;
    print "File changed successfully!"
  else if bool_decide (choice = "9") then
    print (Json.NL +:+ "Enter search criteria (press Enter to skip a field):");;
    search_data ← ask (λ header, "Search by " +:+ header +:+ ": ") true id hs [];
    if bool_decide (search_data = []) then print "No search criteria provided!"
    else invoke (search_students search_data)
  else
    print "Invalid choice! Please try again.".

(** [except ValueError as e: ...  except Exception as e: ...] *)
Definition handle (r : raised + unit) : C unit :=
  match r with
  | inr _ => mret ()
  | inl (Raised e) =>
      if is_ValueError e then say (Error e) else say (Unexpected (Raised e))
  | inl EOFError => say (Unexpected EOFError)
  end.
















(** What the loop of [ask] puts into the dictionary when the lines
    [vals] answer the prompts for [hs]: with [skip], an empty line puts
    nothing. *)
Definition filled {V} (skip : bool) (wrap : string → V) (hs vals : list string)
  : list (string * V) :=
  (λ kv, (kv.1, wrap kv.2)) <$>
  filter (λ kv, negb (skip && bool_decide (kv.2 = ""))) (zip hs vals).

End Cli.



Definition at_menu (lines : list string) : Cli.state :=
  {| Cli.store := csv_store [ann; bob]; Cli.pending := lines; Cli.transcript := [] |}.

(** * Properties *)

Section validate.

Lemma mem_of_get {V} k (d : list (string * V)) v :
  Dict.get k d = Some v → Dict.mem k d = true.
Proof. intros H. unfold Dict.mem. rewrite H. by apply bool_decide_eq_true_2. Qed.

Lemma mem_false {V} k (d : list (string * V)) :
  Dict.get k d = None → Dict.mem k d = false.
Proof.
  intros H. unfold Dict.mem. rewrite H.
  apply bool_decide_eq_false_2. by intros [? ?].
Qed.

Lemma forallb_mem_false (hs : list string) (r : record) h :
  h ∈ hs → Dict.get h r = None → forallb (λ key, Dict.mem key r) hs = false.
Proof.
  intros Hin Hget. induction Hin as [|? ? ? ? IH]; simpl.
  - by rewrite (mem_false _ _ Hget).
  - rewrite IH; [apply andb_false_r | done].
Qed.

End validate.

(** Closes the conjuncts of a case analysis: each holds outright or has a
    premise that the case refutes. *)
Ltac settle :=
  split_and!;
  first [ done
        | by intros; simplify_eq
        | by intros; exfalso; auto
        | split; [done | by intros (? & ? & ? & ?)] ].

(** C1. On a record that has the four default columns, validation
    succeeds exactly when id and name are non-empty, age reads as an
    integer between 5 and 100 and grade is one of A, B, C, D, F; the
    failure is InvalidField of the first column, in the order id, name,
    age, grade, whose condition fails; and a record lacking a schema
    column fails with MissingField. *)
Theorem validate_student_data_spec (r : record) :
  (∀ hs h, h ∈ hs → Dict.get h r = None →
     failure (validate_student_data hs r) = Some MissingField) ∧
  (∀ id name age grade,
     Dict.get "id" r = Some (VStr id) → Dict.get "name" r = Some (VStr name) →
     Dict.get "age" r = Some (VStr age) → Dict.get "grade" r = Some (VStr grade) →
     let age_ok := ∃ n, Py.int_of_str age = Some n ∧ 5 ≤ n ≤ 100 in
     let grade_ok := grade ∈ ["A"; "B"; "C"; "D"; "F"] in
     let v := validate_student_data (headers init) r in
     (v = inr true ↔ id ≠ "" ∧ name ≠ "" ∧ age_ok ∧ grade_ok) ∧
     (id = "" → failure v = Some (InvalidField "id")) ∧
     (id ≠ "" → name = "" → failure v = Some (InvalidField "name")) ∧
     (id ≠ "" → name ≠ "" → ¬ age_ok → failure v = Some (InvalidField "age")) ∧
     (id ≠ "" → name ≠ "" → age_ok → ¬ grade_ok →
        failure v = Some (InvalidField "grade"))).
Proof.
  split.
  - intros hs h Hin Hget. unfold validate_student_data.
    by rewrite (forallb_mem_false _ _ _ Hin Hget).
  - intros id name age grade Hid Hname Hage Hgrade age_ok grade_ok v.
    assert (Hv : v =
      if bool_decide (id = "") then inl (ValueError (Msg "ID must be a non-empty string"))
      else if bool_decide (name = "") then inl (ValueError (Msg "Name must be a non-empty string"))
      else match Py.int_of_str age with
           | Some n =>
               if (5 <=? n) && (n <=? 100) then
                 if bool_decide (grade ∈ ["A"; "B"; "C"; "D"; "F"]) then inr true
                 else inl (ValueError (Msg "Grade must be one of: A, B, C, D, F"))
               else inl (ValueError (Msg "Age must be a valid number"))
           | None => inl (ValueError (Msg "Age must be a valid number"))
           end).
    { unfold v, validate_student_data. simpl.
      rewrite (mem_of_get _ _ _ Hid), (mem_of_get _ _ _ Hname),
        (mem_of_get _ _ _ Hage), (mem_of_get _ _ _ Hgrade). simpl.
      unfold Dict.getitem. rewrite Hid, Hname, Hage, Hgrade. simpl.
      destruct id; [done|]. destruct name; [done|]. simpl.
      destruct (Py.int_of_str age) as [n|]; simpl; [|done].
      destruct ((5 <=? n) && (n <=? 100)); simpl; [|done].
      assert (bool_decide (VStr grade ∈ [VStr "A"; VStr "B"; VStr "C"; VStr "D"; VStr "F"])
              = bool_decide (grade ∈ ["A"; "B"; "C"; "D"; "F"])) as ->.
      { apply bool_decide_ext. rewrite !elem_of_cons, !elem_of_nil.
        split; intros H; repeat destruct H as [H|H]; simplify_eq; tauto. }
      by case_bool_decide. }
    assert (Hage_ok : age_ok ↔
              ∃ n, Py.int_of_str age = Some n ∧ (5 <=? n) && (n <=? 100) = true).
    { unfold age_ok. split; intros (n & ? & ?); exists n; split; auto; lia. }
    rewrite Hv. clear Hv v.
    destruct (decide (id = "")) as [->|Hi]; [settle|].
    rewrite (bool_decide_eq_false_2 _ Hi).
    destruct (decide (name = "")) as [->|Hn]; [settle|].
    rewrite (bool_decide_eq_false_2 _ Hn).
    destruct (Py.int_of_str age) as [n|] eqn:E; cycle 1.
    { assert (¬ age_ok) by (intros (? & ? & ?)%Hage_ok; done). settle. }
    destruct ((5 <=? n) && (n <=? 100)) eqn:E'; cycle 1.
    { assert (¬ age_ok) by (intros (? & ? & ?)%Hage_ok; congruence). settle. }
    assert age_ok by (apply Hage_ok; eauto).
    case_bool_decide; settle.
Qed.

(** An age that is [None], which no record of the specification holds,
    is refused as well, by the [TypeError] of [int], which the [except]
    clause does not catch. *)
Lemma validate_None (r : record) (id name : string) :
  Dict.get "id" r = Some (VStr id) → Dict.get "name" r = Some (VStr name) →
  Dict.get "age" r = Some VNone → is_Some (Dict.get "grade" r) →
  id ≠ "" → name ≠ "" →
  validate_student_data (headers init) r = inl (TypeError "int").
Proof.
  intros Hid Hname Hage [g Hgrade] Hi Hn. unfold validate_student_data. simpl.
  rewrite (mem_of_get _ _ _ Hid), (mem_of_get _ _ _ Hname),
    (mem_of_get _ _ _ Hage), (mem_of_get _ _ _ Hgrade). simpl.
  unfold Dict.getitem. rewrite Hid, Hname, Hage. simpl.
  by destruct id, name.
Qed.

Lemma validate_student_data_spec_witness :
  validate_student_data (headers init) ann = inr true ∧
  failure (validate_student_data (headers init) [("id", VStr "1")]) = Some MissingField.
Proof.
  split.
  - destruct (validate_student_data_spec ann) as [_ H].
    destruct (H "1" "Ann" "20" "A" eq_refl eq_refl eq_refl eq_refl) as [Hiff _].
    apply Hiff. split_and!; [done | done | | apply list_elem_of_here].
    exists 20. split; [reflexivity | lia].
  - destruct (validate_student_data_spec [("id", VStr "1")]) as [H _].
    apply (H (headers init) "name"); [|reflexivity].
    apply list_elem_of_further, list_elem_of_here.
Defined.

(** ** Running the methods *)

(** Unfolds the monad and its primitives; [run] unfolds the helpers of
    the methods as well. *)
Ltac run_prims :=
  unfold append_file, open_append, open_read, write_file, path_exists, print, emit,
    set_headers, set_filename, set_file_type, set_self, get_self, get_cwd,
    raise, lift, printed;
  unfold mbind, mret, M_bind, M_ret; simpl.

Ltac run :=
  unfold load_students, read_csv_file, rewrite_csv, read_json_file, write_json_file,
    create_file_if_not_exists;
  run_prims.

(** Case analysis on the innermost scrutinee of the goal. *)
Ltac inner_case :=
  match goal with
  | |- context [match ?x with _ => _ end] =>
      lazymatch x with
      | context [match _ with _ => _ end] => fail
      | _ => destruct x eqn:?
      end
  end.

Ltac cases := repeat (simpl; inner_case); simpl.

Lemma printed_nil w : printed w [] = w.
Proof. destruct w. unfold printed. simpl. by rewrite app_nil_r. Qed.

Lemma printed_app w l1 l2 : printed (printed w l1) l2 = printed w (l1 ++ l2).
Proof. unfold printed. simpl. by rewrite app_assoc. Qed.

Lemma print_all_run (out : list output) (w : world) :
  print_all out w = (inr (), printed w out).
Proof.
  revert w. induction out as [|o out IH]; intros w; simpl.
  - by rewrite printed_nil.
  - unfold print_all in *. simpl. unfold mbind, M_bind, emit at 1.
    rewrite IH. unfold printed. simpl. by rewrite <- app_assoc.
Qed.

Section paths.

(** C10. A path whose suffix, in lower case, is neither .csv nor .json
    makes [set_file_path] raise the InvalidFormat error with the store,
    the files and the output as they were: nothing is bound and no file
    is created. *)
Theorem set_file_path_invalid_format (w : world) (file_path : option string) :
  Py.lower (Path.suffix (resolved_path w file_path)) ∉ [".csv"; ".json"] →
  set_file_path file_path w =
    (inl (ValueError (Msg "File must be either CSV or JSON format")), w) ∧
  failure (set_file_path file_path w).1 = Some InvalidFormat.
Proof.
  intros Hsuffix.
  assert (set_file_path file_path w =
    (inl (ValueError (Msg "File must be either CSV or JSON format")), w)) as ->; [|done].
  unfold set_file_path, resolved_path in *. run.
  destruct (Path.is_absolute _); simpl in *;
    by rewrite (bool_decide_eq_false_2 _ Hsuffix).
Qed.

Lemma set_file_path_invalid_format_witness :
  set_file_path (Some "students.txt") (fresh ∅ root_dir) =
    (inl (ValueError (Msg "File must be either CSV or JSON format")), fresh ∅ root_dir).
Proof.
  apply (set_file_path_invalid_format (fresh ∅ root_dir) (Some "students.txt")).
  vm_compute. intros H. by repeat (inversion H as [|? ? ? H']; clear H; rename H' into H).
Defined.

End paths.

Section schema.

Lemma lower_char_idemp c : Py.lower_char (Py.lower_char c) = Py.lower_char c.
Proof. by destruct c as [[] [] [] [] [] [] [] []]; vm_compute. Qed.

Lemma lower_idemp s : Py.lower (Py.lower s) = Py.lower s.
Proof. induction s as [|c s IH]; simpl; [done|]. by rewrite lower_char_idemp, IH. Qed.

(** C7. When the name, in lower case, is the lower case of a column of
    the schema, [add_column] reports that the column exists and leaves
    the schema, the bound file and every other file as they were. *)
Theorem add_column_existing (w : world) (column_name : string) :
  Py.lower column_name ∈ Py.lower <$> headers (self w) →
  add_column column_name w = (inr (), printed w [Print "Column already exists!"]).
Proof.
  intros Hin. unfold add_column. run.
  by rewrite (bool_decide_eq_true_2 _ Hin).
Qed.

Lemma add_column_existing_witness :
  add_column "Grade" (fresh ∅ root_dir) =
    (inr (), printed (fresh ∅ root_dir) [Print "Column already exists!"]).
Proof.
  apply (add_column_existing (fresh ∅ root_dir) "Grade").
  refine (bool_decide_unpack _ _). by vm_compute.
Defined.

(** Once [add_column] has returned, the column is in the schema in
    lower case. *)
Lemma add_column_adds (w : world) (column_name : string) :
  (add_column column_name w).1 = inr () →
  Py.lower column_name ∈ Py.lower <$> headers (self (add_column column_name w).2).
Proof.
  unfold add_column. run.
  case_bool_decide as Hin; simpl; [done|].
  assert (Hnew : Py.lower column_name ∈
            Py.lower <$> (headers (self w) ++ [Py.lower column_name])).
  { rewrite fmap_app, elem_of_app. right. simpl.
    rewrite lower_idemp. apply list_elem_of_here. }
  cases; try done.
Qed.

(** A second call with the name in any letter case is refused and
    changes nothing. *)
Lemma add_column_twice (w : world) (column_name again : string) :
  Py.lower again = Py.lower column_name →
  (add_column column_name w).1 = inr () →
  let w1 := (add_column column_name w).2 in
  add_column again w1 = (inr (), printed w1 [Print "Column already exists!"]).
Proof.
  intros Heq Hok w1.
  assert (Hin : Py.lower again ∈ Py.lower <$> headers (self w1))
    by (rewrite Heq; by apply add_column_adds).
  unfold add_column. run. by rewrite (bool_decide_eq_true_2 _ Hin).
Qed.

(** The schema after each method: [add_column] may append a name,
    [remove_column] may remove one that is not id, the other methods
    leave it alone. *)
Lemma run_call_schema (w : world) (c : call) :
  schema_step (headers (self w)) (headers (self (run_call c w).2)).
Proof.
  destruct c; simpl.
  - left. unfold set_file_path. run. cases; done.
  - left. unfold add_student. run. cases; done.
  - left. unfold view_all_students. run. cases; done.
  - left. unfold view_specific_columns. run. cases; done.
  - left. unfold update_student. run. cases; done.
  - left. unfold delete_student. run. cases; done.
  - unfold add_column. run.
    cases; first [by left | right; left; eauto].
  - unfold remove_column. run.
    case_bool_decide as Hin; simpl; [|by left].
    case_bool_decide as Hid; simpl; [by left|].
    cases; first [by left | right; right; eauto].
  - left. unfold search_students. run. cases; try done.
    all: rewrite print_all_run in *; by simplify_eq.
Qed.

Lemma elem_of_list_remove_ne (x c : string) (l : list string) :
  c ≠ x → x ∈ l → x ∈ list_remove c l.
Proof.
  intros Hne. induction l as [|y l IH]; simpl; [done|].
  intros [->|Hin]%elem_of_cons; case_decide; subst;
    rewrite ?elem_of_cons; auto; done.
Qed.

(** No call removes the id column. *)
Lemma reachable_id (w : world) : reachable w → "id" ∈ headers (self w).
Proof.
  induction 1 as [fs here|w c _ IH].
  - apply list_elem_of_here.
  - destruct (run_call_schema w c) as [->|[[x ->]|(x & Hx & ->)]]; [done| |].
    + apply elem_of_app. by left.
    + by apply elem_of_list_remove_ne.
Qed.

(** C6. In every state of a store, [remove_column "id"] reports that
    the id column cannot be removed and leaves the schema and all files
    as they were. *)
Theorem remove_column_id_protected (w : world) :
  reachable w →
  remove_column "id" w = (inr (), printed w [Print "Cannot remove ID column!"]).
Proof.
  intros Hid%reachable_id. unfold remove_column. run.
  by rewrite (bool_decide_eq_true_2 _ Hid).
Qed.

Lemma remove_column_id_protected_witness :
  remove_column "id" (fresh ∅ root_dir) =
    (inr (), printed (fresh ∅ root_dir) [Print "Cannot remove ID column!"]).
Proof.
  apply (remove_column_id_protected (fresh ∅ root_dir)).
  apply reachable_fresh.
Defined.

End schema.

Section unconfigured.

Variables (fs : gmap string file_content) (here : Path.t).

(** The three guarded methods raise the NotConfigured error on a store
    that has no path. *)
Lemma unconfigured_guarded (student_data : record)
    (search_criteria : list (string * string)) :
  add_student student_data (fresh fs here) = (inl NOT_SET, fresh fs here) ∧
  view_all_students (fresh fs here) = (inl NOT_SET, fresh fs here) ∧
  search_students search_criteria (fresh fs here) = (inl NOT_SET, fresh fs here) ∧
  kind_of NOT_SET = Some NotConfigured.
Proof. done. Qed.

(** C5. On a store that has no path, [update_student],
    [delete_student], [view_specific_columns], [add_column] with a new
    name and [remove_column] with a column other than id do not raise
    the NotConfigured error: they raise [TypeError], which is none of
    the error kinds; and [add_column] with an existing name and
    [remove_column "id"] return without an error. *)
Theorem unconfigured_unguarded (student_id : string) (updated_data : record)
    (columns : list string) :
  let w := fresh fs here in
  update_student student_id updated_data w = (inl (TypeError "os.path.getsize"), w) ∧
  delete_student student_id w = (inl (TypeError "open"), w) ∧
  view_specific_columns columns w = (inl (TypeError "os.path.getsize"), w) ∧
  add_column "nickname" w = (inl (TypeError "os.path.getsize"), w) ∧
  remove_column "name" w = (inl (TypeError "open"), w) ∧
  (∀ builtin, kind_of (TypeError builtin) = None) ∧
  add_column "Grade" w = (inr (), printed w [Print "Column already exists!"]) ∧
  remove_column "id" w = (inr (), printed w [Print "Cannot remove ID column!"]).
Proof. done. Qed.

End unconfigured.

Section search.

Lemma app_cons c s t : String c s +:+ t = String c (s +:+ t).
Proof. reflexivity. Qed.




(** The outer loop keeps the records the inner loop accepts, in order. *)
Lemma filter_students_filter criteria students :
  (filter_students criteria students).1 =
  List.filter (λ student, (matches_all criteria student).1) students.
Proof.
  induction students as [|student students IH]; simpl; [done|].
  destruct (matches_all criteria student) as [ok warned].
  destruct (filter_students criteria students) as [filtered out].
  simpl in *. by destruct ok; rewrite IH.
Qed.




End search.

(** ** Stores bound to a JSON file *)

Section json.

Lemma mapM_cons {A B} (f : A → result B) x (l : list A) :
  mapM f (x :: l) =
  match f x with
  | inl e => inl e
  | inr y => match mapM f l with inl e => inl e | inr ys => inr (y :: ys) end
  end.
Proof. reflexivity. Qed.

Lemma mapM_inr {A B} (f : A → result B) (l : list A) :
  (∃ ys, mapM f l = inr ys) ↔ (∀ x, x ∈ l → ∃ y, f x = inr y).
Proof.
  induction l as [|x l IH]; [split; [by intros _ ? ?%elem_of_nil | by eexists]|].
  rewrite mapM_cons. split.
  - intros [ys H] x' [->|Hin]%elem_of_cons.
    + destruct (f x); [done | by eexists].
    + apply IH; [|done]. destruct (f x); [done|].
      destruct (mapM f l); [done | by eexists].
  - intros H. destruct (H x) as [y ->]; [by left|].
    destruct (proj2 IH) as [ys ->]; [intros; apply H; by right | by eexists].
Qed.

Lemma mapM_inl {A B} (f : A → result B) (l : list A) e :
  mapM f l = inl e → ∃ x, x ∈ l ∧ f x = inl e.
Proof.
  induction l as [|x l IH]; [done|]. rewrite mapM_cons.
  destruct (f x) as [e'|y] eqn:Hx.
  - intros [= ->]. exists x. split; [by left | done].
  - destruct (mapM f l) as [e'|ys]; [|done].
    intros [= ->]. destruct IH as (x' & ? & ?); [done|].
    exists x'. split; [by right | done].
Qed.

Lemma table_row_inr (hs : list string) (r : record) :
  (∃ row, table_row hs r = inr row) ↔ ∀ h, h ∈ hs → is_Some (Dict.get h r).
Proof.
  unfold table_row. rewrite mapM_inr. unfold Dict.getitem.
  split; intros H h Hh; destruct (H h Hh) as [v Hv];
    destruct (Dict.get h r); simplify_eq; by eexists.
Qed.

Lemma not_filename_bound (s : sms) (name : string) :
  filename s = Some name → name ≠ "" → not_filename s = false.
Proof. unfold not_filename. intros ->. by destruct name. Qed.

Lemma dumps_nonempty data : Json.dumps data ≠ "".
Proof. by destruct data. Qed.

Lemma keys_set {V} k (v : V) (d : list (string * V)) k' :
  k' ∈ Dict.keys (Dict.set k v d) ↔ k' = k ∨ k' ∈ Dict.keys d.
Proof.
  unfold Dict.keys. induction d as [|[k0 v0] d IH]; simpl.
  - rewrite elem_of_cons, elem_of_nil. tauto.
  - case_decide; subst; simpl; rewrite !elem_of_cons; [tauto|].
    rewrite IH. tauto.
Qed.

Lemma keys_update {V} (d patch : list (string * V)) k :
  k ∈ Dict.keys (Dict.update d patch) ↔ k ∈ Dict.keys d ∨ k ∈ Dict.keys patch.
Proof.
  unfold Dict.update. revert d.
  induction patch as [|[k0 v0] patch IH]; intros d; simpl.
  - change (Dict.keys (@nil (string * V))) with (@nil string).
    rewrite elem_of_nil. tauto.
  - rewrite IH, keys_set.
    change (Dict.keys ((k0, v0) :: patch)) with (k0 :: Dict.keys patch).
    rewrite elem_of_cons. tauto.
Qed.

Lemma keys_patched id patch (r : record) k :
  k ∈ Dict.keys (patched id patch r) ↔
  k ∈ Dict.keys r ∨ (Dict.get "id" r = Some (VStr id) ∧ k ∈ Dict.keys patch).
Proof.
  unfold patched. case_bool_decide; [rewrite keys_update|]; tauto.
Qed.

(** The loop of [update_student] over loaded JSON patches the records
    whose id is the target, unless a record has no id. *)
Lemma update_json_rows_spec id patch (students : list record) :
  (∃ e, update_json_rows id patch students = inl e) ∨
  ∃ updated,
    update_json_rows id patch students = inr (patched id patch <$> students, updated) ∧
    (updated = false → patched id patch <$> students = students).
Proof.
  induction students as [|r students IH]; simpl; [right; by exists false|].
  unfold Dict.getitem, patched.
  destruct (Dict.get "id" r) as [v|] eqn:Hv; simpl; [|left; by eexists].
  destruct IH as [[e ->]|(updated & -> & Hsame)]; simpl.
  { left. destruct (bool_decide (v = VStr id)); by eexists. }
  right.
  assert (bool_decide (Some v = Some (VStr id)) = bool_decide (v = VStr id)) as ->.
  { apply bool_decide_ext. naive_solver. }
  destruct (bool_decide (v = VStr id)); simpl.
  - by exists true.
  - exists updated. split; [done|]. intros Hu. f_equal. exact (Hsame Hu).
Qed.

Lemma update_json_rows_ok id patch (students : list record) :
  (∀ r, r ∈ students → is_Some (Dict.get "id" r)) →
  ∃ updated,
    update_json_rows id patch students = inr (patched id patch <$> students, updated) ∧
    (updated = false → patched id patch <$> students = students).
Proof.
  intros Hid. destruct (update_json_rows_spec id patch students) as [[e He]|H]; [|done].
  exfalso. induction students as [|r students IH]; [done|]. simpl in He.
  destruct (Hid r) as [v Hv]; [by left|].
  unfold Dict.getitem in He. rewrite Hv in He. simpl in He.
  destruct (update_json_rows id patch students) as [e'|[? ?]] eqn:E.
  - apply IH; [intros; apply Hid; by right|]. by destruct (bool_decide _).
  - by destruct (bool_decide _).
Qed.

Lemma mem_keys {V} k (d : list (string * V)) : Dict.mem k d = true ↔ k ∈ Dict.keys d.
Proof.
  unfold Dict.mem, Dict.keys. rewrite bool_decide_eq_true.
  induction d as [|[k0 v0] d IH]; simpl.
  - rewrite elem_of_nil. split; [by intros [? ?] | done].
  - rewrite elem_of_cons. case_decide; subst; [split; eauto|].
    rewrite IH. split; [by right | by intros [?|?]].
Qed.

Lemma validate_has_columns (hs : list string) (r : record) b :
  validate_student_data hs r = inr b → ∀ h, h ∈ hs → h ∈ Dict.keys r.
Proof.
  unfold validate_student_data.
  destruct (forallb _ hs) eqn:Hall; [|done]. intros _ h Hh.
  rewrite forallb_forall in Hall. apply mem_keys, Hall. by apply list_elem_of_In.
Qed.

(** The methods that only show records change neither the store nor
    the files. *)
Lemma views_keep (w : world) (c : call) :
  match c with
  | ViewAllStudents | ViewSpecificColumns _ | SearchStudents _ => True
  | _ => False
  end →
  self (run_call c w).2 = self w ∧ files (run_call c w).2 = files w.
Proof.
  destruct c; try done; intros _; simpl.
  - unfold view_all_students. run. cases; done.
  - unfold view_specific_columns. run. cases; done.
  - unfold search_students. run. cases; try done.
    all: rewrite print_all_run in *; by simplify_eq.
Qed.

Variables (w : world) (f : string) (data : list record).
Hypothesis Hname : filename (self w) = Some f.
Hypothesis Htype : file_type (self w) = Some ".json".
Hypothesis Hfile : files w !! f = Some (JsonDoc data).

(** Loading returns the objects of the file as they are. *)
Lemma read_json_file_as_is : read_json_file w = (inr data, w).
Proof using Hname Hfile.
  unfold read_json_file. run_prims. rewrite Hname, Hfile. simpl.
  by rewrite (bool_decide_eq_false_2 _ (dumps_nonempty data)).
Qed.

Lemma load_students_json : load_students w = (inr data, w).
Proof using Hname Htype Hfile.
  unfold load_students, is_csv. run_prims. rewrite Htype. simpl.
  apply read_json_file_as_is.
Qed.

(** C9, as the code has it. Loading a JSON file aligns nothing: the
    loaded objects are used as they are. [view_all_students] then
    prints the table when every object has every column of the schema,
    and otherwise raises [KeyError] for a column that some object
    lacks; keys that are not columns stay in the objects. *)
Theorem view_all_students_json :
  f ≠ "" → data ≠ [] →
  read_json_file w = (inr data, w) ∧
  ((view_all_students w).1 = inr () ↔
     ∀ r h, r ∈ data → h ∈ headers (self w) → is_Some (Dict.get h r)) ∧
  (∀ e, (view_all_students w).1 = inl e →
     view_all_students w = (inl e, w) ∧
     ∃ r h, r ∈ data ∧ h ∈ headers (self w) ∧ Dict.get h r = None ∧ e = KeyError h).
Proof using Hname Htype Hfile.
  intros Hf Hne. split; [apply read_json_file_as_is|].
  assert (Hrun : view_all_students w =
    match mapM (table_row (headers (self w))) data with
    | inl e => (inl e, w)
    | inr table_data =>
        (inr (), printed w [Print (Json.NL +:+ "Student Records:");
                            PrintTable table_data (headers (self w))])
    end).
  { unfold view_all_students. run_prims.
    rewrite (not_filename_bound _ _ Hname Hf), load_students_json.
    rewrite (bool_decide_eq_false_2 _ Hne).
    destruct (mapM _ data); simpl; [done|].
    unfold printed. simpl. by rewrite <- app_assoc. }
  assert (Hmissing : ∀ e, mapM (table_row (headers (self w))) data = inl e →
    ∃ r h, r ∈ data ∧ h ∈ headers (self w) ∧ Dict.get h r = None ∧ e = KeyError h).
  { intros e (r & Hr & He)%mapM_inl. apply mapM_inl in He as (h & Hh & He).
    unfold Dict.getitem in He. exists r, h.
    destruct (Dict.get h r); [done|]. by simplify_eq. }
  assert (Hok : (∃ table, mapM (table_row (headers (self w))) data = inr table) ↔
    ∀ r h, r ∈ data → h ∈ headers (self w) → is_Some (Dict.get h r)).
  { rewrite mapM_inr. split.
    - intros H r h Hr. by apply table_row_inr, H.
    - intros H r Hr. apply table_row_inr. intros h. by apply H. }
  rewrite Hrun, <- Hok. split.
  - destruct (mapM _ data); split; try done; [by intros [? ?] | by eexists].
  - intros e. destruct (mapM _ data) as [e'|table] eqn:E; [|done].
    intros [= ->]. split; [done|]. by apply Hmissing.
Qed.

(** What [update_student] does to a JSON store. *)
Lemma update_student_json_run (student_id : string) (updated_data : record) :
  (∃ e, update_student student_id updated_data w = (inl e, w)) ∨
  ∃ updated : bool,
    update_student student_id updated_data w =
      (inr (), {| self := self w;
                  files := <[f := JsonDoc (patched student_id updated_data <$> data)]>
                             (files w);
                  cwd := cwd w;
                  stdout := stdout w ++
                    [Print (if updated then "Student updated successfully!"
                            else "Student not found!")] |}).
Proof using Hname Htype Hfile.
  unfold update_student, is_csv. run_prims. rewrite Htype. simpl.
  rewrite read_json_file_as_is. simpl.
  destruct (update_json_rows_spec student_id updated_data data)
    as [[e ->]|(updated & -> & Hsame)]; simpl; [left; by eexists|].
  right. exists updated. destruct updated; simpl.
  - unfold write_json_file. run_prims. by rewrite Hname.
  - rewrite (Hsame eq_refl), (insert_id _ _ _ Hfile). by destruct w.
Qed.

(** What [add_student] does to a JSON store. *)
Lemma add_student_json_run (student_data : record) :
  (∃ e, add_student student_data w = (inl e, w)) ∨
  (∃ b, validate_student_data (headers (self w)) student_data = inr b) ∧
  add_student student_data w =
    (inr (), {| self := self w;
                files := <[f := JsonDoc (data ++ [student_data])]> (files w);
                cwd := cwd w;
                stdout := stdout w ++ [Print "Student added successfully!"] |}).
Proof using Hname Htype Hfile.
  unfold add_student, is_csv. run_prims.
  destruct (not_filename (self w)); [left; by eexists|].
  destruct (validate_student_data _ _) as [e|b]; simpl; [left; by eexists|].
  right. split; [by eexists|]. rewrite Htype. simpl.
  rewrite read_json_file_as_is. simpl.
  unfold write_json_file. run_prims. by rewrite Hname.
Qed.

(** What [add_column] does to a JSON store. *)
Lemma add_column_json_run (column_name : string) :
  add_column column_name w = (inr (), printed w [Print "Column already exists!"]) ∨
  add_column column_name w =
    (inr (), {| self := {| headers := headers (self w) ++ [Py.lower column_name];
                           filename := filename (self w);
                           file_type := file_type (self w);
                           default_filename := default_filename (self w) |};
                files := <[f := JsonDoc (Dict.set (Py.lower column_name) (VStr "") <$> data)]>
                           (files w);
                cwd := cwd w;
                stdout := stdout w ++
                  [Print ("Column '" +:+ Py.lower column_name +:+ "' added successfully!")] |}).
Proof using Hname Htype Hfile.
  unfold add_column, is_csv. run_prims.
  destruct (bool_decide (Py.lower column_name ∈ _)); [by left|].
  right. rewrite (bool_decide_eq_false_2 (file_type (self w) = Some ".csv"))
    by (by rewrite Htype).
  rewrite read_json_file_as_is. simpl.
  unfold write_json_file. run_prims. by rewrite Hname.
Qed.

(** On a JSON store [update_student] never changes the schema; it gives
    every record whose id is the target all the keys of the patch,
    columns or not, and leaves the other records alone. And when the
    records conform to the schema, they still do after [add_student],
    [view_all_students], [view_specific_columns], [update_student],
    [add_column] or [search_students], given a record or patch with no
    key from outside the schema. *)
Lemma json_records_conform :
  (∀ student_id updated_data,
     (∀ r, r ∈ data → is_Some (Dict.get "id" r)) →
     let w' := (update_student student_id updated_data w).2 in
     (update_student student_id updated_data w).1 = inr () ∧
     self w' = self w ∧
     files w' = <[f := JsonDoc (patched student_id updated_data <$> data)]> (files w) ∧
     (∀ r k, k ∈ Dict.keys (patched student_id updated_data r) ↔
        k ∈ Dict.keys r ∨
        (Dict.get "id" r = Some (VStr student_id) ∧ k ∈ Dict.keys updated_data))) ∧
  (∀ c,
     (∀ r, r ∈ data → conforms (headers (self w)) r) →
     within_schema (headers (self w)) c →
     let w' := (run_call c w).2 in
     filename (self w') = Some f ∧ file_type (self w') = Some ".json" ∧
     ∃ data', files w' !! f = Some (JsonDoc data') ∧
              ∀ r, r ∈ data' → conforms (headers (self w')) r).
Proof using Hname Htype Hfile.
  split.
  - intros student_id updated_data Hid w'. subst w'.
    destruct (update_json_rows_ok student_id updated_data data Hid)
      as (updated & Hrows & _).
    destruct (update_student_json_run student_id updated_data)
      as [[e Hrun]|[updated' Hrun]].
    + exfalso. revert Hrun. unfold update_student, is_csv. run_prims.
      rewrite Htype. simpl. rewrite read_json_file_as_is. simpl. rewrite Hrows. simpl.
      destruct updated; simpl; [|done].
      unfold write_json_file. run_prims. by rewrite Hname.
    + rewrite Hrun. simpl. split_and!; try done. apply keys_patched.
  - intros c Hconf Hin w'. subst w'.
    assert (Hsame : ∀ w', self w' = self w → files w' = files w →
      filename (self w') = Some f ∧ file_type (self w') = Some ".json" ∧
      ∃ data', files w' !! f = Some (JsonDoc data') ∧
               ∀ r, r ∈ data' → conforms (headers (self w')) r).
    { intros w' -> ->. split_and!; [done..|]. by exists data. }
    destruct c as [| student_data | | columns | student_id updated_data | |
                   column_name | | criteria]; simpl in Hin; try done.
    + simpl. destruct (add_student_json_run student_data) as [[e ->]|[[b Hb] ->]];
        [by apply Hsame|]. simpl. split_and!; [done..|].
      eexists. split; [apply lookup_insert_eq|].
      intros r [Hr|Hr%list_elem_of_singleton]%elem_of_app; [by apply Hconf|subst r].
      intros k. split; [apply Hin | apply (validate_has_columns _ _ _ Hb)].
    + by apply Hsame; apply (views_keep w ViewAllStudents).
    + by apply Hsame; apply (views_keep w (ViewSpecificColumns columns)).
    + simpl. destruct (update_student_json_run student_id updated_data)
        as [[e ->]|[updated ->]]; [by apply Hsame|]. simpl. split_and!; [done..|].
      eexists. split; [apply lookup_insert_eq|].
      intros r' [r [-> Hr]]%list_elem_of_fmap k.
      rewrite keys_patched, <- (Hconf r Hr k). split; [|tauto].
      intros [?|[_ ?%Hin]]; [done|]. by apply (Hconf r Hr k).
    + simpl. destruct (add_column_json_run column_name) as [->| ->];
        [by apply Hsame|]. simpl. split_and!; [done..|].
      eexists. split; [apply lookup_insert_eq|].
      intros r' [r [-> Hr]]%list_elem_of_fmap k.
      rewrite keys_set, elem_of_app, list_elem_of_singleton, (Hconf r Hr k). tauto.
    + by apply Hsame; apply (views_keep w (SearchStudents criteria)).
Qed.

End json.

(** ** Stores bound to a CSV file *)

Section csv.

Lemma append_assoc (a b c : string) : (a +:+ b) +:+ c = a +:+ b +:+ c.
Proof. induction a as [|x a IH]; [done|]. by rewrite !app_cons, IH. Qed.

Lemma append_nil_r (a : string) : a +:+ "" = a.
Proof. induction a as [|x a IH]; [done|]. by rewrite app_cons, IH. Qed.

Lemma concat_text_app (l1 l2 : list string) :
  concat_text (l1 ++ l2) = concat_text l1 +:+ concat_text l2.
Proof.
  induction l1 as [|x l1 IH]; simpl; [done|]. by rewrite IH, append_assoc.
Qed.

Lemma dict_to_list_length (h : list string) (r : Csv.row) (l : list string) :
  Csv.dict_to_list h r = inr l → length l = length h.
Proof.
  unfold Csv.dict_to_list. destruct (negb _); [done|].
  intros [= <-]. by rewrite length_fmap.
Qed.

(** Whatever [writerows] wrote is rows of the schema. *)
Lemma writerows_table (h : list string) (students : list Csv.row) text e :
  Csv.writerows h students = (text, e) →
  csv_table h (Text (Csv.writeheader h +:+ text)).
Proof.
  intros Hw.
  assert (∃ rows, text = concat_text (Csv.writerow <$> rows) ∧
                  ∀ row, row ∈ rows → length row = length h) as (rows & -> & Hlen);
    [|by exists rows].
  revert text e Hw. induction students as [|r students IH]; simpl; intros text e.
  - intros [= <- <-]. exists []. split; [done | by intros ? ?%elem_of_nil].
  - destruct (Csv.dict_to_list h r) as [e'|l] eqn:Hl.
    + intros [= <- <-]. exists []. split; [done | by intros ? ?%elem_of_nil].
    + destruct (Csv.writerows h students) as [text' e'].
      intros [= <- <-]. destruct (IH _ _ eq_refl) as (rows & -> & Hlen).
      exists (l :: rows). split; [done|].
      intros row [->|?]%elem_of_cons; [by eapply dict_to_list_length | by apply Hlen].
Qed.

Variables (w : world) (f : string) (c0 : file_content).
Hypothesis Hname : filename (self w) = Some f.
Hypothesis Htype : file_type (self w) = Some ".csv".
Hypothesis Hfile : files w !! f = Some c0.
Hypothesis Htable : csv_table (headers (self w)) c0.

Lemma csv_bound_same (w' : world) :
  self w' = self w → files w' = files w → csv_bound f w'.
Proof using Hname Htype Hfile Htable.
  intros Hs Hf. unfold csv_bound. rewrite Hs, Hf. split_and!; [done..|]. by exists c0.
Qed.

Lemma csv_bound_rewritten (w' : world) (students : list Csv.row) text e :
  filename (self w') = Some f → file_type (self w') = Some ".csv" →
  Csv.writerows (headers (self w')) students = (text, e) →
  files w' !! f = Some (Text (Csv.writeheader (headers (self w')) +:+ text)) →
  csv_bound f w'.
Proof.
  intros ? ? Hw Hf. split_and!; [done..|]. eexists. split; [done|].
  by eapply writerows_table.
Qed.

(** Closes the cases of a method: nothing was written, or the file was
    rewritten by [writerows]. *)
Ltac csv_case :=
  first [ by apply csv_bound_same
        | eapply csv_bound_rewritten; simpl;
          [ done | done | eassumption | apply lookup_insert_eq ] ].

Lemma add_student_csv (student_data : record) :
  csv_bound f (add_student student_data w).2.
Proof using Hname Htype Hfile Htable.
  unfold add_student, is_csv. run_prims.
  destruct (not_filename (self w)); [by apply csv_bound_same|].
  destruct (validate_student_data _ _) as [e|b]; simpl; [by apply csv_bound_same|].
  rewrite Htype, Hname. simpl. rewrite Hfile. simpl.
  destruct (Csv.dict_to_list _ _) as [e|l] eqn:Hl; simpl; [by apply csv_bound_same|].
  rewrite Hfile. simpl. split_and!; [done..|].
  eexists. split; [apply lookup_insert_eq|].
  destruct Htable as (rows & Htext & Hlen). exists (rows ++ [l]). split.
  - simpl. rewrite Htext, fmap_app, concat_text_app. simpl.
    by rewrite append_nil_r, append_assoc.
  - intros row [?|Hrow%list_elem_of_singleton]%elem_of_app; [by apply Hlen|].
    subst row. by eapply dict_to_list_length.
Qed.

Ltac known := repeat (progress (simpl; rewrite ?Hname, ?Hfile)).

Lemma update_student_csv (student_id : string) (updated_data : record) :
  csv_bound f (update_student student_id updated_data w).2.
Proof using Hname Htype Hfile Htable.
  unfold update_student, is_csv, read_csv_file, rewrite_csv. run_prims.
  rewrite (bool_decide_eq_true_2 (file_type (self w) = Some ".csv")) by done. known.
  destruct (update_csv_rows _ _ _) as [e|[students updated]]; simpl; [csv_case|].
  destruct updated; simpl; [|csv_case].
  destruct (Csv.writerows _ students) as [text e] eqn:Hw. known.
  destruct e; simpl; csv_case.
Qed.

Lemma delete_student_csv (student_id : string) :
  csv_bound f (delete_student student_id w).2.
Proof using Hname Htype Hfile Htable.
  unfold delete_student, read_csv_file, rewrite_csv. run_prims. known.
  destruct (delete_rows _ _) as [e|[students deleted]]; simpl; [csv_case|].
  destruct deleted; simpl; [|csv_case].
  destruct (Csv.writerows _ students) as [text e] eqn:Hw. known.
  destruct e; simpl; csv_case.
Qed.

Lemma add_column_csv (column_name : string) :
  csv_bound f (add_column column_name w).2.
Proof using Hname Htype Hfile Htable.
  unfold add_column, is_csv, read_csv_file, rewrite_csv. run_prims.
  destruct (bool_decide (Py.lower column_name ∈ _)); simpl; [csv_case|].
  rewrite (bool_decide_eq_true_2 (file_type (self w) = Some ".csv")) by done. known.
  destruct (Csv.writerows _ _) as [text e] eqn:Hw. known.
  destruct e; simpl; csv_case.
Qed.

Lemma remove_column_csv (column_name : string) :
  csv_bound f (remove_column column_name w).2.
Proof using Hname Htype Hfile Htable.
  unfold remove_column, read_csv_file, rewrite_csv. run_prims.
  destruct (bool_decide (column_name ∈ _)); simpl; [|csv_case].
  destruct (bool_decide (column_name = "id")); simpl; [csv_case|]. known.
  destruct (mapM _ _) as [e|students]; simpl; [csv_case|].
  destruct (Csv.writerows _ students) as [text e] eqn:Hw. known.
  destruct e; simpl; csv_case.
Qed.

(** Every call but [set_file_path] leaves a CSV store on a file of its
    schema, also when it raises. *)
Lemma csv_store_table (c : call) :
  (∀ file_path, c ≠ SetFilePath file_path) →
  csv_bound f (run_call c w).2.
Proof using Hname Htype Hfile Htable.
  intros Hc. destruct c; simpl.
  - by destruct (Hc file_path).
  - apply add_student_csv.
  - by apply csv_bound_same; apply (views_keep w ViewAllStudents).
  - by apply csv_bound_same; apply (views_keep w (ViewSpecificColumns columns)).
  - apply update_student_csv.
  - apply delete_student_csv.
  - apply add_column_csv.
  - apply remove_column_csv.
  - by apply csv_bound_same; apply (views_keep w (SearchStudents search_criteria)).
Qed.

End csv.

Lemma view_all_students_json_witness :
  (view_all_students (json_store [ann; bob])).1 = inr ().
Proof.
  destruct (view_all_students_json (json_store [ann; bob]) students_json [ann; bob]
              eq_refl eq_refl eq_refl) as (_ & Hok & _); [done | done |].
  apply Hok. intros r h Hr Hh. refine (bool_decide_unpack _ _).
  repeat (apply elem_of_cons in Hr as [->|Hr]; [|]);
    [..|by apply elem_of_nil in Hr];
    repeat (apply elem_of_cons in Hh as [->|Hh]; [by vm_compute|]);
    by apply elem_of_nil in Hh.
Defined.


(** C9, as stated, fails: a JSON file whose object lacks grade and has
    the key nickname loads as that very object, and [view_all_students]
    raises [KeyError]. *)
Lemma json_load_not_aligned :
  let w := edited_session in
  read_json_file w = (inr [edited], w) ∧
  Dict.get "nickname" edited = Some (VStr "E") ∧ ("nickname" ∉ headers (self w)) ∧
  Dict.get "grade" edited = None ∧ "grade" ∈ headers (self w) ∧
  view_all_students w = (inl (KeyError "grade"), w).
Proof.
  split_and!; try reflexivity.
  - refine (bool_decide_unpack _ _). by vm_compute.
  - refine (bool_decide_unpack _ _). by vm_compute.
Qed.

(** C4, as the code has it. After any call but [set_file_path], a
    store on a CSV file of its schema is on a CSV file of its schema: the
    header row, then rows with one field for each column. On a JSON store
    [update_student] never changes the schema, gives every record whose id
    is the target all the keys of the patch, columns or not, and leaves
    the other records alone; and records that conform to the schema still
    do after any call but [set_file_path], [delete_student] and
    [remove_column], given a record or patch with no key from outside the
    schema. *)
Theorem store_schema (w : world) (f : string) :
  filename (self w) = Some f →
  (∀ c0 c,
     file_type (self w) = Some ".csv" → files w !! f = Some c0 →
     csv_table (headers (self w)) c0 →
     (∀ file_path, c ≠ SetFilePath file_path) →
     csv_bound f (run_call c w).2) ∧
  (∀ data,
     file_type (self w) = Some ".json" → files w !! f = Some (JsonDoc data) →
     (∀ student_id updated_data,
        (∀ r, r ∈ data → is_Some (Dict.get "id" r)) →
        let w' := (update_student student_id updated_data w).2 in
        (update_student student_id updated_data w).1 = inr () ∧
        self w' = self w ∧
        files w' = <[f := JsonDoc (patched student_id updated_data <$> data)]> (files w) ∧
        (∀ r k, k ∈ Dict.keys (patched student_id updated_data r) ↔
           k ∈ Dict.keys r ∨
           (Dict.get "id" r = Some (VStr student_id) ∧ k ∈ Dict.keys updated_data))) ∧
     (∀ c,
        (∀ r, r ∈ data → conforms (headers (self w)) r) →
        within_schema (headers (self w)) c →
        let w' := (run_call c w).2 in
        filename (self w') = Some f ∧ file_type (self w') = Some ".json" ∧
        ∃ data', files w' !! f = Some (JsonDoc data') ∧
                 ∀ r, r ∈ data' → conforms (headers (self w')) r)).
Proof.
  intros Hname. split.
  - intros c0 c Htype Hfile Htable Hc. by eapply csv_store_table.
  - intros data Htype Hfile. by apply json_records_conform.
Qed.

Lemma store_schema_witness :
  csv_bound students_csv (run_call (DeleteStudent "1") (csv_store [ann; bob])).2 ∧
  files (update_student "1" [("grade", VStr "B")] (json_store [ann; bob])).2 =
    <[students_json := JsonDoc (patched "1" [("grade", VStr "B")] <$> [ann; bob])]>
      (files (json_store [ann; bob])) ∧
  ∃ data', files (run_call (AddColumn "email") (json_store [ann; bob])).2 !! students_json
             = Some (JsonDoc data') ∧
           ∀ r, r ∈ data' → conforms (headers init ++ ["email"]) r.
Proof.
  split.
  - destruct (store_schema (csv_store [ann; bob]) students_csv eq_refl) as [Hcsv _].
    eapply (Hcsv _ (DeleteStudent "1") eq_refl eq_refl); [|done].
    exists ((λ r, (Py.str <$> r.*2)) <$> [ann; bob]).
    split; [reflexivity|].
    intros row Hrow.
    repeat (apply elem_of_cons in Hrow as [->|Hrow]; [reflexivity|]).
    by apply elem_of_nil in Hrow.
  - destruct (store_schema (json_store [ann; bob]) students_json eq_refl) as [_ Hjson].
    destruct (Hjson [ann; bob] eq_refl eq_refl) as [Hupdate Hinv]. split.
    + apply (Hupdate "1" [("grade", VStr "B")]).
      intros r Hr. refine (bool_decide_unpack _ _).
      repeat (apply elem_of_cons in Hr as [->|Hr]; [by vm_compute|]).
      by apply elem_of_nil in Hr.
    + apply (Hinv (AddColumn "email")); [|exact I].
      intros r Hr k.
      repeat (apply elem_of_cons in Hr as [->|Hr];
              [unfold conforms; simpl; rewrite !elem_of_cons, !elem_of_nil; tauto|]).
      by apply elem_of_nil in Hr.
Defined.

(** C4, as stated, fails: a patch with the key nickname, which is not a
    column, leaves that key in the stored record. *)
Lemma update_student_adds_key :
  let w := json_session [ann; bob] in
  let w' := (update_student "1" [("nickname", VStr "Annie")] w).2 in
  read_json_file w' = (inr [ann ++ [("nickname", VStr "Annie")]; bob], w') ∧
  headers (self w') = headers (self w) ∧
  ¬ conforms (headers (self w')) (ann ++ [("nickname", VStr "Annie")]).
Proof.
  split_and!; try reflexivity.
  intros H. destruct (H "nickname") as [Hin _]. revert Hin.
  intros Hin. apply (bool_decide_unpack ("nickname" ∉ headers init)); [by vm_compute|].
  apply Hin. refine (bool_decide_unpack _ _). by vm_compute.
Qed.

(** ** [delete_student], whatever the file holds *)

Section delete.

(** The loop keeps the rows whose id is not the target, in order. *)
Lemma delete_rows_spec (student_id : string) (rows : list Csv.row) :
  (∀ r, r ∈ rows → is_Some (Dict.get "id" (Csv.cells r))) →
  delete_rows student_id rows =
    inr (filter (λ r, Dict.get "id" (Csv.cells r) ≠ Some (VStr student_id)) rows,
         bool_decide (Exists (λ r, Dict.get "id" (Csv.cells r) = Some (VStr student_id)) rows)).
Proof.
  induction rows as [|r rows IH]; intros Hid; [done|].
  destruct (Hid r) as [v Hv]; [by left|]. simpl.
  rewrite IH by (intros; apply Hid; by right). unfold Dict.getitem. rewrite Hv. simpl.
  rewrite filter_cons. destruct (decide (v = VStr student_id)) as [->|Hne].
  - rewrite (bool_decide_eq_true_2 (VStr student_id = VStr student_id)) by done.
    rewrite decide_False by (intros H; by apply H). simpl.
    f_equal. f_equal. symmetry. apply bool_decide_eq_true_2. by left.
  - rewrite (bool_decide_eq_false_2 (v = VStr student_id)) by done.
    rewrite decide_True by congruence. simpl. f_equal. f_equal.
    apply bool_decide_ext. rewrite Exists_cons. split; [tauto|].
    intros [?|?]; [congruence | done].
Qed.

Variables (w : world) (f : string) (c : file_content).
Hypothesis Hname : filename (self w) = Some f.
Hypothesis Hfile : files w !! f = Some c.

(** With the file read as CSV, whatever its type: when no row has the
    id, nothing is written; otherwise the file is rewritten with the
    header and the other rows, every row with the id gone. *)
Lemma delete_student_rows (student_id : string) :
  let rows := Csv.DictReader (text_of c) in
  let kept := filter (λ r, Dict.get "id" (Csv.cells r) ≠ Some (VStr student_id)) rows in
  (∀ r, r ∈ rows → is_Some (Dict.get "id" (Csv.cells r))) →
  delete_student student_id w =
    if bool_decide (Exists (λ r, Dict.get "id" (Csv.cells r) = Some (VStr student_id)) rows)
    then
      let '(text, e) := Csv.writerows (headers (self w)) kept in
      let w' := {| self := self w;
                   files := <[f := Text (Csv.writeheader (headers (self w)) +:+ text)]>
                              (files w);
                   cwd := cwd w; stdout := stdout w |} in
      match e with
      | Some e => (inl e, w')
      | None => (inr (), printed w' [Print "Student deleted successfully!"])
      end
    else (inr (), printed w [Print "Student not found!"]).
Proof using Hname Hfile.
  intros rows kept Hid. unfold delete_student. run. rewrite Hname, Hfile. simpl.
  fold rows. rewrite (delete_rows_spec _ _ Hid). simpl. fold kept.
  case_bool_decide; simpl; [|done].
  by destruct (Csv.writerows _ kept) as [text [e|]].
Qed.

End delete.

(** ** A JSON file read as CSV *)

Section misread.

(** The rows already read stay. *)
Lemma run_rows (s : string) (p : Csv.parser) :
  ∃ more, Csv.finish (Csv.run p s) = rev (Csv.rows p) ++ more.
Proof.
  revert p. induction s as [|ch s IH]; intros p; simpl.
  - unfold Csv.finish. destruct (Csv.st p); simpl; eauto using app_nil_r.
    all: by eexists [_].
  - destruct (IH (Csv.step p ch)) as [more ->].
    unfold Csv.step, Csv.start_field.
    destruct (Csv.st p); repeat case_decide; simpl; eauto.
    all: rewrite <- app_assoc; eauto.
Qed.

(** A record that has begun ends up in the result, with a field. *)
Lemma run_pending (s : string) (p : Csv.parser) :
  Csv.st p ≠ Csv.START_RECORD →
  ∃ row more, row ≠ [] ∧ Csv.finish (Csv.run p s) = rev (Csv.rows p) ++ row :: more.
Proof.
  revert p. induction s as [|ch s IH]; intros p Hst; simpl.
  - exists (rev (String.rev (Csv.field p) :: Csv.fields p)), [].
    split; [by intros ?%(f_equal length); rewrite length_rev in *|].
    unfold Csv.finish. by destruct (Csv.st p).
  - assert (Hend : ∀ q, Csv.rows q = Csv.rows p →
      ∃ row more, row ≠ [] ∧
        Csv.finish (Csv.run (Csv.end_record (Csv.save_field Csv.START_RECORD q)) s) =
        rev (Csv.rows p) ++ row :: more).
    { intros q Hq. destruct (run_rows s (Csv.end_record (Csv.save_field Csv.START_RECORD q)))
        as [more ->]. simpl. rewrite Hq, <- app_assoc. simpl.
      eexists _, more. split; [|done].
      intros ?%(f_equal length). rewrite length_app in *. simpl in *. lia. }
    unfold Csv.step, Csv.start_field.
    destruct (Csv.st p) eqn:Hp; [done|..]; repeat case_decide;
      first [ by apply Hend
            | match goal with
              | |- context [Csv.run ?q s] =>
                  destruct (IH q) as (row & more & ? & ->); [done|]; by eexists _, _
              end ].
Qed.

(** The text of a non-empty document begins with a bracket on a line
    of its own, then the brace of the first object. *)
Lemma dumps_prefix (r : record) (data : list record) :
  ∃ tail, Json.dumps (r :: data) =
    String "[" (String Csv.LF (String " " (String " " (String "{" tail)))).
Proof. destruct r, data; by eexists. Qed.

(** Read as CSV, a non-empty document has [ for its header and at least
    one row, and no row has an id. *)
Lemma DictReader_json (r : record) (data : list record) :
  ∃ row rows, Csv.DictReader (Json.dumps (r :: data)) = row :: rows ∧
              Dict.get "id" (Csv.cells row) = None.
Proof.
  destruct (dumps_prefix r data) as [tail ->].
  unfold Csv.DictReader, Csv.reader.
  change (Csv.universal_newlines (String "[" (String Csv.LF (String " "
            (String " " (String "{" tail))))))
    with (String "[" (String Csv.LF (String " " (String " " (String "{"
            (Csv.universal_newlines tail)))))).
  set (p := {| Csv.st := Csv.IN_FIELD; Csv.field := "{  "; Csv.fields := [];
               Csv.rows := [["["]] |}).
  change (Csv.run _ _) with (Csv.run p (Csv.universal_newlines tail)).
  destruct (run_pending (Csv.universal_newlines tail) p) as (row & more & Hrow & ->);
    [done|]. simpl.
  rewrite filter_cons, decide_True by done. simpl.
  eexists _, _. split; [done|].
  destruct row as [|x row]; [done|]. unfold Csv.to_dict. simpl.
  by destruct row.
Qed.

(** On a file that holds a non-empty JSON document, [delete_student]
    raises [KeyError] and changes nothing. *)
Lemma delete_on_json_document (w : world) (f : string) (data : list record)
    (student_id : string) :
  filename (self w) = Some f → files w !! f = Some (JsonDoc data) → data ≠ [] →
  delete_student student_id w = (inl (KeyError "id"), w).
Proof.
  intros Hname Hfile Hne. destruct data as [|r data]; [done|].
  unfold delete_student. run. rewrite Hname, Hfile.
  change (text_of (JsonDoc (r :: data))) with (Json.dumps (r :: data)).
  destruct (DictReader_json r data) as (row & rows & -> & Hrow).
  simpl. unfold Dict.getitem. by rewrite Hrow.
Qed.

End misread.

(** ** The two formats *)

(** The sessions are states of a store. *)
Lemma after_reachable (calls : list call) (w : world) :
  reachable w → reachable (after calls w).
Proof.
  revert w. induction calls as [|c calls IH]; intros w Hw; [done|].
  apply IH. by apply reachable_call.
Qed.

(** C2. The same two records added to a CSV file and to a JSON file
    load as the same list; [delete_student] and [remove_column] then
    work on the CSV file and raise [KeyError] on the JSON file, which
    they read as CSV text. *)
Theorem delete_remove_json_differ :
  let js := json_session [ann; bob] in
  let cs := csv_session [ann; bob] in
  load_students js = (inr [ann; bob], js) ∧
  load_students cs = (inr [ann; bob], cs) ∧
  delete_student "1" js = (inl (KeyError "id"), js) ∧
  (delete_student "1" cs).1 = inr () ∧
  (load_students (delete_student "1" cs).2).1 = inr [bob] ∧
  remove_column "age" js = (inl (KeyError "age"), js) ∧
  (remove_column "age" cs).1 = inr ().
Proof. split_and!; by vm_compute. Qed.

(** C3. On a JSON store holding two records with id 1, [delete_student
    "1"] removes neither and does not report not-found either: it raises
    [KeyError]. On the CSV store with the same records both are removed
    and the third record stays. *)
Theorem delete_student_json_duplicates :
  let js := json_session [ann; bob; ann_again] in
  let cs := csv_session [ann; bob; ann_again] in
  delete_student "1" js = (inl (KeyError "id"), js) ∧
  read_json_file js = (inr [ann; bob; ann_again], js) ∧
  (delete_student "1" cs).1 = inr () ∧
  (load_students (delete_student "1" cs).2).1 = inr [bob].
Proof. split_and!; by vm_compute. Qed.

(** The sample stores are the sessions, up to what was printed. *)
Lemma sessions_stores :
  json_session [ann; bob] =
    printed (json_store [ann; bob])
      [Print "Student added successfully!"; Print "Student added successfully!"] ∧
  csv_session [ann; bob] =
    printed (csv_store [ann; bob])
      [Print "Student added successfully!"; Print "Student added successfully!"].
Proof. split; by vm_compute. Qed.

(** A carriage return in a value comes back from a CSV file as a line
    feed (the file is read with universal newlines) and from a JSON
    file as it was. *)
Lemma csv_load_translates_CR :
  (load_students (json_session [cara])).1 = inr [cara] ∧
  (load_students (csv_session [cara])).1 = inr [cara_read].
Proof. split; by vm_compute. Qed.

(** * Further properties *)

Section csv_text.

Import Csv.

Lemma rev_app_append (s t : string) : String.rev_app s t = String.rev s +:+ t.
Proof.
  unfold String.rev. revert t. induction s as [|c s IH]; intros t; simpl; [done|].
  rewrite (IH (String c t)), (IH (String c "")), append_assoc. done.
Qed.

Lemma rev_rev_app (s acc : string) :
  String.rev (String.rev_app s acc) = String.rev acc +:+ s.
Proof.
  revert acc. induction s as [|c s IH]; intros acc; simpl.
  - by rewrite append_nil_r.
  - rewrite IH. unfold String.rev. simpl. rewrite (rev_app_append acc).
    by rewrite append_assoc.
Qed.

(** Reading one character that is not a carriage return. *)
Lemma un_cons c s : c ≠ CR → universal_newlines (String c s) = String c (universal_newlines s).
Proof. intros H. simpl. by rewrite decide_False. Qed.

Lemma un_CRLF s : universal_newlines (String CR (String LF s)) = String LF (universal_newlines s).
Proof. done. Qed.

Lemma un_CR c s : c ≠ LF →
  universal_newlines (String CR (String c s)) = String LF (universal_newlines (String c s)).
Proof.
  intros H. cbn [universal_newlines]. rewrite decide_True by done.
  by rewrite (decide_False (P:=c = LF)).
Qed.

Lemma string_ind2 (P : string → Prop) :
  P "" → (∀ c, P (String c "")) →
  (∀ c1 c2 s, P s → P (String c2 s) → P (String c1 (String c2 s))) →
  ∀ s, P s.
Proof.
  intros H0 H1 H2 s.
  assert (P s ∧ ∀ c, P (String c s)) as [? _]; [|done].
  induction s as [|c s [IH1 IH2]]; [by split|]. split; [apply IH2|].
  intros c'. by apply H2.
Qed.

Lemma double_quotes_cons c s :
  double_quotes (String c s) =
  String c (if decide (c = QUOTE) then String QUOTE (double_quotes s) else double_quotes s).
Proof. simpl. by case_decide; subst. Qed.


Lemma run_cons p c s : run p (String c s) = run (step p c) s.
Proof. done. Qed.

Lemma step_in_quoted acc fs rs c : c ≠ QUOTE →
  step (parser_at IN_QUOTED_FIELD acc fs rs) c = parser_at IN_QUOTED_FIELD (String c acc) fs rs.
Proof. intros H. unfold step. simpl. by rewrite decide_False. Qed.

Lemma step_in_quoted_quote acc fs rs :
  step (parser_at IN_QUOTED_FIELD acc fs rs) QUOTE = parser_at QUOTE_IN_QUOTED_FIELD acc fs rs.
Proof. done. Qed.

Lemma step_quote_quote acc fs rs :
  step (parser_at QUOTE_IN_QUOTED_FIELD acc fs rs) QUOTE =
  parser_at IN_QUOTED_FIELD (String QUOTE acc) fs rs.
Proof. done. Qed.

(** The automaton inside a quoted field: the field is read back with
    its quotes undoubled and its line ends as line feeds. *)
Lemma run_quoted_body (g acc : string) (fs : list string) (rs : list (list string))
    (tail : string) :
  run (parser_at IN_QUOTED_FIELD acc fs rs)
      (universal_newlines (double_quotes g +:+ String QUOTE tail)) =
  run (parser_at QUOTE_IN_QUOTED_FIELD (String.rev_app (universal_newlines g) acc) fs rs)
      (universal_newlines tail).
Proof.
  revert acc. induction g as [|c|c1 c2 g IH IH2] using string_ind2; intros acc.
  - change (double_quotes "" +:+ String QUOTE tail) with (String QUOTE tail).
    by rewrite un_cons, run_cons, step_in_quoted_quote.
  - rewrite double_quotes_cons. change (double_quotes "") with "".
    destruct (decide (c = QUOTE)) as [->|Hq].
    + change (String QUOTE (String QUOTE "") +:+ String QUOTE tail)
        with (String QUOTE (String QUOTE (String QUOTE tail))).
      rewrite !un_cons by done.
      by rewrite run_cons, step_in_quoted_quote, run_cons, step_quote_quote,
        run_cons, step_in_quoted_quote.
    + destruct (decide (c = CR)) as [->|Hc].
      * change (String CR "" +:+ String QUOTE tail) with (String CR (String QUOTE tail)).
        rewrite un_CR, un_cons by done.
        by rewrite run_cons, step_in_quoted, run_cons, step_in_quoted_quote.
      * change (String c "" +:+ String QUOTE tail) with (String c (String QUOTE tail)).
        rewrite !un_cons by done.
        by rewrite run_cons, step_in_quoted, run_cons, step_in_quoted_quote.
  - rewrite double_quotes_cons.
    destruct (decide (c1 = QUOTE)) as [->|Hq].
    + rewrite !app_cons, !(un_cons QUOTE) by done.
      rewrite run_cons, step_in_quoted_quote, run_cons, step_quote_quote.
      by rewrite IH2.
    + rewrite app_cons. destruct (decide (c1 = CR)) as [->|Hc].
      * destruct (decide (c2 = LF)) as [->|Hl].
        -- rewrite double_quotes_cons, app_cons, decide_False by done.
           rewrite !un_CRLF. rewrite run_cons, step_in_quoted by done. by rewrite IH.
        -- rewrite (un_CR c2) by done.
           assert (∃ x, double_quotes (String c2 g) +:+ String QUOTE tail = String c2 x)
             as [x Hx] by (rewrite double_quotes_cons, app_cons; by eexists).
           rewrite Hx, un_CR, <- Hx by done.
           rewrite run_cons, step_in_quoted by done. by rewrite IH2.
      * rewrite !(un_cons c1) by done.
        rewrite run_cons, step_in_quoted by done. by rewrite IH2.
Qed.

Lemma field_text_cases f :
  (any_char special f = true ∧ field_text f = quoted_text f) ∨
  (any_char special f = false ∧ field_text f = f).
Proof. unfold field_text, quoted_text. destruct (any_char special f); auto. Qed.

Lemma quoted_text_app f x :
  quoted_text f +:+ x = String QUOTE (double_quotes f +:+ String QUOTE x).
Proof. unfold quoted_text. by rewrite app_cons, append_assoc. Qed.

Lemma rev_rev_app_nil s : String.rev (String.rev_app s "") = s.
Proof. by rewrite rev_rev_app. Qed.

Lemma step_start_quote s fs rs : at_start s →
  step (parser_at s "" fs rs) QUOTE = parser_at IN_QUOTED_FIELD "" fs rs.
Proof. by intros [-> | ->]. Qed.

Lemma step_start_comma s fs rs : at_start s →
  step (parser_at s "" fs rs) COMMA = parser_at START_FIELD "" ("" :: fs) rs.
Proof. by intros [-> | ->]. Qed.

Lemma special_false c : special c = false → c ≠ COMMA ∧ c ≠ QUOTE ∧ c ≠ CR ∧ c ≠ LF.
Proof.
  unfold special. rewrite !orb_false_iff, !bool_decide_eq_false. tauto.
Qed.

Lemma step_start_plain s fs rs c : at_start s → special c = false →
  step (parser_at s "" fs rs) c = parser_at IN_FIELD (String c "") fs rs.
Proof.
  intros Hs (? & ? & ? & ?)%special_false.
  destruct Hs as [-> | ->]; unfold step, start_field; simpl;
    by rewrite !decide_False by done.
Qed.

Lemma step_field_plain acc fs rs c : special c = false →
  step (parser_at IN_FIELD acc fs rs) c = parser_at IN_FIELD (String c acc) fs rs.
Proof.
  intros (? & ? & ? & ?)%special_false. unfold step; simpl.
  by rewrite !decide_False by done.
Qed.

Lemma un_plain g tail : any_char special g = false →
  universal_newlines (g +:+ tail) = g +:+ universal_newlines tail.
Proof.
  induction g as [|c g IH]; [done|]. intros H. simpl in H.
  apply orb_false_iff in H as [Hc Hg].
  apply special_false in Hc as (? & ? & ? & ?).
  rewrite app_cons, un_cons, IH by done. done.
Qed.

Lemma un_plain_id g : any_char special g = false → universal_newlines g = g.
Proof.
  intros H. rewrite <- (append_nil_r g) at 1. by rewrite un_plain, append_nil_r.
Qed.

Lemma run_plain g acc fs rs rest : any_char special g = false →
  run (parser_at IN_FIELD acc fs rs) (g +:+ rest) =
  run (parser_at IN_FIELD (String.rev_app g acc) fs rs) rest.
Proof.
  revert acc. induction g as [|c g IH]; intros acc; [done|].
  intros H. simpl in H. apply orb_false_iff in H as [Hc Hg].
  by rewrite app_cons, run_cons, step_field_plain, IH.
Qed.

(** A field and the comma after it. *)
Lemma run_field_comma s f fs rs tail : at_start s →
  run (parser_at s "" fs rs) (universal_newlines (field_text f +:+ String COMMA tail)) =
  run (parser_at START_FIELD "" (universal_newlines f :: fs) rs) (universal_newlines tail).
Proof.
  intros Hs. destruct (field_text_cases f) as [[_ ->]|[Hp ->]].
  - rewrite quoted_text_app, un_cons, run_cons, step_start_quote by done.
    rewrite run_quoted_body, un_cons, run_cons by done.
    unfold step, save_field. simpl. by rewrite rev_rev_app_nil.
  - rewrite un_plain, (un_plain_id f) by done.
    destruct f as [|c f].
    + change ("" +:+ ?x) with x. rewrite un_cons, run_cons, step_start_comma by done. done.
    + simpl in Hp. apply orb_false_iff in Hp as [Hc Hf].
      rewrite app_cons, run_cons, step_start_plain, run_plain by done.
      rewrite un_cons, run_cons by done. unfold step, save_field; simpl.
      by rewrite rev_rev_app.
Qed.

(** The last field of a row and the line end after it. *)
Lemma run_field_end s f fs rs tail : at_start s →
  s = START_FIELD ∨ field_text f ≠ "" →
  run (parser_at s "" fs rs)
      (universal_newlines (field_text f +:+ String CR (String LF tail))) =
  run (parser_at START_RECORD "" [] (rev (universal_newlines f :: fs) :: rs))
      (universal_newlines tail).
Proof.
  intros Hs Hne. destruct (field_text_cases f) as [[_ Hq]|[Hp Hq]]; rewrite Hq in *.
  - rewrite quoted_text_app, un_cons, run_cons, step_start_quote by done.
    rewrite run_quoted_body, un_CRLF, run_cons.
    unfold step, save_field, end_record. simpl. by rewrite rev_rev_app_nil.
  - rewrite un_plain, (un_plain_id f) by done.
    destruct f as [|c f].
    + destruct Hne as [->|?]; [|done].
      change ("" +:+ ?x) with x. by rewrite un_CRLF, run_cons.
    + simpl in Hp. apply orb_false_iff in Hp as [Hc Hf].
      rewrite app_cons, run_cons, step_start_plain, run_plain by done.
      rewrite un_CRLF, run_cons. unfold step, save_field, end_record; simpl.
      by rewrite rev_rev_app.
Qed.

Lemma field_text_nonempty f : f ≠ "" → field_text f ≠ "".
Proof.
  intros Hf. destruct (field_text_cases f) as [[_ ->]|[_ ->]]; done.
Qed.

(** The fields of a row from the second on. *)
Lemma run_fields (row : list string) s fs rs tail : at_start s →
  row ≠ [] → s = START_FIELD ∨ row ≠ [""] →
  run (parser_at s "" fs rs)
      (universal_newlines (Path.join "," (field_text <$> row)
                           +:+ String CR (String LF tail))) =
  run (parser_at START_RECORD "" []
         (rev (rev (universal_newlines <$> row) ++ fs) :: rs))
      (universal_newlines tail).
Proof.
  revert s fs. induction row as [|f row IH]; intros s fs Hs Hne Hsingle; [done|].
  destruct row as [|f' row].
  - simpl. rewrite run_field_end; [done | done |].
    destruct Hsingle as [->|Hs1]; [by left|]. right. apply field_text_nonempty.
    by intros ->.
  - change (Path.join "," (field_text <$> f :: f' :: row))
      with (field_text f +:+ "," +:+ Path.join "," (field_text <$> f' :: row)).
    rewrite !append_assoc.
    change ("," +:+ ?x) with (String COMMA x).
    rewrite run_field_comma by done.
    rewrite IH; [|by right|done|by left].
    simpl. by rewrite <- !app_assoc.
Qed.

(** One row as [writerow] wrote it. *)
Lemma run_writerow (row : list string) rs tail :
  run (parser_at START_RECORD "" [] rs) (universal_newlines (writerow row +:+ tail)) =
  run (parser_at START_RECORD "" [] ((universal_newlines <$> row) :: rs))
      (universal_newlines tail).
Proof.
  unfold writerow. rewrite append_assoc.
  change (String CR (String LF "") +:+ tail) with (String CR (String LF tail)).
  destruct (decide (row = [""])) as [->|Hrow].
  - change (String QUOTE (String QUOTE "")) with (quoted_text "").
    rewrite quoted_text_app, un_cons, run_cons by done.
    rewrite step_start_quote by (by left).
    rewrite run_quoted_body, un_CRLF, run_cons. done.
  - assert (match row with [EmptyString] => String QUOTE (String QUOTE "")
             | _ => Path.join "," (field_text <$> row) end
            = Path.join "," (field_text <$> row)) as ->.
    { destruct row as [|[|] [|]]; done. }
    destruct row as [|f row].
    + change (Path.join "," (field_text <$> []) +:+ ?x) with x.
      by rewrite un_CRLF, run_cons.
    + rewrite run_fields; [|by left|done|by right].
      by rewrite app_nil_r, rev_involutive.
Qed.

(** All the rows. *)
Lemma run_writerows (rows : list (list string)) rs :
  run (parser_at START_RECORD "" [] rs)
      (universal_newlines (concat_text (writerow <$> rows))) =
  parser_at START_RECORD "" [] (rev (read_back <$> rows) ++ rs).
Proof.
  revert rs. induction rows as [|row rows IH]; intros rs; [done|].
  simpl. rewrite run_writerow, IH. by rewrite <- app_assoc.
Qed.

(** The reader gives back the rows the writer wrote, line ends in the
    fields turned into line feeds. *)
Lemma reader_writer (rows : list (list string)) :
  reader (concat_text (writerow <$> rows)) = read_back <$> rows.
Proof.
  unfold reader. rewrite run_writerows. unfold finish. simpl.
  by rewrite app_nil_r, rev_involutive.
Qed.

(** Reading is idempotent: what was read has no carriage return. *)
Lemma un_idemp (s : string) : universal_newlines (universal_newlines s) = universal_newlines s.
Proof.
  induction s as [|c|c1 c2 s IH IH2] using string_ind2; [done|..].
  - destruct (decide (c = CR)) as [->|H]; [done|]. by rewrite !un_cons.
  - destruct (decide (c1 = CR)) as [->|H1].
    + destruct (decide (c2 = LF)) as [->|H2].
      * by rewrite un_CRLF, (un_cons LF), IH.
      * by rewrite un_CR, (un_cons LF), IH2.
    + by rewrite !(un_cons c1), IH2.
Qed.

Lemma read_back_idemp (row : list string) : read_back (read_back row) = read_back row.
Proof.
  unfold read_back. rewrite <- list_fmap_compose. apply list_fmap_ext.
  intros _ x _. apply un_idemp.
Qed.

Lemma read_back_length (row : list string) : length (read_back row) = length row.
Proof. apply length_fmap. Qed.

(** [d[k] = v] for a new key appends. *)
Lemma set_fresh {V} k (v : V) (d : list (string * V)) :
  k ∉ Dict.keys d → Dict.set k v d = d ++ [(k, v)].
Proof.
  unfold Dict.keys. induction d as [|[k0 v0] d IH]; simpl; [done|].
  rewrite not_elem_of_cons. intros [Hne Hd].
  rewrite decide_False by done. by rewrite IH.
Qed.

Lemma fold_set_fresh {A V} (g : A → V) (ks : list string) (vs : list A)
    (d : list (string * V)) :
  NoDup ks → (∀ k, k ∈ ks → k ∉ Dict.keys d) →
  fold_left (λ acc kv, Dict.set kv.1 (g kv.2) acc) (zip ks vs) d =
  d ++ zip ks (g <$> vs).
Proof.
  revert vs d. induction ks as [|k ks IH]; intros vs d Hnd Hfresh; simpl.
  - by rewrite app_nil_r.
  - destruct vs as [|v vs]; simpl; [by rewrite app_nil_r|].
    apply NoDup_cons in Hnd as [Hk Hnd].
    rewrite set_fresh by (apply Hfresh; by left).
    rewrite IH; [by rewrite <- app_assoc|done|].
    intros k' Hk'. unfold Dict.keys. rewrite fmap_app, elem_of_app. simpl.
    rewrite list_elem_of_singleton. intros [?|Heq]; [|by subst].
    by apply (Hfresh k'); [right|].
Qed.

(** A row with as many fields as the header has names becomes the record
    of its fields under those names. *)
Lemma to_dict_full (fieldnames row : list string) :
  NoDup fieldnames → length row = length fieldnames →
  to_dict fieldnames row = {| cells := csv_record fieldnames row; rest := None |}.
Proof.
  intros Hnd Hlen. unfold to_dict. rewrite Hlen, Nat.ltb_irrefl.
  rewrite drop_all. simpl. f_equal.
  rewrite (fold_set_fresh VStr); [done..|]. by intros k _ ?%elem_of_nil.
Qed.

(** The text of a header and rows, read by [DictReader]. *)
Lemma DictReader_table (fieldnames : list string) (rows : list (list string)) :
  DictReader (writeheader fieldnames +:+ concat_text (writerow <$> rows)) =
  to_dict (read_back fieldnames) <$> filter (λ r, r ≠ []) (read_back <$> rows).
Proof.
  unfold DictReader.
  change (writeheader fieldnames +:+ concat_text (writerow <$> rows))
    with (concat_text (writerow <$> fieldnames :: rows)).
  by rewrite reader_writer.
Qed.

Lemma DictReader_records (fieldnames : list string) (rows : list (list string)) :
  NoDup (read_back fieldnames) → fieldnames ≠ [] →
  (∀ row, row ∈ rows → length row = length fieldnames) →
  DictReader (writeheader fieldnames +:+ concat_text (writerow <$> rows)) =
  (λ row, {| cells := csv_record (read_back fieldnames) (read_back row); rest := None |})
    <$> rows.
Proof.
  intros Hnd Hne Hlen. rewrite DictReader_table.
  assert (filter (λ r, r ≠ []) (read_back <$> rows) = read_back <$> rows) as ->.
  { induction rows as [|row rows IH]; [done|]. rewrite fmap_cons, filter_cons.
    rewrite decide_True, IH; [done| |].
    - intros; apply Hlen; by right.
    - intros Hnil%(f_equal length). rewrite read_back_length, Hlen in Hnil by (by left).
      by destruct fieldnames. }
  rewrite <- list_fmap_compose. apply list_fmap_ext. intros i row Hrow. simpl.
  apply to_dict_full; [done|]. rewrite !read_back_length.
  apply Hlen. by eapply list_elem_of_lookup_2.
Qed.

End csv_text.

Section csv_store.

Lemma plain_schema_nonempty h : plain_schema h → h ≠ [].
Proof. intros (_ & _ & Hid) ->. by apply elem_of_nil in Hid. Qed.

(** The rows of the file, loaded. *)
Lemma csv_holds_rows (w : world) f rows :
  csv_holds w f rows → plain_schema (headers (self w)) →
  read_csv_file w = (inr (Csv.of_record <$> csv_records (headers (self w)) rows), w).
Proof.
  intros (Hname & _ & (c & Hfile & Htext) & Hlen) Hs.
  pose proof (plain_schema_nonempty _ Hs) as Hne. destruct Hs as (Hnd & Hback & Hid).
  unfold read_csv_file. run_prims. rewrite Hname, Hfile. simpl. rewrite Htext.
  rewrite DictReader_records; rewrite ?Hback; [|done..].
  unfold csv_records. by rewrite <- list_fmap_compose.
Qed.

Lemma csv_holds_load (w : world) f rows :
  csv_holds w f rows → plain_schema (headers (self w)) →
  load_students w = (inr (csv_records (headers (self w)) rows), w).
Proof.
  intros Hh Hs. pose proof (csv_holds_rows w f rows Hh Hs) as Hr.
  destruct Hh as (_ & Htype & _). unfold load_students, is_csv. run_prims.
  rewrite Htype. simpl. fold (read_csv_file w). unfold read_csv_file in Hr |- *.
  revert Hr. run_prims. intros ->. simpl.
  by rewrite <- list_fmap_compose, list_fmap_id.
Qed.

(** ** Records and the rows written for them *)

Lemma keys_csv_record (h row : list string) :
  length row = length h → Dict.keys (csv_record h row) = h.
Proof.
  intros Hlen. unfold Dict.keys, csv_record. apply fst_zip.
  rewrite length_fmap. lia.
Qed.

Lemma zip_fmap_snd {V W} (g : V → W) (d : list (string * V)) :
  zip d.*1 (g <$> d.*2) = (λ kv, (kv.1, g kv.2)) <$> d.
Proof. induction d as [|[k v] d IH]; [done|]. rewrite !fmap_cons. simpl. by f_equal. Qed.

Lemma get_other {V} k (d : list (string * V)) k0 v0 :
  k ≠ k0 → Dict.get k ((k0, v0) :: d) = Dict.get k d.
Proof. intros H. simpl. by rewrite decide_False. Qed.

(** For a record whose keys are the schema, in order, the row written
    is its values. *)
Lemma row_of_ordered (d : record) :
  NoDup (Dict.keys d) → row_of (Dict.keys d) d = cell_text <$> d.*2.
Proof.
  unfold row_of, Dict.keys. induction d as [|[k v] d IH]; [done|].
  rewrite !fmap_cons. simpl. intros [Hk Hnd]%NoDup_cons.
  rewrite decide_True by done. f_equal; try (by destruct v).
  rewrite <- IH by done. apply list_fmap_ext. intros i key Hkey.
  rewrite decide_False; [done|]. intros ->. apply Hk. by eapply list_elem_of_lookup_2.
Qed.

Lemma filter_all_in (h ks : list string) :
  (∀ k, k ∈ ks → k ∈ h) → filter (λ k, k ∉ h) ks = [].
Proof.
  induction ks as [|k ks IH]; intros H; [done|].
  rewrite filter_cons, decide_False by (intros Hk; apply Hk, H; by left).
  apply IH. intros; apply H; by right.
Qed.

Lemma dict_to_list_ok (h : list string) (r : record) :
  (∀ k, k ∈ Dict.keys r → k ∈ h) →
  Csv.dict_to_list h (Csv.of_record r) = inr (row_of h r).
Proof.
  intros H. unfold Csv.dict_to_list. simpl. by rewrite filter_all_in.
Qed.

Lemma writerows_ok (h : list string) (rs : list record) :
  (∀ r k, r ∈ rs → k ∈ Dict.keys r → k ∈ h) →
  Csv.writerows h (Csv.of_record <$> rs) =
    (concat_text (Csv.writerow <$> (row_of h <$> rs)), None).
Proof.
  induction rs as [|r rs IH]; intros H; [done|].
  rewrite fmap_cons. simpl.
  rewrite dict_to_list_ok by (intros; eapply H; [by left|done]).
  rewrite IH; [done|]. intros; eapply H; [by right|done].
Qed.

(** Written and read again, a record of the schema is [stored]. *)
Lemma csv_records_row_of (h : list string) (rs : list record) :
  NoDup h → (∀ r, r ∈ rs → Dict.keys r = h) →
  csv_records h (row_of h <$> rs) = stored <$> rs.
Proof.
  intros Hnd Hkeys. unfold csv_records. rewrite <- list_fmap_compose.
  apply list_fmap_ext. intros i r Hr. simpl.
  assert (Hk : Dict.keys r = h) by (eapply Hkeys, list_elem_of_lookup_2; done).
  rewrite <- Hk at 2. rewrite row_of_ordered by (by rewrite Hk).
  unfold csv_record, read_back, stored. rewrite <- Hk. unfold Dict.keys.
  rewrite <- (zip_fmap_snd (λ v, VStr (Csv.universal_newlines (cell_text v)))).
  f_equal. rewrite <- !list_fmap_compose. by apply list_fmap_ext.
Qed.

(** A loaded record comes back as it is. *)
Lemma stored_csv_record (h row : list string) :
  length row = length h →
  stored (csv_record h (read_back row)) = csv_record h (read_back row).
Proof.
  intros Hlen. unfold stored, csv_record, read_back.
  revert row Hlen. induction h as [|k h IH]; intros [|x row] Hlen; simpl in *; try done.
  rewrite un_idemp. f_equal. apply IH. lia.
Qed.

Lemma rows_length_row_of (h : list string) (rs : list record) row :
  row ∈ row_of h <$> rs → length row = length h.
Proof.
  intros (r & -> & _)%list_elem_of_fmap. unfold row_of. apply length_fmap.
Qed.

(** ** The methods on a CSV file of the schema *)

Lemma mapM_ext {A B} (f g : A → result B) (l : list A) :
  (∀ x, x ∈ l → f x = g x) → mapM f l = mapM g l.
Proof.
  induction l as [|x l IH]; intros H; [done|].
  rewrite !mapM_cons, (H x), IH; [done| |by left].
  intros; apply H; by right.
Qed.

Lemma table_row_csv_record (h row : list string) :
  NoDup h → length row = length h →
  table_row h (csv_record h row) = inr (VStr <$> row).
Proof.
  unfold table_row, csv_record. revert row.
  induction h as [|k h IH]; intros [|x row] Hnd Hlen; simpl in Hlen; try done.
  apply NoDup_cons in Hnd as [Hk Hnd].
  change (zip (k :: h) (VStr <$> x :: row)) with ((k, VStr x) :: zip h (VStr <$> row)).
  rewrite mapM_cons. unfold Dict.getitem at 1. simpl Dict.get. rewrite decide_True by done.
  rewrite (mapM_ext _ (Dict.getitem (zip h (VStr <$> row)))).
  - rewrite IH by (done || lia). done.
  - intros key Hkey. unfold Dict.getitem. simpl Dict.get.
    rewrite decide_False; [done|]. by intros ->.
Qed.

Lemma mapM_fmap_inr {A B} (f : A → result B) (g : A → B) (l : list A) :
  (∀ x, x ∈ l → f x = inr (g x)) → mapM f l = inr (g <$> l).
Proof.
  induction l as [|x l IH]; intros H; [done|].
  rewrite mapM_cons, (H x), IH; [done| |by left].
  intros; apply H; by right.
Qed.

Lemma table_rows_csv (h : list string) (rows : list (list string)) :
  NoDup h → (∀ row, row ∈ rows → length row = length h) →
  mapM (table_row h) (csv_records h rows) =
  inr ((λ row, VStr <$> read_back row) <$> rows).
Proof.
  intros Hnd. induction rows as [|row rows IH]; intros Hlen; [done|].
  change (csv_records h (row :: rows))
    with (csv_record h (read_back row) :: csv_records h rows).
  rewrite mapM_cons, table_row_csv_record, IH; [done| |done|].
  - intros; apply Hlen; by right.
  - rewrite read_back_length. apply Hlen; by left.
Qed.

Lemma values_csv_records (h : list string) (rows : list (list string)) :
  (∀ row, row ∈ rows → length row = length h) →
  (λ r : record, r.*2) <$> csv_records h rows =
  (λ row, VStr <$> read_back row) <$> rows.
Proof.
  intros Hlen. unfold csv_records. rewrite <- list_fmap_compose.
  apply list_fmap_ext. intros i row Hrow. simpl. unfold csv_record.
  rewrite snd_zip; [done|]. rewrite length_fmap, read_back_length, Hlen; [done|].
  by eapply list_elem_of_lookup_2.
Qed.

Lemma stored_csv_records (h : list string) (rows : list (list string)) :
  (∀ row, row ∈ rows → length row = length h) →
  stored <$> csv_records h rows = csv_records h rows.
Proof.
  intros Hlen. unfold csv_records. rewrite <- list_fmap_compose.
  apply list_fmap_ext. intros i row Hrow. simpl. apply stored_csv_record.
  by eapply Hlen, list_elem_of_lookup_2.
Qed.

Lemma keys_csv_records (h : list string) (rows : list (list string)) r :
  (∀ row, row ∈ rows → length row = length h) →
  r ∈ csv_records h rows → Dict.keys r = h.
Proof.
  intros Hlen (row & -> & Hrow)%list_elem_of_fmap.
  apply keys_csv_record. rewrite read_back_length. by apply Hlen.
Qed.

(** A store whose file was rewritten with records of its schema. *)
Lemma csv_store_written (w : world) (h : list string) (f : string)
    (rs : list record) (out : list output) :
  filename (self w) = Some f → file_type (self w) = Some ".csv" → f ≠ "" →
  plain_schema h → (∀ r, r ∈ rs → Dict.keys r = h) →
  csv_store_of (rewritten w h f (csv_text h rs) out) f (stored <$> rs).
Proof.
  intros Hname Htype Hf Hs Hkeys. split_and!; [done..|].
  exists (row_of h <$> rs). split.
  - split_and!; [done..| |].
    + eexists. split; [apply lookup_insert_eq|done].
    + intros row Hrow. by eapply rows_length_row_of.
  - simpl. apply csv_records_row_of; [apply Hs|done].
Qed.

Lemma csv_store_written_fixed (w : world) (h : list string) (f : string)
    (rs : list record) (out : list output) :
  filename (self w) = Some f → file_type (self w) = Some ".csv" → f ≠ "" →
  plain_schema h → (∀ r, r ∈ rs → Dict.keys r = h) → stored <$> rs = rs →
  csv_store_of (rewritten w h f (csv_text h rs) out) f rs.
Proof.
  intros Hname Htype Hf Hs Hkeys Hfix.
  pose proof (csv_store_written w h f rs out Hname Htype Hf Hs Hkeys) as H.
  by rewrite Hfix in H.
Qed.

(** A store whose file is as it was. *)
Lemma csv_store_kept (w w' : world) (f : string) (recs : list record) :
  csv_store_of w f recs → self w' = self w → files w' = files w →
  csv_store_of w' f recs.
Proof.
  intros (Hf & Hs & rows & Hh & Hrecs) Hself Hfiles.
  unfold csv_store_of, csv_holds in *. rewrite Hself, Hfiles. eauto.
Qed.

Lemma rewrite_csv_run (w : world) (f : string) (h : list string) (rs : list record) :
  (∀ r k, r ∈ rs → k ∈ Dict.keys r → k ∈ h) →
  rewrite_csv (Some f) h (Csv.of_record <$> rs) w =
    (inr (), {| self := self w; files := <[f := Text (csv_text h rs)]> (files w);
                cwd := cwd w; stdout := stdout w |}).
Proof.
  intros Hkeys. unfold rewrite_csv. rewrite writerows_ok by done. by run_prims.
Qed.

(** What the store holds is what the loaders return. *)
Lemma csv_store_rows (w : world) (f : string) (recs : list record) :
  csv_store_of w f recs → read_csv_file w = (inr (Csv.of_record <$> recs), w).
Proof.
  intros (Hf & Hs & rows & Hh & <-). by eapply csv_holds_rows.
Qed.

Lemma csv_store_keys (w : world) (f : string) (recs : list record) r :
  csv_store_of w f recs → r ∈ recs → Dict.keys r = headers (self w).
Proof.
  intros (Hf & Hs & rows & Hh & <-). apply keys_csv_records. apply Hh.
Qed.

Lemma csv_store_stored (w : world) (f : string) (recs : list record) :
  csv_store_of w f recs → stored <$> recs = recs.
Proof.
  intros (Hf & Hs & rows & Hh & <-). apply stored_csv_records. apply Hh.
Qed.

Lemma get_in_keys {V} k (d : list (string * V)) :
  k ∈ Dict.keys d → is_Some (Dict.get k d).
Proof. intros H%mem_keys. unfold Dict.mem in H. by apply bool_decide_eq_true in H. Qed.

Lemma csv_store_id (w : world) (f : string) (recs : list record) r :
  csv_store_of w f recs → r ∈ recs → is_Some (Dict.get "id" r).
Proof.
  intros Hst Hr. apply get_in_keys. rewrite (csv_store_keys _ _ _ _ Hst Hr).
  apply Hst.
Qed.

(** The bound file of a CSV store and what [DictReader] makes of it. *)
Lemma csv_store_file (w : world) (f : string) (recs : list record) :
  csv_store_of w f recs →
  filename (self w) = Some f ∧ file_type (self w) = Some ".csv" ∧
  ∃ c, files w !! f = Some c ∧ Csv.DictReader (text_of c) = Csv.of_record <$> recs.
Proof.
  intros (Hf & Hs & rows & (Hname & Htype & (c & Hfile & Htext) & Hlen) & <-).
  split_and!; [done..|]. exists c. split; [done|]. rewrite Htext.
  pose proof (plain_schema_nonempty _ Hs) as Hne. destruct Hs as (Hnd & Hback & Hid).
  rewrite DictReader_records; rewrite ?Hback; [|done..].
  unfold csv_records. by rewrite <- list_fmap_compose.
Qed.

(** What [readable] bounds are the fields that the reader gives for
    the file of a CSV store: none of them is over the limit of [csv]. *)
Lemma readable_fields (w : world) (f : string) (recs : list record) (c : file_content) :
  csv_store_of w f recs → readable (headers (self w)) recs →
  files w !! f = Some c →
  Forall (Forall short) (Csv.reader (text_of c)).
Proof.
  intros (Hf & Hs & rows & (Hname & Htype & (c' & Hfile & Htext) & Hlen) & <-)
         [Hh Hrecs] Hc.
  rewrite Hfile in Hc. injection Hc as <-. rewrite Htext.
  change (Csv.writeheader (headers (self w)) +:+ concat_text (Csv.writerow <$> rows))
    with (concat_text (Csv.writerow <$> headers (self w) :: rows)).
  rewrite reader_writer, fmap_cons. destruct Hs as (_ & -> & _).
  apply Forall_cons. split; [done|].
  apply Forall_fmap, Forall_forall. intros row Hrow.
  rewrite Forall_forall in Hrecs.
  specialize (Hrecs (csv_record (headers (self w)) (read_back row))).
  unfold csv_records in Hrecs. rewrite list_elem_of_fmap in Hrecs.
  specialize (Hrecs (ex_intro _ row (conj eq_refl Hrow))).
  unfold csv_record in Hrecs.
  assert (Hsnd : (zip (headers (self w)) (VStr <$> read_back row)).*2
                 = VStr <$> read_back row).
  { apply snd_zip. rewrite length_fmap, read_back_length, (Hlen row Hrow). lia. }
  assert (Hvals : Forall (short ∘ cell_text) (zip (headers (self w)) (VStr <$> read_back row)).*2)
    by (by apply Forall_fmap).
  rewrite Hsnd, Forall_fmap in Hvals. exact Hvals.
Qed.

Lemma fmap_fixed {A} (g : A → A) (l : list A) :
  (∀ x, x ∈ l → g x = x) → g <$> l = l.
Proof.
  intros H. rewrite <- (list_fmap_id l) at 2. apply list_fmap_ext.
  intros i x Hx. by eapply H, list_elem_of_lookup_2.
Qed.

Lemma csv_store_stored_elem (w : world) (f : string) (recs : list record) r :
  csv_store_of w f recs → r ∈ recs → stored r = r.
Proof.
  intros (Hf & Hs & rows & Hh & <-) (row & -> & Hrow)%list_elem_of_fmap.
  apply stored_csv_record. by apply Hh.
Qed.

(** X4. [delete_student] on a CSV store, no field of it over the limit of
    the reader, drops every record with the id and keeps the others as
    they are; with no such record it writes nothing. *)
Theorem delete_student_csv_drops (w : world) (f : string) (recs : list record)
    (student_id : string) :
  csv_store_of w f recs →
  readable (headers (self w)) recs →
  let kept := filter (λ r, Dict.get "id" r ≠ Some (VStr student_id)) recs in
  delete_student student_id w =
    (inr (),
     if bool_decide (Exists (λ r, Dict.get "id" r = Some (VStr student_id)) recs)
     then rewritten w (headers (self w)) f (csv_text (headers (self w)) kept)
                    [Print "Student deleted successfully!"]
     else printed w [Print "Student not found!"]) ∧
  csv_store_of (delete_student student_id w).2 f kept.
Proof.
  intros Hst _ kept.
  destruct (csv_store_file _ _ _ Hst) as (Hname & Htype & c & Hfile & Hread).
  assert (Hfilter : filter (λ r, Dict.get "id" (Csv.cells r) ≠ Some (VStr student_id))
                      (Csv.of_record <$> recs) = Csv.of_record <$> kept).
  { unfold kept. clear. induction recs as [|r recs IH]; [done|].
    rewrite fmap_cons, !filter_cons. simpl.
    destruct (decide (Dict.get "id" r ≠ _)); [|done]. by rewrite fmap_cons, IH. }
  assert (Hin : ∀ r, r ∈ kept → r ∈ recs) by (by intros r [_ ?]%list_elem_of_filter).
  assert (Hrun : delete_student student_id w =
    (inr (),
     if bool_decide (Exists (λ r, Dict.get "id" r = Some (VStr student_id)) recs)
     then rewritten w (headers (self w)) f (csv_text (headers (self w)) kept)
                    [Print "Student deleted successfully!"]
     else printed w [Print "Student not found!"])).
  { rewrite (delete_student_rows w f c Hname Hfile); rewrite Hread.
    - rewrite Hfilter.
      assert (bool_decide (Exists (λ r, Dict.get "id" (Csv.cells r) =
                                        Some (VStr student_id)) (Csv.of_record <$> recs))
              = bool_decide (Exists (λ r, Dict.get "id" r = Some (VStr student_id)) recs))
        as -> by (apply bool_decide_ext; by rewrite Exists_fmap).
      simpl. case_bool_decide; [|done].
      rewrite writerows_ok; [by destruct w as [[]]|].
      intros r k Hr Hk. by rewrite <- (csv_store_keys _ _ _ _ Hst (Hin _ Hr)).
    - intros r (r' & -> & Hr)%list_elem_of_fmap. simpl. by eapply csv_store_id. }
  split; [done|]. rewrite Hrun. simpl. case_bool_decide as Hex.
  - assert (Hk : stored <$> kept = kept)
      by (apply fmap_fixed; intros; eapply csv_store_stored_elem; eauto).
    rewrite <- Hk at 2.
    apply csv_store_written; try done; try apply Hst.
    intros r Hr. eapply csv_store_keys; eauto.
  - assert (kept = recs) as ->; [|by eapply csv_store_kept].
    unfold kept. clear -Hex. induction recs as [|r recs IH]; [done|].
    rewrite filter_cons. rewrite Exists_cons in Hex.
    destruct (decide (Dict.get "id" r ≠ _)) as [|Hn]; [f_equal; tauto|].
    exfalso. apply Hex. left. by destruct (decide (Dict.get "id" r = Some (VStr student_id))).
Qed.

Lemma add_student_csv_run (w : world) (f : string) (recs : list record)
    (student_data : record) (b : bool) :
  csv_store_of w f recs →
  validate_student_data (headers (self w)) student_data = inr b →
  (∀ k, k ∈ Dict.keys student_data → k ∈ headers (self w)) →
  (add_student student_data w).1 = inr () ∧
  self (add_student student_data w).2 = self w ∧
  stdout (add_student student_data w).2 = stdout w ++ [Print "Student added successfully!"] ∧
  csv_store_of (add_student student_data w).2 f
    (recs ++ [csv_record (headers (self w))
                (read_back (row_of (headers (self w)) student_data))]).
Proof.
  intros (Hf & Hs & rows & (Hname & Htype & (c & Hfile & Htext) & Hlen) & <-) Hvalid Hkeys.
  pose proof (not_filename_bound (self w) f Hname Hf) as Hset.
  assert (Hrun : add_student student_data w =
    (inr (), {| self := self w;
                files := <[f := Text (text_of c +:+
                                      Csv.writerow (row_of (headers (self w)) student_data))]>
                           (files w);
                cwd := cwd w;
                stdout := stdout w ++ [Print "Student added successfully!"] |})).
  { unfold add_student, is_csv. unfold mbind, M_bind at 1, get_self at 1.
    rewrite Hset. run_prims. rewrite Hvalid. simpl.
    rewrite Htype, Hname. simpl. rewrite Hfile. simpl.
    rewrite dict_to_list_ok by done. simpl. by rewrite Hfile. }
  rewrite Hrun. simpl.
  split_and!; [done..|]. split_and!; [done..|].
  exists (rows ++ [row_of (headers (self w)) student_data]). split.
  - split_and!; [done..| |].
    + eexists. split; [apply lookup_insert_eq|]. simpl.
      rewrite Htext, fmap_app, concat_text_app. simpl.
      by rewrite append_nil_r, append_assoc.
    + intros row [Hrow| ->%list_elem_of_singleton]%elem_of_app; [by apply Hlen|].
      unfold row_of. apply length_fmap.
  - simpl. unfold csv_records. by rewrite fmap_app.
Qed.

(** X2. [add_student] on a CSV store appends the record, read back in the
    order of the schema, and keeps the records that were there. *)
Theorem add_student_csv_appends (w : world) (f : string) (recs : list record)
    (student_data : record) (b : bool) :
  csv_store_of w f recs →
  validate_student_data (headers (self w)) student_data = inr b →
  (∀ k, k ∈ Dict.keys student_data → k ∈ headers (self w)) →
  (add_student student_data w).1 = inr () ∧
  stdout (add_student student_data w).2 = stdout w ++ [Print "Student added successfully!"] ∧
  csv_store_of (add_student student_data w).2 f
    (recs ++ [csv_record (headers (self w))
                (read_back (row_of (headers (self w)) student_data))]).
Proof.
  intros Hst Hvalid Hkeys.
  destruct (add_student_csv_run w f recs student_data b Hst Hvalid Hkeys)
    as (Hok & _ & Hout & Hst'). by split_and!.
Qed.

Lemma keys_set_in {V} k (v : V) (d : list (string * V)) :
  k ∈ Dict.keys d → Dict.keys (Dict.set k v d) = Dict.keys d.
Proof.
  unfold Dict.keys. induction d as [|[k0 v0] d IH]; simpl.
  - by intros ?%elem_of_nil.
  - intros Hk. case_decide; subst; simpl; [done|]. f_equal. apply IH.
    apply elem_of_cons in Hk as [?|?]; done.
Qed.

Lemma keys_update_in {V} (d patch : list (string * V)) :
  (∀ k, k ∈ Dict.keys patch → k ∈ Dict.keys d) →
  Dict.keys (Dict.update d patch) = Dict.keys d.
Proof.
  unfold Dict.update. revert d.
  induction patch as [|[k0 v0] patch IH]; intros d Hin; [done|]. simpl.
  assert (Hk0 : k0 ∈ Dict.keys d) by (apply Hin; by left).
  rewrite IH; rewrite keys_set_in by done; [done|].
  intros k Hk. apply Hin. by right.
Qed.

Lemma keys_patched_in id patch (r : record) :
  (∀ k, k ∈ Dict.keys patch → k ∈ Dict.keys r) →
  Dict.keys (patched id patch r) = Dict.keys r.
Proof. intros H. unfold patched. case_bool_decide; [by apply keys_update_in|done]. Qed.

(** The loop of [update_student] over the rows of a CSV file whose
    records all have an id. *)
Lemma update_csv_rows_spec id patch (recs : list record) :
  (∀ r, r ∈ recs → is_Some (Dict.get "id" r)) →
  update_csv_rows id patch (Csv.of_record <$> recs) =
    inr (Csv.of_record <$> (patched id patch <$> recs),
         bool_decide (Exists (λ r, Dict.get "id" r = Some (VStr id)) recs)).
Proof.
  induction recs as [|r recs IH]; intros Hid; [done|].
  destruct (Hid r) as [v Hv]; [by left|].
  rewrite !fmap_cons. simpl. rewrite IH by (intros; apply Hid; by right).
  unfold Dict.getitem, patched. rewrite Hv. simpl.
  destruct (decide (v = VStr id)) as [->|Hne].
  - rewrite (bool_decide_eq_true_2 (VStr id = VStr id)) by done.
    rewrite (bool_decide_eq_true_2 (Some (VStr id) = Some (VStr id))) by done.
    simpl. do 2 f_equal. symmetry. apply bool_decide_eq_true_2. by left.
  - rewrite (bool_decide_eq_false_2 (v = VStr id)) by done.
    rewrite (bool_decide_eq_false_2 (Some v = Some (VStr id))) by congruence.
    simpl. do 2 f_equal. apply bool_decide_ext. rewrite Exists_cons.
    split; [tauto|]. intros [?|?]; [congruence|done].
Qed.

Lemma patched_none id patch (recs : list record) :
  ¬ Exists (λ r, Dict.get "id" r = Some (VStr id)) recs →
  patched id patch <$> recs = recs.
Proof.
  intros Hex. apply fmap_fixed. intros r Hr. unfold patched.
  rewrite bool_decide_eq_false_2; [done|]. intros Hid. apply Hex.
  apply Exists_exists. eauto.
Qed.

Lemma update_student_csv_run (w : world) (f : string) (recs : list record)
    (student_id : string) (updated_data : record) :
  csv_store_of w f recs →
  (∀ k, k ∈ Dict.keys updated_data → k ∈ headers (self w)) →
  (update_student student_id updated_data w).1 = inr () ∧
  stdout (update_student student_id updated_data w).2 =
    stdout w ++
    [Print (if bool_decide (Exists (λ r, Dict.get "id" r = Some (VStr student_id)) recs)
            then "Student updated successfully!" else "Student not found!")] ∧
  csv_store_of (update_student student_id updated_data w).2 f
    (stored <$> (patched student_id updated_data <$> recs)).
Proof.
  intros Hst Hpatch.
  destruct (csv_store_file _ _ _ Hst) as (Hname & Htype & c & Hfile & Hread).
  assert (Hkeys : ∀ r, r ∈ patched student_id updated_data <$> recs →
                       Dict.keys r = headers (self w)).
  { intros r (r' & -> & Hr)%list_elem_of_fmap.
    pose proof (csv_store_keys _ _ _ _ Hst Hr) as Hk.
    rewrite keys_patched_in; [done|]. by rewrite Hk. }
  assert (Hrun : update_student student_id updated_data w =
    (inr (),
     if bool_decide (Exists (λ r, Dict.get "id" r = Some (VStr student_id)) recs)
     then rewritten w (headers (self w)) f
            (csv_text (headers (self w)) (patched student_id updated_data <$> recs))
            [Print "Student updated successfully!"]
     else printed w [Print "Student not found!"])).
  { unfold update_student, is_csv, read_csv_file. run_prims.
    rewrite (bool_decide_eq_true_2 (file_type (self w) = Some ".csv")) by done.
    repeat (progress (simpl; rewrite ?Hname, ?Hfile)). rewrite Hread.
    rewrite update_csv_rows_spec by (intros; by eapply csv_store_id).
    simpl. case_bool_decide; simpl; [|done].
    rewrite rewrite_csv_run; [by destruct w as [[]]|].
    intros r k Hr Hk. by rewrite <- (Hkeys r Hr). }
  rewrite Hrun. simpl. case_bool_decide as Hex.
  - split_and!; [done..|]. apply csv_store_written; try done; apply Hst.
  - split_and!; [done..|]. rewrite patched_none by done.
    rewrite (csv_store_stored _ _ _ Hst). by eapply csv_store_kept.
Qed.

(** X5. [update_student] on a CSV store, no field of it over the limit of
    the reader, with a patch of columns of the schema, puts the patch on
    every record with the id and keeps the others. *)
Theorem update_student_csv_patches (w : world) (f : string) (recs : list record)
    (student_id : string) (updated_data : record) :
  csv_store_of w f recs →
  readable (headers (self w)) recs →
  (∀ k, k ∈ Dict.keys updated_data → k ∈ headers (self w)) →
  (update_student student_id updated_data w).1 = inr () ∧
  stdout (update_student student_id updated_data w).2 =
    stdout w ++
    [Print (if bool_decide (Exists (λ r, Dict.get "id" r = Some (VStr student_id)) recs)
            then "Student updated successfully!" else "Student not found!")] ∧
  csv_store_of (update_student student_id updated_data w).2 f
    (stored <$> (patched student_id updated_data <$> recs)).
Proof. intros Hst _. by apply update_student_csv_run. Qed.

Lemma writerows_stops (h : list string) (pre : list record) (bad : record)
    (post : list record) (e : exn) :
  (∀ r k, r ∈ pre → k ∈ Dict.keys r → k ∈ h) →
  Csv.dict_to_list h (Csv.of_record bad) = inl e →
  Csv.writerows h (Csv.of_record <$> (pre ++ bad :: post)) =
    (concat_text (Csv.writerow <$> (row_of h <$> pre)), Some e).
Proof.
  intros Hpre Hbad. induction pre as [|r pre IH].
  - simpl. by rewrite Hbad.
  - rewrite <- app_comm_cons, fmap_cons. simpl.
    rewrite dict_to_list_ok by (intros; eapply Hpre; [by left|done]).
    rewrite IH; [done|]. intros; eapply Hpre; [by right|done].
Qed.

Lemma update_student_csv_stops (w : world) (f : string)
    (pre post : list record) (m : record) (student_id : string)
    (updated_data : record) (k : string) :
  csv_store_of w f (pre ++ m :: post) →
  Forall (λ r, Dict.get "id" r ≠ Some (VStr student_id)) pre →
  Dict.get "id" m = Some (VStr student_id) →
  k ∈ Dict.keys updated_data → k ∉ headers (self w) →
  (update_student student_id updated_data w).1 =
    inl (ValueError (ExtraFields
           (Some <$> filter (λ k, k ∉ headers (self w))
                            (Dict.keys (Dict.update m updated_data))))) ∧
  stdout (update_student student_id updated_data w).2 = stdout w ∧
  csv_store_of (update_student student_id updated_data w).2 f pre.
Proof.
  intros Hst Hpre Hm Hk Hnew.
  destruct (csv_store_file _ _ _ Hst) as (Hname & Htype & c & Hfile & Hread).
  set (recs := pre ++ m :: post) in *.
  assert (Hprekeys : ∀ r, r ∈ pre → Dict.keys r = headers (self w)).
  { intros r Hr. eapply csv_store_keys; [done|]. apply elem_of_app. by left. }
  assert (Hpatched : patched student_id updated_data <$> recs =
            pre ++ Dict.update m updated_data ::
                   (patched student_id updated_data <$> post)).
  { unfold recs. rewrite fmap_app, fmap_cons. f_equal.
    - apply fmap_fixed. intros r Hr. unfold patched.
      rewrite bool_decide_eq_false_2; [done|].
      rewrite Forall_forall in Hpre. by apply Hpre.
    - unfold patched at 1. by rewrite bool_decide_eq_true_2. }
  assert (Hbad : Csv.dict_to_list (headers (self w))
                   (Csv.of_record (Dict.update m updated_data)) =
                 inl (ValueError (ExtraFields
                   (Some <$> filter (λ k, k ∉ headers (self w))
                                    (Dict.keys (Dict.update m updated_data)))))).
  { unfold Csv.dict_to_list. simpl. rewrite app_nil_r.
    rewrite bool_decide_eq_false_2; [done|].
    assert (Hin : k ∈ filter (λ k, k ∉ headers (self w))
                             (Dict.keys (Dict.update m updated_data))).
    { apply list_elem_of_filter. split; [done|]. apply keys_update. by right. }
    intros Heq. apply (f_equal length) in Heq. rewrite length_fmap in Heq.
    destruct (filter _ _); [by apply elem_of_nil in Hin|done]. }
  assert (Hrun : update_student student_id updated_data w =
    (inl (ValueError (ExtraFields
           (Some <$> filter (λ k, k ∉ headers (self w))
                            (Dict.keys (Dict.update m updated_data))))),
     rewritten w (headers (self w)) f (csv_text (headers (self w)) pre) [])).
  { unfold update_student, is_csv, read_csv_file. run_prims.
    rewrite (bool_decide_eq_true_2 (file_type (self w) = Some ".csv")) by done.
    repeat (progress (simpl; rewrite ?Hname, ?Hfile)). rewrite Hread.
    rewrite update_csv_rows_spec by (intros; by eapply csv_store_id).
    simpl. rewrite bool_decide_eq_true_2
      by (apply Exists_exists; exists m; split; [apply elem_of_app; right; by left|done]).
    simpl. unfold rewrite_csv. rewrite Hpatched.
    rewrite (writerows_stops _ _ _ _ _
               (λ r k Hr Hk, eq_ind _ (λ l, k ∈ l) Hk _ (Hprekeys r Hr)) Hbad).
    run_prims. unfold rewritten, csv_text. rewrite app_nil_r. by destruct w as [[]]. }
  rewrite Hrun. split_and!; [done|by unfold rewritten; simpl; rewrite app_nil_r|].
  assert (Hfix : stored <$> pre = pre).
  { apply fmap_fixed. intros r Hr. eapply csv_store_stored_elem; [done|].
    apply elem_of_app. by left. }
  simpl. rewrite <- Hfix at 2. apply csv_store_written; try done; apply Hst.
Qed.

(** X6. [update_student] on a CSV store, no field of it over the limit of
    the reader, with a patch that has a key outside the schema:
    [DictWriter] raises at the first record with the id, and the file is
    left with the records before it only. *)
Theorem update_student_csv_truncates (w : world) (f : string)
    (pre post : list record) (m : record) (student_id : string)
    (updated_data : record) (k : string) :
  csv_store_of w f (pre ++ m :: post) →
  readable (headers (self w)) (pre ++ m :: post) →
  Forall (λ r, Dict.get "id" r ≠ Some (VStr student_id)) pre →
  Dict.get "id" m = Some (VStr student_id) →
  k ∈ Dict.keys updated_data → k ∉ headers (self w) →
  (∃ wrong, (update_student student_id updated_data w).1 =
              inl (ValueError (ExtraFields wrong)) ∧ Some k ∈ wrong) ∧
  stdout (update_student student_id updated_data w).2 = stdout w ∧
  csv_store_of (update_student student_id updated_data w).2 f pre.
Proof.
  intros Hst _ Hpre Hm Hk Hnew.
  destruct (update_student_csv_stops w f pre post m student_id updated_data k
              Hst Hpre Hm Hk Hnew) as (Hraised & Hout & Hst').
  split_and!; [|done..]. eexists. split; [done|].
  apply list_elem_of_fmap. exists k. split; [done|].
  apply list_elem_of_filter. split; [done|]. apply keys_update. by right.
Qed.

Lemma add_student_csv_extra_run (w : world) (f : string) (recs : list record)
    (student_data : record) (b : bool) (k : string) :
  csv_store_of w f recs →
  validate_student_data (headers (self w)) student_data = inr b →
  k ∈ Dict.keys student_data → k ∉ headers (self w) →
  add_student student_data w =
    (inl (ValueError (ExtraFields
            (Some <$> filter (λ k, k ∉ headers (self w)) (Dict.keys student_data)))),
     w).
Proof.
  intros (Hf & Hs & rows & (Hname & Htype & (c & Hfile & Htext) & Hlen) & <-)
    Hvalid Hk Hnew.
  pose proof (not_filename_bound (self w) f Hname Hf) as Hset.
  unfold add_student, is_csv. unfold mbind, M_bind at 1, get_self at 1.
  rewrite Hset. run_prims. rewrite Hvalid. simpl.
  rewrite Htype, Hname. simpl. rewrite Hfile. simpl.
  unfold Csv.dict_to_list. simpl. rewrite app_nil_r.
  rewrite bool_decide_eq_false_2; [done|].
  assert (Hin : k ∈ filter (λ k, k ∉ headers (self w)) (Dict.keys student_data))
    by (by apply list_elem_of_filter).
  intros Heq. apply (f_equal length) in Heq. rewrite length_fmap in Heq.
  destruct (filter _ _); [by apply elem_of_nil in Hin|done].
Qed.

(** X3. [add_student] on a CSV store with a key outside the schema: the
    record passes validation, [DictWriter] raises, and nothing is
    written. *)
Theorem add_student_csv_extra_key (w : world) (f : string) (recs : list record)
    (student_data : record) (b : bool) (k : string) :
  csv_store_of w f recs →
  validate_student_data (headers (self w)) student_data = inr b →
  k ∈ Dict.keys student_data → k ∉ headers (self w) →
  ∃ wrong,
    add_student student_data w = (inl (ValueError (ExtraFields wrong)), w) ∧
    Some k ∈ wrong.
Proof.
  intros Hst Hvalid Hk Hnew. eexists. split.
  - by eapply add_student_csv_extra_run.
  - apply list_elem_of_fmap. exists k. split; [done|]. by apply list_elem_of_filter.
Qed.

Lemma lower_fresh (c : string) (h : list string) :
  Py.lower c ∉ Py.lower <$> h → Py.lower c ∉ h.
Proof.
  intros Hnew Hin. apply Hnew. rewrite <- lower_idemp.
  apply list_elem_of_fmap. eauto.
Qed.

Lemma plain_schema_snoc (h : list string) (c : string) :
  plain_schema h → c ∉ h → no_CR c → plain_schema (h ++ [c]).
Proof.
  intros (Hnd & Hback & Hid) Hnew Hc. split_and!.
  - apply NoDup_app. split_and!; [done| |apply NoDup_singleton].
    intros x Hx ->%list_elem_of_singleton. done.
  - unfold read_back in *. rewrite fmap_app, Hback. simpl. by rewrite Hc.
  - apply elem_of_app. by left.
Qed.

Lemma stored_app (r1 r2 : record) : stored (r1 ++ r2) = stored r1 ++ stored r2.
Proof. unfold stored. apply fmap_app. Qed.

(** X7. [add_column] on a CSV store, no field of it over the limit of the
    reader, with a name new to the schema: the column is added in lower
    case at the end of the schema and, empty, at the end of every
    record. *)
Theorem add_column_csv_extends (w : world) (f : string) (recs : list record)
    (column_name : string) :
  csv_store_of w f recs →
  readable (headers (self w)) recs →
  Py.lower column_name ∉ Py.lower <$> headers (self w) →
  no_CR (Py.lower column_name) →
  (add_column column_name w).1 = inr () ∧
  headers (self (add_column column_name w).2) =
    headers (self w) ++ [Py.lower column_name] ∧
  csv_store_of (add_column column_name w).2 f
    ((λ r, r ++ [(Py.lower column_name, VStr "")]) <$> recs).
Proof.
  intros Hst _ Hnew Hc. pose proof (lower_fresh _ _ Hnew) as Hfresh.
  destruct (csv_store_file _ _ _ Hst) as (Hname & Htype & c & Hfile & Hread).
  set (c' := Py.lower column_name) in *.
  set (h' := headers (self w) ++ [c']).
  set (recs' := (λ r : record, r ++ [(c', VStr "")]) <$> recs).
  assert (Hkeys : ∀ r, r ∈ recs' → Dict.keys r = h').
  { intros r (r' & -> & Hr)%list_elem_of_fmap. unfold Dict.keys, h'.
    rewrite fmap_app. f_equal. by eapply csv_store_keys. }
  assert (Hrun : add_column column_name w =
    (inr (), rewritten w h' f (csv_text h' recs')
               [Print ("Column '" +:+ c' +:+ "' added successfully!")])).
  { unfold add_column, is_csv, read_csv_file. fold c'. run_prims.
    rewrite (bool_decide_eq_false_2 (c' ∈ _)) by done.
    rewrite (bool_decide_eq_true_2 (file_type (self w) = Some ".csv")) by done.
    repeat (progress (simpl; rewrite ?Hname, ?Hfile)). rewrite Hread.
    rewrite <- list_fmap_compose.
    assert (Hset : (λ student, {| Csv.cells := Dict.set c' (VStr "") (Csv.cells student);
                                  Csv.rest := Csv.rest student |}) ∘ Csv.of_record
                   <$> recs = Csv.of_record <$> recs').
    { unfold recs'. rewrite <- list_fmap_compose. apply list_fmap_ext.
      intros i r Hr. simpl. unfold Csv.of_record. f_equal. apply set_fresh.
      by rewrite (csv_store_keys _ _ _ _ Hst (list_elem_of_lookup_2 _ _ _ Hr)). }
    rewrite Hset. unfold rewrite_csv. rewrite writerows_ok.
    - run_prims. unfold rewritten, csv_text. by rewrite Hname.
    - intros r k Hr Hk. change (k ∈ h'). by rewrite <- (Hkeys r Hr). }
  rewrite Hrun. split_and!; [done..|]. simpl.
  assert (Hfix : stored <$> recs' = recs').
  { apply fmap_fixed. intros r (r' & -> & Hr)%list_elem_of_fmap.
    rewrite stored_app. by rewrite (csv_store_stored_elem _ _ _ _ Hst Hr). }
  apply csv_store_written_fixed; try done; try apply Hst.
  apply plain_schema_snoc; [apply Hst|done..].
Qed.

Lemma list_remove_filter (c : string) (l : list string) :
  NoDup l → list_remove c l = filter (λ x, x ≠ c) l.
Proof.
  induction l as [|y l IH]; [done|]. intros [Hy Hnd]%NoDup_cons. simpl.
  rewrite filter_cons. case_decide as Heq.
  - subst. rewrite decide_False by (intros H; by apply H).
    symmetry. clear IH Hnd. induction l as [|x l IH]; [done|].
    apply not_elem_of_cons in Hy as [Hne Hy].
    rewrite filter_cons, decide_True by done. f_equal. by apply IH.
  - rewrite decide_True by congruence. f_equal. by apply IH.
Qed.

Lemma plain_schema_remove (h : list string) (c : string) :
  plain_schema h → c ≠ "id" → plain_schema (list_remove c h).
Proof.
  intros (Hnd & Hback & Hid) Hc. rewrite list_remove_filter by done. split_and!.
  - by apply NoDup_filter.
  - unfold read_back in *. clear Hnd Hid.
    induction h as [|x h IH]; [done|]. rewrite fmap_cons in Hback.
    injection Hback as Hx Hh. rewrite filter_cons. case_decide; [|by apply IH].
    rewrite fmap_cons, Hx. f_equal. by apply IH.
  - apply list_elem_of_filter. split; [congruence|done].
Qed.

Lemma keys_filter (c : string) (r : record) :
  Dict.keys (filter (λ kv, kv.1 ≠ c) r) = filter (λ x, x ≠ c) (Dict.keys r).
Proof.
  unfold Dict.keys. induction r as [|[k v] r IH]; [done|].
  rewrite fmap_cons, (filter_cons (λ kv : string * pyval, kv.1 ≠ c)),
    (filter_cons (λ x : string, x ≠ c)). simpl.
  destruct (decide (k ≠ c)); [|done]. rewrite ?fmap_cons. simpl. by f_equal.
Qed.

Lemma stored_filter (c : string) (r : record) :
  stored (filter (λ kv, kv.1 ≠ c) r) = filter (λ kv, kv.1 ≠ c) (stored r).
Proof.
  unfold stored. induction r as [|[k v] r IH]; [done|].
  rewrite fmap_cons, !(filter_cons (λ kv : string * pyval, kv.1 ≠ c)). simpl.
  destruct (decide (k ≠ c)); [|done]. rewrite ?fmap_cons. simpl. by f_equal.
Qed.

(** X8. [remove_column] on a CSV store, no field of it over the limit of
    the reader, for a column of the schema other than id: the column
    leaves the schema and every record, and the rest stays as it is. *)
Theorem remove_column_csv_drops (w : world) (f : string) (recs : list record)
    (column_name : string) :
  csv_store_of w f recs →
  readable (headers (self w)) recs →
  column_name ∈ headers (self w) → column_name ≠ "id" →
  (remove_column column_name w).1 = inr () ∧
  headers (self (remove_column column_name w).2) =
    filter (λ x, x ≠ column_name) (headers (self w)) ∧
  csv_store_of (remove_column column_name w).2 f
    (filter (λ kv, kv.1 ≠ column_name) <$> recs).
Proof.
  intros Hst _ Hin Hne.
  destruct (csv_store_file _ _ _ Hst) as (Hname & Htype & c & Hfile & Hread).
  assert (Hnd : NoDup (headers (self w))) by apply Hst.
  set (h' := list_remove column_name (headers (self w))).
  set (recs' := filter (λ kv : string * pyval, kv.1 ≠ column_name) <$> recs).
  assert (Hkeys : ∀ r, r ∈ recs' → Dict.keys r = h').
  { intros r (r' & -> & Hr)%list_elem_of_fmap. unfold h'.
    rewrite keys_filter, list_remove_filter by done.
    by rewrite (csv_store_keys _ _ _ _ Hst Hr). }
  assert (Hdel : mapM (λ student,
                   cells ← Dict.del column_name (Csv.cells student);
                   mret {| Csv.cells := cells; Csv.rest := Csv.rest student |})
                   (Csv.of_record <$> recs) = inr (Csv.of_record <$> recs')).
  { unfold recs'. rewrite <- list_fmap_compose.
    assert (Hall : ∀ r, r ∈ recs → Dict.keys r = headers (self w))
      by (intros; by eapply csv_store_keys).
    clear -Hall Hin. induction recs as [|r recs IH]; [done|].
    rewrite !fmap_cons, mapM_cons. simpl. unfold Dict.del at 1.
    assert (Dict.mem column_name r = true) as ->.
    { apply mem_keys. rewrite Hall; [done|by left]. }
    simpl. rewrite IH; [done|]. intros; apply Hall; by right. }
  assert (Hrun : remove_column column_name w =
    (inr (), rewritten w h' f (csv_text h' recs')
               [Print ("Column '" +:+ column_name +:+ "' removed successfully!")])).
  { unfold remove_column, read_csv_file. run_prims.
    rewrite (bool_decide_eq_true_2 (column_name ∈ _)) by done.
    rewrite (bool_decide_eq_false_2 (column_name = "id")) by done.
    repeat (progress (simpl; rewrite ?Hname, ?Hfile)). rewrite Hread.
    unfold mbind, mret in Hdel. simpl in Hdel. rewrite Hdel.
    simpl. unfold rewrite_csv. rewrite writerows_ok.
    - run_prims. unfold rewritten, csv_text. by rewrite Hname.
    - intros r k Hr Hk. change (k ∈ h'). by rewrite <- (Hkeys r Hr). }
  rewrite Hrun. split_and!; [done|by apply list_remove_filter|]. simpl.
  assert (Hfix : stored <$> recs' = recs').
  { apply fmap_fixed. intros r (r' & -> & Hr)%list_elem_of_fmap.
    rewrite stored_filter. by rewrite (csv_store_stored_elem _ _ _ _ Hst Hr). }
  apply csv_store_written_fixed; try done; try apply Hst.
  apply plain_schema_remove; [apply Hst|done].
Qed.

(** X1. What a CSV store holds, no field of it over the limit of the
    reader, is what [load_students] returns, and what
    [view_all_students] prints: the values of each record in the order
    of the schema, or the notice that there is no student. The fields
    that the reader gives for the file are all within its limit. *)
Theorem view_all_students_csv (w : world) (f : string) (recs : list record) :
  csv_store_of w f recs →
  readable (headers (self w)) recs →
  (∀ c, files w !! f = Some c → Forall (Forall short) (Csv.reader (text_of c))) ∧
  load_students w = (inr recs, w) ∧
  view_all_students w =
    (inr (),
     printed w (if bool_decide (recs = []) then [Print "No students found!"]
                else [Print (Json.NL +:+ "Student Records:");
                      PrintTable ((λ r, r.*2) <$> recs) (headers (self w))])).
Proof.
  intros Hst Hfields. split; [intros c; by apply (readable_fields w f recs)|].
  destruct Hst as (Hf & Hs & rows & Hh & <-).
  pose proof (csv_holds_load w f rows Hh Hs) as Hload. split; [done|].
  destruct Hh as (Hname & _ & _ & Hlen). destruct Hs as (Hnd & _ & _).
  unfold view_all_students. run_prims.
  rewrite (not_filename_bound _ _ Hname Hf), Hload.
  destruct rows as [|row rows]; [done|].
  rewrite bool_decide_eq_false_2 by done.
  rewrite table_rows_csv by done. rewrite values_csv_records by done.
  unfold printed. simpl. by rewrite <- app_assoc.
Qed.

End csv_store.

Section binding.

Lemma set_file_path_run (w : world) (file_path : option string) :
  let p := resolved_path w file_path in
  let f := Path.to_str p in
  let t := Py.lower (Path.suffix p) in
  t ∈ [".csv"; ".json"] →
  set_file_path file_path w =
    (inr (),
     {| self := bound_to (self w) f t;
        files := match files w !! f with
                 | Some _ => files w
                 | None => <[f := empty_file (headers (self w)) t]> (files w)
                 end;
        cwd := cwd w;
        stdout := stdout w |}).
Proof.
  intros p f t Ht. unfold set_file_path. run.
  assert (Hp : (if negb (Path.is_absolute (Path.parse
                   match file_path with
                   | None | Some EmptyString => default_filename (self w)
                   | Some f0 => f0
                   end))
                then Path.joinpath (cwd w) (Path.parse
                   match file_path with
                   | None | Some EmptyString => default_filename (self w)
                   | Some f0 => f0
                   end)
                else Path.parse
                   match file_path with
                   | None | Some EmptyString => default_filename (self w)
                   | Some f0 => f0
                   end) = p).
  { unfold p, resolved_path. by destruct (Path.is_absolute _). }
  rewrite Hp. fold t f. rewrite (bool_decide_eq_true_2 _ Ht). simpl.
  unfold is_csv, empty_file, bound_to. simpl.
  destruct (files w !! f) as [c|] eqn:Hfile; simpl.
  - done.
  - destruct (decide (t = ".csv")) as [Heq|Hne].
    + rewrite Heq. rewrite !bool_decide_eq_true_2 by done. done.
    + rewrite (bool_decide_eq_false_2 (Some t = Some ".csv")) by congruence.
      by rewrite (bool_decide_eq_false_2 (t = ".csv")).
Qed.

(** X9. [set_file_path] with a plain name of a supported type, where the
    files are those of the current directory, binds the store to the
    string of the path of that name in the current directory and to the
    suffix in lower case; a file that exists is left as it is, a missing
    one is created empty; the schema stays and nothing is printed. The
    directory that [os.makedirs] is to make is the current one, which
    is there. *)
Theorem set_file_path_binds (w : world) (file_path : option string) :
  let p := resolved_path w file_path in
  let f := Path.to_str p in
  let t := Py.lower (Path.suffix p) in
  flat w → plain_name (named w file_path) →
  t ∈ [".csv"; ".json"] →
  set_file_path file_path w =
    (inr (),
     {| self := bound_to (self w) f t;
        files := match files w !! f with
                 | Some _ => files w
                 | None => <[f := empty_file (headers (self w)) t]> (files w)
                 end;
        cwd := cwd w;
        stdout := stdout w |}).
Proof. intros p f t _ _. apply set_file_path_run. Qed.

Lemma append_empty (s t : string) : s +:+ t = "" → t = "".
Proof. destruct s; [done|]. by rewrite app_cons. Qed.

Lemma join_nonempty (ps : list string) :
  List.last ps "" ≠ "" → Path.join "/" ps ≠ "".
Proof.
  induction ps as [|x [|y ps] IH]; [done|done|].
  intros Hlast. change (Path.join "/" (x :: y :: ps))
    with (x +:+ "/" +:+ Path.join "/" (y :: ps)).
  intros Hnil%append_empty. by rewrite app_cons in Hnil.
Qed.

(** A path that has a suffix is not the empty string. *)
Lemma to_str_nonempty (p : Path.t) : Path.suffix p ≠ "" → Path.to_str p ≠ "".
Proof.
  unfold Path.suffix, Path.name, Path.to_str. intros Hsuffix.
  assert (Hlast : List.last (Path.parts p) "" ≠ "").
  { intros Heq. by rewrite Heq in Hsuffix. }
  pose proof (join_nonempty _ Hlast) as Hjoin.
  destruct (Path.root p) as [|a r] eqn:Hroot.
  - destruct (Path.parts p); [done|]. by intros ?%append_empty.
  - by rewrite app_cons.
Qed.

Lemma type_nonempty (t : string) : Py.lower t ∈ [".csv"; ".json"] → t ≠ "".
Proof.
  intros Ht ->. vm_compute in Ht.
  by repeat (inversion Ht as [|? ? ? Ht']; clear Ht; rename Ht' into Ht).
Qed.

Lemma DictReader_header (h : list string) : Csv.DictReader (Csv.writerow h) = [].
Proof.
  rewrite <- (append_nil_r (Csv.writerow h)).
  change (Csv.writerow h +:+ "")
    with (Csv.writeheader h +:+ concat_text (Csv.writerow <$> [])).
  by rewrite DictReader_table.
Qed.

(** X10. A store that [set_file_path] has bound to a plain name of the
    current directory where there was no file is empty: loading gives no
    record, whatever the schema of names within the limit of the reader,
    and [view_all_students] says so. *)
Theorem set_file_path_new_store_empty (w : world) (file_path : option string) :
  let p := resolved_path w file_path in
  flat w → plain_name (named w file_path) →
  Forall short (headers (self w)) →
  Py.lower (Path.suffix p) ∈ [".csv"; ".json"] →
  files w !! Path.to_str p = None →
  let w' := (set_file_path file_path w).2 in
  (set_file_path file_path w).1 = inr () ∧
  load_students w' = (inr [], w') ∧
  view_all_students w' = (inr (), printed w' [Print "No students found!"]).
Proof.
  intros p _ _ _ Ht Hnew w'.
  pose proof (to_str_nonempty p (type_nonempty _ Ht)) as Hf.
  assert (Hw' : w' = {| self := bound_to (self w) (Path.to_str p) (Py.lower (Path.suffix p));
                        files := <[Path.to_str p :=
                                     empty_file (headers (self w)) (Py.lower (Path.suffix p))]>
                                   (files w);
                        cwd := cwd w; stdout := stdout w |}).
  { unfold w'. rewrite (set_file_path_run w file_path Ht). fold p. by rewrite Hnew. }
  assert (Hload : load_students w' = (inr [], w')).
  { rewrite Hw'. unfold load_students, is_csv, read_csv_file, read_json_file, empty_file.
    destruct (decide (Py.lower (Path.suffix p) = ".csv")) as [Heq|Hne].
    - rewrite Heq. run_prims. rewrite lookup_insert_eq. simpl.
      by rewrite DictReader_header.
    - unfold mbind, M_bind at 1, get_self at 1. unfold bound_to at 1. simpl.
      rewrite (bool_decide_eq_false_2 (Some _ = Some ".csv")) by congruence.
      rewrite (bool_decide_eq_false_2 (_ = ".csv")) by done.
      run_prims. by rewrite lookup_insert_eq. }
  split_and!; [by rewrite (set_file_path_run w file_path Ht)|done|].
  unfold view_all_students. unfold mbind, M_bind at 1, get_self at 1.
  rewrite (not_filename_bound (self w') (Path.to_str p)); [|by rewrite Hw'|done].
  unfold mbind, M_bind. by rewrite Hload.
Qed.

End binding.

Section round_trip.

Lemma aligned_stored (h : list string) (r : record) :
  NoDup h → Dict.keys r = h → csv_record h (read_back (row_of h r)) = stored r.
Proof.
  intros Hnd Hkeys.
  assert (H : csv_records h (row_of h <$> [r]) = stored <$> [r]).
  { apply csv_records_row_of; [done|]. by intros ? ->%list_elem_of_singleton. }
  by injection H.
Qed.

Lemma after_cons (c : call) (calls : list call) (w : world) :
  after (c :: calls) w = after calls (run_call c w).2.
Proof. done. Qed.

Lemma csv_adds (rs : list record) (w : world) (f : string) (recs : list record) :
  csv_store_of w f recs →
  Forall (enterable (headers (self w))) rs →
  csv_store_of (after (AddStudent <$> rs) w) f (recs ++ (stored <$> rs)).
Proof.
  revert w recs. induction rs as [|r rs IH]; intros w recs Hst Hall.
  - simpl. by rewrite app_nil_r.
  - apply Forall_cons in Hall as [[Hkeys [b Hvalid]] Hall].
    rewrite fmap_cons, after_cons. simpl run_call.
    destruct (add_student_csv_run w f recs r b Hst Hvalid) as (_ & Hself & _ & Hst').
    { intros k. by rewrite Hkeys. }
    rewrite aligned_stored in Hst' by (done || apply Hst).
    rewrite fmap_cons, cons_middle, app_assoc.
    apply IH; [done|]. by rewrite Hself.
Qed.

Lemma set_file_path_csv_store (w : world) (file_path : option string) :
  plain_schema (headers (self w)) →
  Py.lower (Path.suffix (resolved_path w file_path)) = ".csv" →
  files w !! Path.to_str (resolved_path w file_path) = None →
  self (set_file_path file_path w).2 =
    bound_to (self w) (Path.to_str (resolved_path w file_path)) ".csv" ∧
  csv_store_of (set_file_path file_path w).2
    (Path.to_str (resolved_path w file_path)) [].
Proof.
  intros Hs Ht Hnew.
  assert (Hin : Py.lower (Path.suffix (resolved_path w file_path)) ∈ [".csv"; ".json"])
    by (rewrite Ht; by left).
  rewrite (set_file_path_run w file_path Hin), Hnew, Ht. simpl.
  split; [done|]. split_and!; [by apply to_str_nonempty, type_nonempty|done|].
  exists []. split; [|done]. split_and!; [done..| |by intros ? ?%elem_of_nil].
  eexists. split; [apply lookup_insert_eq|]. simpl. by rewrite append_nil_r.
Qed.

(** X11. Records entered in a new CSV file of the current directory, no
    field over the limit of the reader, and loaded again come back in
    their order, each value as [stored] has it: a string, with a line
    feed for each carriage return or carriage return and line feed. *)
Theorem csv_round_trip (w : world) (file_path : option string) (rs : list record) :
  flat w → plain_name (named w file_path) →
  readable (headers (self w)) rs →
  plain_schema (headers (self w)) →
  Py.lower (Path.suffix (resolved_path w file_path)) = ".csv" →
  files w !! Path.to_str (resolved_path w file_path) = None →
  Forall (enterable (headers (self w))) rs →
  let w' := after (SetFilePath file_path :: (AddStudent <$> rs)) w in
  load_students w' = (inr (stored <$> rs), w').
Proof.
  intros _ _ _ Hs Ht Hnew Hall w'.
  destruct (set_file_path_csv_store w file_path Hs Ht Hnew) as [Hself Hst].
  unfold w'. rewrite after_cons. simpl run_call.
  assert (Hst' := csv_adds rs _ _ _ Hst).
  rewrite Hself in Hst'. specialize (Hst' Hall). simpl in Hst'.
  destruct Hst' as (_ & Hs' & rows & Hh & Hrecs).
  rewrite (csv_holds_load _ _ _ Hh Hs'). by rewrite Hrecs.
Qed.

Lemma json_add (w : world) (f : string) (data : list record) (r : record) (b : bool) :
  json_store_of w f data →
  validate_student_data (headers (self w)) r = inr b →
  add_student r w =
    (inr (), {| self := self w;
                files := <[f := JsonDoc (data ++ [r])]> (files w);
                cwd := cwd w;
                stdout := stdout w ++ [Print "Student added successfully!"] |}).
Proof.
  intros (Hf & Hname & Htype & Hfile) Hvalid.
  unfold add_student, is_csv. run_prims.
  rewrite (not_filename_bound (self w) f Hname Hf), Hvalid. simpl.
  rewrite Htype. simpl. rewrite (read_json_file_as_is w f data Hname Hfile). simpl.
  unfold write_json_file. run_prims. by rewrite Hname.
Qed.

End round_trip.

Section invariants.

(** The schema after each method, with what [add_column] and
    [remove_column] have checked. *)
Lemma run_call_schema_checked (w : world) (c : call) :
  let h := headers (self w) in
  let h' := headers (self (run_call c w).2) in
  h' = h ∨
  (∃ x, (Py.lower x ∉ Py.lower <$> h) ∧ h' = h ++ [Py.lower x]) ∨
  (∃ x, x ≠ "id" ∧ h' = list_remove x h).
Proof.
  destruct c; simpl.
  - left. unfold set_file_path. run. cases; done.
  - left. unfold add_student. run. cases; done.
  - left. unfold view_all_students. run. cases; done.
  - left. unfold view_specific_columns. run. cases; done.
  - left. unfold update_student. run. cases; done.
  - left. unfold delete_student. run. cases; done.
  - unfold add_column. run.
    case_bool_decide as Hin; simpl; [by left|].
    cases; first [by left | right; left; eauto].
  - unfold remove_column. run.
    case_bool_decide as Hin; simpl; [|by left].
    case_bool_decide as Hid; simpl; [by left|].
    cases; first [by left | right; right; eauto].
  - left. unfold search_students. run. cases; try done.
    all: rewrite print_all_run in *; by simplify_eq.
Qed.

Lemma list_remove_sublist (x : string) (l : list string) : sublist (list_remove x l) l.
Proof.
  induction l as [|y l IH]; simpl; [done|].
  case_decide; [by apply sublist_cons | by apply sublist_skip].
Qed.

Lemma schema_ok_init : schema_ok (headers init).
Proof.
  split_and!; [by eexists| |by repeat constructor].
  refine (bool_decide_unpack _ _). by vm_compute.
Qed.

Lemma schema_ok_step (w : world) (c : call) :
  schema_ok (headers (self w)) → schema_ok (headers (self (run_call c w).2)).
Proof.
  intros ([tl Htl] & Hnd & Hlow).
  destruct (run_call_schema_checked w c) as [->|[(x & Hx & ->)|(x & Hx & ->)]].
  - by split_and!; [eexists|..].
  - split_and!.
    + rewrite Htl. by eexists.
    + rewrite fmap_app. apply NoDup_app. split_and!; [done| |apply NoDup_singleton].
      simpl. intros y Hy ->%list_elem_of_singleton. by rewrite lower_idemp in Hy.
    + apply Forall_app. split; [done|]. apply Forall_singleton, lower_idemp.
  - split_and!.
    + rewrite Htl. simpl. rewrite decide_False by done. by eexists.
    + eapply sublist_NoDup; [done|]. apply fmap_sublist, list_remove_sublist.
    + rewrite Forall_forall in Hlow |- *. intros y Hy. apply Hlow.
      eapply elem_of_sublist; [done|apply list_remove_sublist].
Qed.

(** X13. In every state of a store the schema begins with id, and its names
    are in lower case and differ from one another. *)
Theorem reachable_schema_ok (w : world) :
  reachable w → schema_ok (headers (self w)).
Proof.
  induction 1 as [fs here|w c _ IH]; [apply schema_ok_init|by apply schema_ok_step].
Qed.

(** A method other than [set_file_path] keeps the binding and deletes
    no file. *)
Lemma run_call_binding (w : world) (c : call) :
  (∀ file_path, c ≠ SetFilePath file_path) →
  filename (self (run_call c w).2) = filename (self w) ∧
  file_type (self (run_call c w).2) = file_type (self w) ∧
  ∀ g, is_Some (files w !! g) → is_Some (files (run_call c w).2 !! g).
Proof.
  intros Hc.
  assert (Hins : ∀ (fs : gmap string file_content) g k v,
            is_Some (fs !! g) → is_Some (<[k := v]> fs !! g)).
  { intros fs g k v Hg. apply lookup_insert_is_Some'. by right. }
  destruct c; simpl.
  - by destruct (Hc file_path).
  - unfold add_student. run. cases; split_and!; try done; try congruence; eauto.
  - unfold view_all_students. run. cases; done.
  - unfold view_specific_columns. run. cases; done.
  - unfold update_student. run. cases; split_and!; try done; try congruence; eauto.
  - unfold delete_student. run. cases; split_and!; try done; try congruence; eauto.
  - unfold add_column. run. cases; split_and!; try done; try congruence; eauto.
  - unfold remove_column. run. cases; split_and!; try done; try congruence; eauto.
  - unfold search_students. run. cases; try done.
    all: rewrite print_all_run in *; by simplify_eq.
Qed.

Lemma set_file_path_refused (w : world) (file_path : option string) :
  Py.lower (Path.suffix (resolved_path w file_path)) ∉ [".csv"; ".json"] →
  set_file_path file_path w =
    (inl (ValueError (Msg "File must be either CSV or JSON format")), w).
Proof.
  intros Hsuffix. unfold set_file_path, resolved_path in *. run.
  destruct (Path.is_absolute _); simpl in *;
    by rewrite (bool_decide_eq_false_2 _ Hsuffix).
Qed.

Lemma binding_ok_step (w : world) (c : call) :
  binding_ok w → binding_ok (run_call c w).2.
Proof.
  intros Hw. destruct c.
  2-9: match goal with |- binding_ok (run_call ?c _).2 =>
         destruct (run_call_binding w c) as (Hname & Htype & Hfiles); [done|] end.
  2-9: unfold binding_ok in *; rewrite Hname, Htype;
       destruct (filename (self w)), (file_type (self w)); try done;
       destruct Hw as (? & ? & ?); eauto.
  simpl.
  destruct (decide (Py.lower (Path.suffix (resolved_path w file_path)) ∈ [".csv"; ".json"]))
    as [Hin|Hout].
  - rewrite (set_file_path_run w file_path Hin). unfold binding_ok. simpl.
    split_and!; [by apply to_str_nonempty, type_nonempty|done|].
    destruct (files w !! _) eqn:Hfile; [by rewrite Hfile|].
    rewrite lookup_insert_eq. by eexists.
  - by rewrite (set_file_path_refused w file_path Hout).
Qed.

Lemma binding_ok_reachable (w : world) : reachable w → binding_ok w.
Proof.
  induction 1 as [fs here|w c _ IH]; [done|by apply binding_ok_step].
Qed.

Lemma reachable_plain_reachable (w : world) : reachable_plain w → reachable w.
Proof. induction 1; by constructor. Qed.

End invariants.

Section errors.

Lemma validate_raises (h : list string) (r : record) (e : exn) :
  validate_student_data h r = inl e → opened e.
Proof.
  unfold validate_student_data, try_except_ValueError, Dict.getitem, Py.int.
  unfold mbind, mret, result_bind, result_ret.
  cases; intros; by simplify_eq.
Qed.

Lemma getitem_raises {V} (d : list (string * V)) k e :
  Dict.getitem d k = inl e → opened e.
Proof. unfold Dict.getitem. destruct (Dict.get k d); intros; by simplify_eq. Qed.

Lemma dict_to_list_raises h r e : Csv.dict_to_list h r = inl e → opened e.
Proof. unfold Csv.dict_to_list. destruct (negb _); intros; by simplify_eq. Qed.

Lemma writerows_raises h rs text e : Csv.writerows h rs = (text, Some e) → opened e.
Proof.
  revert text. induction rs as [|r rs IH]; intros text; cbn [Csv.writerows]; [done|].
  destruct (Csv.dict_to_list h r) as [e'|l] eqn:Hl.
  - intros [= _ <-]. exact (dict_to_list_raises _ _ _ Hl).
  - destruct (Csv.writerows h rs) as [text' e'] eqn:Hw. intros [= _ ->]. by eapply IH.
Qed.

Lemma json_load_raises c e : json_load c = inl e → opened e.
Proof. destruct c; simpl; [by intros [= <-]|done]. Qed.

Lemma table_rows_raises h (l : list record) e :
  mapM (table_row h) l = inl e → opened e.
Proof.
  intros (r & _ & (k & _ & Hk)%mapM_inl)%mapM_inl. by eapply getitem_raises.
Qed.

Lemma delete_rows_raises id rows e : delete_rows id rows = inl e → opened e.
Proof.
  induction rows as [|r rows IH]; [done|]. simpl.
  destruct (Dict.getitem _ _) as [e'|v] eqn:Hv; simpl.
  - intros [= <-]. by eapply getitem_raises.
  - destruct (delete_rows id rows) as [e'|[? ?]]; simpl; [|by destruct (negb _)].
    intros [= <-]. by apply IH.
Qed.

Lemma update_csv_rows_raises id patch rows e :
  update_csv_rows id patch rows = inl e → opened e.
Proof.
  induction rows as [|r rows IH]; [done|]. simpl.
  destruct (Dict.getitem _ _) as [e'|v] eqn:Hv; simpl.
  - intros [= <-]. by eapply getitem_raises.
  - destruct (bool_decide _);
      (destruct (update_csv_rows id patch rows) as [e'|[? ?]]; simpl; [|done]);
      intros [= <-]; by apply IH.
Qed.

Lemma update_json_rows_raises id patch rows e :
  update_json_rows id patch rows = inl e → opened e.
Proof.
  induction rows as [|r rows IH]; [done|]. simpl.
  destruct (Dict.getitem _ _) as [e'|v] eqn:Hv; simpl.
  - intros [= <-]. by eapply getitem_raises.
  - destruct (bool_decide _);
      (destruct (update_json_rows id patch rows) as [e'|[? ?]]; simpl; [|done]);
      intros [= <-]; by apply IH.
Qed.

Lemma del_rows_raises c (rows : list Csv.row) e :
  mapM (λ student,
          cells ← Dict.del c (Csv.cells student);
          mret {| Csv.cells := cells; Csv.rest := Csv.rest student |}) rows = inl e →
  opened e.
Proof.
  intros (r & _ & Hr)%mapM_inl. revert Hr. unfold Dict.del.
  destruct (Dict.mem _ _); simpl; intros; by simplify_eq.
Qed.

(** Finds the step that raised. *)
Ltac blame :=
  match goal with
  | H : _ = inl _ |- _ =>
      first [ apply validate_raises in H | apply getitem_raises in H
            | apply dict_to_list_raises in H | apply json_load_raises in H
            | apply table_rows_raises in H | apply delete_rows_raises in H
            | apply update_csv_rows_raises in H | apply update_json_rows_raises in H
            | apply del_rows_raises in H ]; exact H
  | H : _ = (_, Some _) |- _ => apply writerows_raises in H; exact H
  end.

(** Once the store is bound, no method fails to open its file: a method
    raises no [FileNotFoundError], and no [TypeError] but that of
    [int(None)] in the validation. *)
Lemma bound_raises (w : world) (c : call) (e : exn) :
  binding_ok w → filename (self w) ≠ None →
  (run_call c w).1 = inl e → opened e.
Proof.
  intros Hok Hbound. unfold binding_ok in Hok.
  destruct (filename (self w)) as [f|] eqn:Hname; [|done].
  destruct (file_type (self w)) as [t|] eqn:Htype; [|done].
  destruct Hok as (Hf & Ht & [c0 Hfile]).
  destruct c; simpl.
  - unfold set_file_path. run. cases; intros; by simplify_eq.
  - unfold add_student. run. rewrite ?Hname.
    cases; intros; simplify_eq; try done; blame.
  - unfold view_all_students. run. rewrite ?Hname.
    cases; intros; simplify_eq; try done; blame.
  - unfold view_specific_columns. run. rewrite ?Hname.
    cases; intros; simplify_eq; try done; blame.
  - unfold update_student. run. rewrite ?Hname.
    cases; intros; simplify_eq; try done; blame.
  - unfold delete_student. run. rewrite ?Hname.
    cases; intros; simplify_eq; try done; blame.
  - unfold add_column. run. rewrite ?Hname.
    cases; intros; simplify_eq; try done; blame.
  - unfold remove_column. run. rewrite ?Hname.
    cases; intros; simplify_eq; try done; blame.
  - unfold search_students. run. rewrite ?Hname.
    cases; intros; simplify_eq; try done; try blame.
    all: rewrite print_all_run in *; by simplify_eq.
Qed.

(** X15. Once [set_file_path] has bound a store that started in an empty
    directory and was given plain calls, no plain call fails to open
    its file: what it raises is no [FileNotFoundError], and no
    [TypeError] but that of [int(None)] in the validation. *)
Theorem reachable_store_opens (w : world) (c : call) :
  reachable_plain w → plain_call w c → filename (self w) ≠ None →
  (∀ f, (run_call c w).1 ≠ inl (FileNotFoundError f)) ∧
  (∀ builtin, (run_call c w).1 = inl (TypeError builtin) → builtin = "int").
Proof.
  intros Hw%reachable_plain_reachable%binding_ok_reachable _ Hbound.
  split; [intros f Hraise|intros builtin Hraise];
    exact (bound_raises w c _ Hw Hbound Hraise).
Qed.

End errors.

Section isolation.

Lemma set_file_path_other_files (w : world) (file_path : option string) (g : string) :
  g ≠ Path.to_str (resolved_path w file_path) →
  files (set_file_path file_path w).2 !! g = files w !! g.
Proof.
  intros Hg.
  destruct (decide (Py.lower (Path.suffix (resolved_path w file_path)) ∈ [".csv"; ".json"]))
    as [Hin|Hout].
  - rewrite (set_file_path_run w file_path Hin). simpl.
    destruct (files w !! Path.to_str _); [done|]. by rewrite lookup_insert_ne.
  - by rewrite (set_file_path_refused w file_path Hout).
Qed.

(** A method other than [set_file_path] writes to no file but the bound
    one. *)
Lemma run_call_other_files (w : world) (c : call) (g : string) :
  (∀ file_path, c ≠ SetFilePath file_path) →
  filename (self w) ≠ Some g →
  files (run_call c w).2 !! g = files w !! g.
Proof.
  intros Hc Hg.
  destruct c; simpl.
  - by destruct (Hc file_path).
  - unfold add_student. run.
    cases; try done; simplify_eq; by rewrite ?lookup_insert_ne by congruence.
  - unfold view_all_students. run. cases; done.
  - unfold view_specific_columns. run. cases; done.
  - unfold update_student. run.
    cases; try done; simplify_eq; by rewrite ?lookup_insert_ne by congruence.
  - unfold delete_student. run.
    cases; try done; simplify_eq; by rewrite ?lookup_insert_ne by congruence.
  - unfold add_column. run.
    cases; try done; simplify_eq; by rewrite ?lookup_insert_ne by congruence.
  - unfold remove_column. run.
    cases; try done; simplify_eq; by rewrite ?lookup_insert_ne by congruence.
  - unfold search_students. run. cases; try done.
    all: rewrite print_all_run in *; by simplify_eq.
Qed.

Lemma other_files_run (w : world) (c : call) (g : string) :
  target w c ≠ Some g →
  files (run_call c w).2 !! g = files w !! g.
Proof.
  intros Hg. destruct c.
  1: { apply set_file_path_other_files. simpl in Hg. congruence. }
  all: by apply run_call_other_files.
Qed.

(** X16. Where the files are those of the current directory, each under its
    one path, a plain call writes to one file at most: the bound file,
    or the file that [set_file_path] is to bind. Every other file stays
    as it is. *)
Theorem other_files_untouched (w : world) (c : call) (g : string) :
  flat w → plain_call w c →
  target w c ≠ Some g →
  files (run_call c w).2 !! g = files w !! g.
Proof. intros _ _. apply other_files_run. Qed.

(** No call changes the current directory. *)
Lemma run_call_cwd (w : world) (c : call) : cwd (run_call c w).2 = cwd w.
Proof.
  destruct c; simpl.
  - unfold set_file_path, create_file_if_not_exists. run. cases; done.
  - unfold add_student. run. cases; done.
  - unfold view_all_students. run. cases; done.
  - unfold view_specific_columns. run. cases; done.
  - unfold update_student. run. cases; done.
  - unfold delete_student. run. cases; done.
  - unfold add_column. run. cases; done.
  - unfold remove_column. run. cases; done.
  - unfold search_students. run. cases; try done.
    all: rewrite print_all_run in *; by simplify_eq.
Qed.

(** A plain name is a relative path. *)
Lemma plain_name_relative (name : string) :
  plain_name name → Path.is_absolute (Path.parse name) = false.
Proof.
  intros (Hne & _ & _ & Hchars & _). destruct name as [|c name]; [done|].
  simpl in Hchars. apply Forall_cons in Hchars as [[Hc _] _].
  unfold Path.is_absolute, Path.parse. simpl.
  by rewrite (bool_decide_eq_false_2 ("/"%char = c)) by done.
Qed.

(** The path that [set_file_path] binds for a plain name is that of the
    name in the current directory. *)
Lemma resolved_plain (w : world) (file_path : option string) :
  plain_name (named w file_path) →
  in_cwd w (Path.to_str (resolved_path w file_path)).
Proof.
  intros Hplain. exists (named w file_path). split; [done|].
  unfold resolved_path. fold (named w file_path).
  by rewrite (plain_name_relative _ Hplain).
Qed.

(** Plain calls keep the files in the current directory. *)
Lemma flat_step (w : world) (c : call) :
  flat w → plain_call w c → flat (run_call c w).2.
Proof.
  intros (Hhere & Hfiles & Hname) Hc.
  assert (Hin : ∀ f, in_cwd w f → in_cwd (run_call c w).2 f).
  { intros f. unfold in_cwd. by rewrite run_call_cwd. }
  split_and!; [by rewrite run_call_cwd| |].
  - intros g Hg. apply Hin.
    destruct (decide (target w c = Some g)) as [Htarget|Hother].
    + destruct c; simpl in Htarget; try by apply Hname.
      injection Htarget as <-. by apply resolved_plain.
    + rewrite (other_files_run w c g Hother) in Hg. by apply Hfiles.
  - intros g Hg. apply Hin. destruct c.
    2-9: match goal with H : filename (self (run_call ?c _).2) = _ |- _ =>
           destruct (run_call_binding w c) as (Heq & _); [done|] end.
    2-9: rewrite Heq in Hg; by apply Hname.
    simpl in Hg, Hc.
    destruct (decide (Py.lower (Path.suffix (resolved_path w file_path)) ∈ [".csv"; ".json"]))
      as [Hok|Hout].
    + rewrite (set_file_path_run w file_path Hok) in Hg. simpl in Hg.
      injection Hg as <-. by apply resolved_plain.
    + rewrite (set_file_path_refused w file_path Hout) in Hg. by apply Hname.
Qed.

Lemma reachable_plain_flat (w : world) : reachable_plain w → flat w.
Proof.
  induction 1 as [here Hhere|w c _ IH Hc]; [|by apply flat_step].
  split_and!; [done| |done]. intros f [c Hf]. simpl in Hf. by rewrite lookup_empty in Hf.
Qed.

(** X14. In every state of a store that started in an empty directory and
    was given plain calls, the store is bound to nothing, or to a path
    that is not empty, with the type .csv or .json, where a file exists:
    no method deletes a file or unsets the path. The files are those of
    the current directory, and the file of the store is one of them. *)
Theorem reachable_binding_ok (w : world) :
  reachable_plain w → binding_ok w ∧ flat w.
Proof.
  intros Hw. split; [|by apply reachable_plain_flat].
  by apply binding_ok_reachable, reachable_plain_reachable.
Qed.

End isolation.

Section adding.

Lemma add_student_invalid_run (w : world) (student_data : record) (e : exn) :
  not_filename (self w) = false →
  validate_student_data (headers (self w)) student_data = inl e →
  add_student student_data w = (inl e, w).
Proof.
  intros Hset Hvalid. unfold add_student. run_prims. by rewrite Hset, Hvalid.
Qed.

(** X17. A record that fails validation is not added: [add_student] raises
    what the validation raised and leaves the store, the files and the
    output as they were. *)
Theorem add_student_invalid_unchanged (w : world) (student_data : record) (e : exn) :
  not_filename (self w) = false →
  validate_student_data (headers (self w)) student_data = inl e →
  add_student student_data w = (inl e, w).
Proof. apply add_student_invalid_run. Qed.

(** X18. On a CSV store whose schema has lost one of the columns name, age
    and grade, [add_student] accepts no record: the validation reads
    the column in the record, and [DictWriter] refuses a record that
    has it. *)
Theorem add_student_after_builtin_removed (w : world) (f : string)
    (recs : list record) (student_data : record) (column : string) :
  csv_store_of w f recs →
  column ∈ ["name"; "age"; "grade"] → column ∉ headers (self w) →
  ∃ e, (add_student student_data w).1 = inl e.
Proof.
  intros Hst Hcol Hgone.
  destruct (validate_student_data (headers (self w)) student_data) as [e|b] eqn:Hvalid.
  - exists e. rewrite add_student_invalid_run with (e := e); [done| |done].
    destruct Hst as (Hf & _ & rows & (Hname & _) & _).
    by apply (not_filename_bound _ f).
  - assert (Hkey : column ∈ Dict.keys student_data).
    { apply mem_keys. revert Hvalid. clear -Hcol.
      unfold validate_student_data, try_except_ValueError, Dict.getitem, Dict.mem.
      unfold mbind, mret, result_bind, result_ret.
      repeat (apply elem_of_cons in Hcol as [->|Hcol]); [| | |by apply elem_of_nil in Hcol].
      all: cases; intros; simplify_eq; try done.
      all: apply bool_decide_eq_true_2; by eexists. }
    eexists. by rewrite (add_student_csv_extra_run w f recs student_data b column).
Qed.

End adding.

Section json_as_csv.

(** X19. [remove_column] on a JSON store that holds no record reads the
    document as CSV text, finds no row, and writes the header row of a
    CSV table into the JSON file; loading then fails to decode it. *)
Theorem remove_column_empty_json (w : world) (f : string) (column_name : string) :
  json_store_of w f [] →
  column_name ∈ headers (self w) → column_name ≠ "id" →
  let w' := (remove_column column_name w).2 in
  (remove_column column_name w).1 = inr () ∧
  files w' !! f = Some (Text (Csv.writerow (list_remove column_name (headers (self w))))) ∧
  load_students w' = (inl (ValueError JSONDecode), w').
Proof.
  intros (Hf & Hname & Htype & Hfile) Hin Hne w'.
  assert (Hrun : remove_column column_name w =
    (inr (), rewritten w (list_remove column_name (headers (self w))) f
               (Csv.writerow (list_remove column_name (headers (self w))))
               [Print ("Column '" +:+ column_name +:+ "' removed successfully!")])).
  { unfold remove_column, read_csv_file, rewrite_csv. run_prims.
    rewrite (bool_decide_eq_true_2 (column_name ∈ _)) by done.
    rewrite (bool_decide_eq_false_2 (column_name = "id")) by done.
    repeat (progress (simpl; rewrite ?Hname, ?Hfile)).
    unfold rewritten, Csv.writeheader.
    by rewrite append_nil_r, Hname. }
  unfold w'. rewrite Hrun. simpl. split_and!; [done|apply lookup_insert_eq|].
  unfold load_students, is_csv, read_json_file, rewritten. run_prims.
  rewrite Htype, Hname. simpl. rewrite lookup_insert_eq. simpl.
  rewrite bool_decide_eq_false_2; [done|].
  unfold Csv.writerow. intros Hnil%append_empty. done.
Qed.

End json_as_csv.

Section views.

Lemma omap_table_row (h : list string) (r : record) (row : list pyval) :
  table_row h r = inr row → omap (λ col, Dict.get col r) h = row.
Proof.
  unfold table_row. revert row. induction h as [|k h IH]; intros row.
  - by intros [= <-].
  - rewrite mapM_cons. unfold Dict.getitem at 1.
    destruct (Dict.get k r) as [v|] eqn:Hk; [|done].
    destruct (mapM _ h) as [e|row'] eqn:Hrow; [done|].
    intros [= <-]. simpl. rewrite Hk. f_equal. by apply IH.
Qed.

Lemma omap_table_rows (h : list string) (students : list record)
    (table : list (list pyval)) :
  mapM (table_row h) students = inr table →
  (λ student, omap (λ col, Dict.get col student) h) <$> students = table.
Proof.
  revert table. induction students as [|r students IH]; intros table.
  - by intros [= <-].
  - rewrite mapM_cons. destruct (table_row h r) as [e|row] eqn:Hrow; [done|].
    destruct (mapM _ students) as [e|table'] eqn:Htable; [done|].
    intros [= <-]. rewrite fmap_cons. f_equal; [by apply omap_table_row|by apply IH].
Qed.

(** X20. Asked for the columns of the schema, [view_specific_columns] prints
    the table that [view_all_students] prints, whenever that method
    prints one. *)
Theorem view_specific_columns_all (w : world) (table : list (list pyval)) :
  view_all_students w =
    (inr (), printed w [Print (Json.NL +:+ "Student Records:");
                        PrintTable table (headers (self w))]) →
  view_specific_columns (headers (self w)) w =
    (inr (), printed w [Print (Json.NL +:+ "Selected Student Records:");
                        PrintTable table (headers (self w))]).
Proof.
  unfold view_all_students, view_specific_columns.
  unfold mbind, M_bind at 1, get_self at 1.
  destruct (not_filename (self w)); [done|]. unfold mbind, M_bind.
  destruct (load_students w) as [[e|students] w'] eqn:Hload; [done|].
  assert (Hw' : w' = w).
  { revert Hload. unfold load_students. run. cases; intros; by simplify_eq. }
  subst w'. case_bool_decide as Hnil.
  - unfold print, emit, printed. intros [= Hout].
    apply (f_equal length) in Hout. rewrite !length_app in Hout. simpl in Hout. lia.
  - unfold lift. destruct (mapM _ students) as [e|table'] eqn:Htable; [done|].
    unfold print, emit, printed. simpl. intros [= Hout].
    rewrite <- app_assoc in Hout. apply app_inv_head in Hout. injection Hout as <-.
    rewrite (omap_table_rows _ _ _ Htable). by rewrite <- app_assoc.
Qed.

End views.

Section json_store.

(** X21. [add_student] on a JSON store appends the record as it was given,
    with whatever keys it has beyond the schema, and keeps the records
    that were there. *)
Theorem add_student_json_appends (w : world) (f : string) (data : list record)
    (student_data : record) (b : bool) :
  json_store_of w f data →
  validate_student_data (headers (self w)) student_data = inr b →
  (add_student student_data w).1 = inr () ∧
  self (add_student student_data w).2 = self w ∧
  json_store_of (add_student student_data w).2 f (data ++ [student_data]).
Proof.
  intros Hst Hvalid. rewrite (json_add w f data student_data b Hst Hvalid). simpl.
  destruct Hst as (Hf & Hname & Htype & Hfile).
  split_and!; [done..|]. split_and!; [done..|]. apply lookup_insert_eq.
Qed.

(** X22. [add_column] on a JSON store, with a name new to the schema: the
    column is added in lower case at the end of the schema, and every
    record gets it with the empty string, in the place of whatever the
    record had under that key. *)
Theorem add_column_json_extends (w : world) (f : string) (data : list record)
    (column_name : string) :
  json_store_of w f data →
  Py.lower column_name ∉ Py.lower <$> headers (self w) →
  (add_column column_name w).1 = inr () ∧
  headers (self (add_column column_name w).2) =
    headers (self w) ++ [Py.lower column_name] ∧
  json_store_of (add_column column_name w).2 f
    (Dict.set (Py.lower column_name) (VStr "") <$> data).
Proof.
  intros (Hf & Hname & Htype & Hfile) Hnew.
  assert (Hrun : add_column column_name w =
    (inr (), {| self := {| headers := headers (self w) ++ [Py.lower column_name];
                           filename := filename (self w);
                           file_type := file_type (self w);
                           default_filename := default_filename (self w) |};
                files := <[f := JsonDoc (Dict.set (Py.lower column_name) (VStr "") <$> data)]>
                           (files w);
                cwd := cwd w;
                stdout := stdout w ++
                  [Print ("Column '" +:+ Py.lower column_name +:+ "' added successfully!")] |})).
  { unfold add_column, is_csv. run_prims.
    rewrite (bool_decide_eq_false_2 _ Hnew).
    rewrite (bool_decide_eq_false_2 (file_type (self w) = Some ".csv"))
      by (by rewrite Htype).
    rewrite (read_json_file_as_is w f data Hname Hfile). simpl.
    unfold write_json_file. run_prims. by rewrite Hname. }
  rewrite Hrun. simpl.
  split_and!; [done..|]. split_and!; [done..|]. apply lookup_insert_eq.
Qed.

End json_store.

(** Proves that a given store is a CSV store of given rows, by
    evaluation. *)
Ltac by_evaluation := refine (bool_decide_unpack _ _); by vm_compute.

Ltac csv_store_given rows :=
  split_and!;
  [ done
  | split_and!; [by_evaluation | by vm_compute | by_evaluation]
  | exists rows; split;
    [ split_and!;
      [ by vm_compute | by vm_compute
      | eexists; split; [by vm_compute | by vm_compute]
      | apply Forall_forall; by_evaluation ]
    | by vm_compute ] ].

(** Proves that the files of a sample store are those of its directory:
    none, or the one file [name]. *)
Ltac flat_given name :=
  split_and!;
  [ by_evaluation
  | intros ? [? H]; cbn [files csv_store json_store fresh] in H;
    first [ by rewrite lookup_empty in H
          | apply lookup_singleton_Some in H as [<- _];
            exists name; split; [by_evaluation | done] ]
  | intros ? H; cbn [self filename csv_store json_store fresh init] in H;
    first [ discriminate H
          | injection H as <-; exists name; split; [by_evaluation | done] ] ].

(** Proves that a sample session is one of plain calls. *)
Ltac plain_session :=
  repeat (apply reachable_plain_call; [|by_evaluation]);
  apply reachable_plain_fresh; by_evaluation.

Lemma view_all_students_csv_witness :
  view_all_students (csv_store [ann; bob]) =
    (inr (),
     printed (csv_store [ann; bob])
       [Print (Json.NL +:+ "Student Records:");
        PrintTable [[VStr "1"; VStr "Ann"; VStr "20"; VStr "A"];
                    [VStr "2"; VStr "Bob"; VStr "31"; VStr "B"]]
                   ["id"; "name"; "age"; "grade"]]).
Proof.
  apply (view_all_students_csv (csv_store [ann; bob]) students_csv [ann; bob]).
  - csv_store_given sample_rows.
  - by_evaluation.
Defined.

Lemma add_student_csv_appends_witness :
  csv_store_of (add_student cara (csv_store [ann; bob])).2 students_csv
    [ann; bob; cara_read].
Proof.
  apply (add_student_csv_appends (csv_store [ann; bob]) students_csv [ann; bob] cara true).
  - csv_store_given sample_rows.
  - by vm_compute.
  - apply Forall_forall. by_evaluation.
Defined.

Lemma add_student_csv_extra_key_witness :
  ∃ wrong,
    add_student (ann ++ [("nickname", VStr "A")]) (csv_store [ann; bob]) =
      (inl (ValueError (ExtraFields wrong)), csv_store [ann; bob]) ∧
    Some "nickname" ∈ wrong.
Proof.
  apply (add_student_csv_extra_key (csv_store [ann; bob]) students_csv [ann; bob]
           (ann ++ [("nickname", VStr "A")]) true "nickname").
  - csv_store_given sample_rows.
  - by vm_compute.
  - by_evaluation.
  - by_evaluation.
Defined.

Lemma delete_student_csv_drops_witness :
  csv_store_of (delete_student "1" (csv_store [ann; bob])).2 students_csv [bob].
Proof.
  apply (delete_student_csv_drops (csv_store [ann; bob]) students_csv [ann; bob] "1").
  - csv_store_given sample_rows.
  - by_evaluation.
Defined.

Lemma update_student_csv_patches_witness :
  csv_store_of (update_student "2" [("grade", VStr "A")] (csv_store [ann; bob])).2
    students_csv
    [ann; [("id", VStr "2"); ("name", VStr "Bob"); ("age", VStr "31"); ("grade", VStr "A")]].
Proof.
  apply (update_student_csv_patches (csv_store [ann; bob]) students_csv [ann; bob]
           "2" [("grade", VStr "A")]).
  - csv_store_given sample_rows.
  - by_evaluation.
  - apply Forall_forall. by_evaluation.
Defined.

Lemma update_student_csv_truncates_witness :
  csv_store_of (update_student "2" [("nickname", VStr "B")] (csv_store [ann; bob])).2
    students_csv [ann].
Proof.
  apply (update_student_csv_truncates (csv_store [ann; bob]) students_csv [ann] [] bob
           "2" [("nickname", VStr "B")] "nickname").
  - csv_store_given sample_rows.
  - by_evaluation.
  - by_evaluation.
  - by vm_compute.
  - by_evaluation.
  - by_evaluation.
Defined.

Lemma add_column_csv_extends_witness :
  csv_store_of (add_column "Email" (csv_store [ann; bob])).2 students_csv
    [ann ++ [("email", VStr "")]; bob ++ [("email", VStr "")]].
Proof.
  apply (add_column_csv_extends (csv_store [ann; bob]) students_csv [ann; bob] "Email").
  - csv_store_given sample_rows.
  - by_evaluation.
  - by_evaluation.
  - by vm_compute.
Defined.

Lemma remove_column_csv_drops_witness :
  csv_store_of no_age_store students_csv
    [[("id", VStr "1"); ("name", VStr "Ann"); ("grade", VStr "A")];
     [("id", VStr "2"); ("name", VStr "Bob"); ("grade", VStr "B")]].
Proof.
  apply (remove_column_csv_drops (csv_store [ann; bob]) students_csv [ann; bob] "age").
  - csv_store_given sample_rows.
  - by_evaluation.
  - by_evaluation.
  - done.
Defined.

Lemma set_file_path_binds_witness :
  (set_file_path (Some "students.json") (fresh ∅ root_dir)).1 = inr ().
Proof.
  rewrite (set_file_path_binds (fresh ∅ root_dir) (Some "students.json")); [done|..].
  - flat_given "".
  - by_evaluation.
  - by_evaluation.
Defined.

Lemma set_file_path_new_store_empty_witness :
  load_students (set_file_path (Some "students.json") (fresh ∅ root_dir)).2 =
    (inr [], (set_file_path (Some "students.json") (fresh ∅ root_dir)).2).
Proof.
  apply (set_file_path_new_store_empty (fresh ∅ root_dir) (Some "students.json")).
  - flat_given "".
  - by_evaluation.
  - by_evaluation.
  - by_evaluation.
  - by vm_compute.
Defined.

Lemma csv_round_trip_witness :
  load_students (csv_session [ann; cara]) = (inr [ann; cara_read], csv_session [ann; cara]).
Proof.
  apply (csv_round_trip (fresh ∅ root_dir) (Some "students.csv") [ann; cara]).
  - flat_given "".
  - by_evaluation.
  - by_evaluation.
  - split_and!; [by_evaluation | by vm_compute | by_evaluation].
  - by vm_compute.
  - by vm_compute.
  - apply Forall_cons; split; [split; [by vm_compute | exists true; by vm_compute]|].
    apply Forall_cons; split; [split; [by vm_compute | exists true; by vm_compute]|].
    apply Forall_nil_2.
Defined.

Lemma reachable_schema_ok_witness : schema_ok (headers (self (csv_session [ann; bob]))).
Proof.
  apply (reachable_schema_ok (csv_session [ann; bob])).
  apply after_reachable, reachable_fresh.
Defined.

Lemma reachable_binding_ok_witness :
  binding_ok (csv_session [ann; bob]) ∧ flat (csv_session [ann; bob]).
Proof.
  apply (reachable_binding_ok (csv_session [ann; bob])).
  change (csv_session [ann; bob])
    with (run_call (AddStudent bob)
            (run_call (AddStudent ann)
               (run_call (SetFilePath (Some "students.csv")) (fresh ∅ root_dir)).2).2).2.
  plain_session.
Defined.

Lemma reachable_store_opens_witness :
  let w := json_session [ann; bob] in
  reachable_plain w ∧ plain_call w (DeleteStudent "1") ∧ filename (self w) ≠ None ∧
  (∀ f, (run_call (DeleteStudent "1") w).1 ≠ inl (FileNotFoundError f)) ∧
  (∀ builtin, (run_call (DeleteStudent "1") w).1 = inl (TypeError builtin) →
              builtin = "int").
Proof.
  intros w.
  assert (Hw : reachable_plain w).
  { change w
      with (run_call (AddStudent bob)
              (run_call (AddStudent ann)
                 (run_call (SetFilePath (Some "students.json")) (fresh ∅ root_dir)).2).2).2.
    plain_session. }
  assert (Hbound : filename (self w) ≠ None) by done.
  split_and!; [done | exact I | done | ..];
    by apply (reachable_store_opens w (DeleteStudent "1")).
Defined.

Lemma other_files_untouched_witness :
  files (delete_student "1" (csv_store [ann; bob])).2 !! students_json =
  files (csv_store [ann; bob]) !! students_json.
Proof.
  apply (other_files_untouched (csv_store [ann; bob]) (DeleteStudent "1") students_json).
  - flat_given "students.csv".
  - exact I.
  - by vm_compute.
Defined.

Lemma add_student_invalid_unchanged_witness :
  add_student [("id", VStr "9")] (csv_store [ann; bob]) =
    (inl (ValueError (FieldsRequired ["id"; "name"; "age"; "grade"])), csv_store [ann; bob]).
Proof.
  apply (add_student_invalid_unchanged (csv_store [ann; bob]) [("id", VStr "9")]).
  - by vm_compute.
  - by vm_compute.
Defined.

Lemma add_student_after_builtin_removed_witness :
  ∃ e, (add_student ann no_age_store).1 = inl e.
Proof.
  apply (add_student_after_builtin_removed no_age_store students_csv
           [[("id", VStr "1"); ("name", VStr "Ann"); ("grade", VStr "A")];
            [("id", VStr "2"); ("name", VStr "Bob"); ("grade", VStr "B")]]
           ann "age").
  - csv_store_given no_age_rows.
  - by_evaluation.
  - by_evaluation.
Defined.

Lemma remove_column_empty_json_witness :
  load_students (remove_column "age" (json_store [])).2 =
    (inl (ValueError JSONDecode), (remove_column "age" (json_store [])).2).
Proof.
  apply (remove_column_empty_json (json_store []) students_json "age").
  - split_and!; [done|by vm_compute..].
  - by_evaluation.
  - done.
Defined.

Lemma view_specific_columns_all_witness :
  view_specific_columns ["id"; "name"; "age"; "grade"] (csv_store [ann; bob]) =
    (inr (),
     printed (csv_store [ann; bob])
       [Print (Json.NL +:+ "Selected Student Records:");
        PrintTable [[VStr "1"; VStr "Ann"; VStr "20"; VStr "A"];
                    [VStr "2"; VStr "Bob"; VStr "31"; VStr "B"]]
                   ["id"; "name"; "age"; "grade"]]).
Proof.
  apply (view_specific_columns_all (csv_store [ann; bob])).
  by vm_compute.
Defined.

Lemma add_student_json_appends_witness :
  json_store_of (add_student (ann ++ [("nickname", VStr "A")]) (json_store [bob])).2
    students_json [bob; ann ++ [("nickname", VStr "A")]].
Proof.
  apply (add_student_json_appends (json_store [bob]) students_json [bob]
           (ann ++ [("nickname", VStr "A")]) true).
  - split_and!; [done|by vm_compute..].
  - by vm_compute.
Defined.

Lemma add_column_json_extends_witness :
  json_store_of (add_column "Email" (json_store [ann])).2 students_json
    [ann ++ [("email", VStr "")]].
Proof.
  apply (add_column_json_extends (json_store [ann]) students_json [ann] "Email").
  - split_and!; [done|by vm_compute..].
  - by_evaluation.
Defined.

Section cli.

Import Cli.






Lemma input_store prompt st : store (input prompt st).2 = store st.
Proof. unfold input. by destruct (pending st). Qed.


(** ** What the methods raise on the values [main] passes *)














(** ** One turn of the menu *)


Lemma ask_cons {V} prompt skip (wrap : string → V) header hs data st :
  ask prompt skip wrap (header :: hs) data st =
  match input (prompt header) st with
  | (inl e, st') => (inl e, st')
  | (inr value, st') =>
      ask prompt skip wrap hs
        (if skip && bool_decide (value = "") then data
         else Dict.set header (wrap value) data) st'
  end.
Proof. reflexivity. Qed.






Lemma bind_run {A B} (m : C A) (k : A → C B) st :
  (m ≫= k) st = match m st with
                | (inl e, st') => (inl e, st')
                | (inr x, st') => k x st'
                end.
Proof. reflexivity. Qed.






(** ** The loops of [main] *)













(** ** Records typed at the menu *)

Lemma keys_filled {V} skip (wrap : string → V) hs vals k :
  k ∈ Dict.keys (filled skip wrap hs vals) → k ∈ hs.
Proof.
  unfold Dict.keys, filled. rewrite <- list_fmap_compose.
  intros ([k' v] & -> & [_ Hin]%list_elem_of_filter)%list_elem_of_fmap. simpl.
  by apply elem_of_zip_l in Hin.
Qed.

Lemma filled_cons {V} skip (wrap : string → V) header hs value vals :
  filled skip wrap (header :: hs) (value :: vals) =
  (if skip && bool_decide (value = "") then [] else [(header, wrap value)])
  ++ filled skip wrap hs vals.
Proof.
  unfold filled. cbn [zip zip_with]. rewrite filter_cons. simpl.
  by destruct (skip && bool_decide (value = "")).
Qed.

(** With a line for every prompt, [ask] returns what was typed, under
    the names of the columns, in their order. *)
Lemma ask_filled {V} prompt skip (wrap : string → V) hs vals rest data st :
  NoDup hs → length vals = length hs → pending st = vals ++ rest →
  (∀ k, k ∈ hs → k ∉ Dict.keys data) →
  (ask prompt skip wrap hs data st).1 = inr (data ++ filled skip wrap hs vals) ∧
  pending (ask prompt skip wrap hs data st).2 = rest ∧
  store (ask prompt skip wrap hs data st).2 = store st.
Proof.
  revert vals data st. induction hs as [|header hs IH]; intros vals data st Hnd Hlen Hp Hnew.
  - destruct vals; [|done]. simpl. by rewrite app_nil_r.
  - destruct vals as [|value vals]; [done|]. apply NoDup_cons in Hnd as [Hh Hnd].
    rewrite ask_cons. unfold input. rewrite Hp. cbn [app].
    rewrite filled_cons.
    set (st1 := {| store := store st; pending := vals ++ rest; transcript := _ |}).
    destruct (IH vals (if skip && bool_decide (value = "") then data
                       else Dict.set header (wrap value) data) st1) as (Hr & Hp1 & Hs1);
      [done|by injection Hlen|done| |].
    + intros k Hk. destruct (skip && _); [apply Hnew; by right|].
      rewrite keys_set. intros [->|Hin]; [done|]. by apply (Hnew k); [right|].
    + split_and!; [|done..]. rewrite Hr. f_equal.
      destruct (skip && _); [done|]. rewrite set_fresh by (apply Hnew; by left).
      by rewrite <- app_assoc.
Qed.

Lemma filled_all {V} (wrap : string → V) hs vals :
  filled false wrap hs vals = zip hs (wrap <$> vals).
Proof.
  revert vals. induction hs as [|header hs IH]; intros [|value vals]; try done.
  rewrite filled_cons, IH. done.
Qed.

Lemma stored_zip (hs vals : list string) :
  stored (zip hs (VStr <$> vals)) = csv_record hs (read_back vals).
Proof.
  unfold stored, csv_record, read_back. revert vals.
  induction hs as [|header hs IH]; intros [|value vals]; try done.
  simpl. f_equal. apply IH.
Qed.

(** X25. The choice 1 on a CSV store, with a line for each column that
    together pass validation: the record typed is added after the
    records of the file, and the lines that follow are left to be
    read. *)
Theorem serve_add_student_csv (st : state) (f : string) (recs : list record)
    (vals rest : list string) (b : bool) :
  let h := headers (self (store st)) in
  csv_store_of (store st) f recs →
  pending st = vals ++ rest → length vals = length h →
  validate_student_data h (zip h (VStr <$> vals)) = inr b →
  (serve "1" st).1 = inr () ∧
  pending (serve "1" st).2 = rest ∧
  csv_store_of (store (serve "1" st).2) f (recs ++ [csv_record h (read_back vals)]).
Proof.
  intros h Hst Hp Hlen Hvalid.
  assert (Hnd : NoDup h) by apply Hst.
  set (prompt := λ header, "Enter student " +:+ header +:+ ": ").
  destruct (ask_filled prompt false VStr h vals rest [] st Hnd Hlen Hp) as (Hr & Hp1 & Hs1);
    [by intros k _ ?%elem_of_nil|].
  assert (Hserve : serve "1" st =
            invoke (add_student (zip h (VStr <$> vals))) (ask prompt false VStr h [] st).2).
  { unfold serve. rewrite bind_run. unfold get_headers. fold h.
    rewrite (bool_decide_eq_true_2 ("1" = "1")) by done. rewrite bind_run. fold prompt.
    destruct (ask prompt false VStr h [] st) as [r st1]. simpl in Hr |- *. subst r.
    by rewrite filled_all. }
  rewrite Hserve. destruct (ask prompt false VStr h [] st) as [r st1].
  simpl in Hr, Hp1, Hs1 |- *. unfold invoke. rewrite Hs1.
  destruct (add_student_csv_run (store st) f recs (zip h (VStr <$> vals)) b Hst Hvalid)
    as (Hok & _ & _ & Hst').
  { intros k Hk. unfold Dict.keys in Hk. rewrite fst_zip in Hk; [done|].
    by rewrite length_fmap, Hlen. }
  destruct (add_student _ (store st)) as [r' w]. simpl in *. subst r'.
  split_and!; [done..|].
  rewrite aligned_stored in Hst'; [|done|].
  - by rewrite stored_zip in Hst'.
  - unfold Dict.keys. apply fst_zip. by rewrite length_fmap, Hlen.
Qed.

(** X26. The choice 4 on a CSV store, no field of it over the limit of the
    reader, with the id and a line for each column: the lines that are
    not empty are put, under their columns, on every record with the
    id; the patch has no key from outside the schema, so the file is
    rewritten whole. *)
Theorem serve_update_student_csv (st : state) (f : string) (recs : list record)
    (student_id : string) (vals rest : list string) :
  let h := headers (self (store st)) in
  csv_store_of (store st) f recs →
  readable h recs →
  pending st = student_id :: vals ++ rest → length vals = length h →
  (serve "4" st).1 = inr () ∧
  pending (serve "4" st).2 = rest ∧
  csv_store_of (store (serve "4" st).2) f
    (stored <$> (patched student_id (filled true VStr h vals) <$> recs)).
Proof.
  intros h Hst _ Hp Hlen.
  assert (Hnd : NoDup h) by apply Hst.
  set (prompt := λ header, "Enter new " +:+ header +:+ " (press enter to skip): ").
  set (st0 := (input "Enter student ID to update: " st).2).
  assert (Hin : input "Enter student ID to update: " st = (inr student_id, st0)).
  { unfold st0, input. by rewrite Hp. }
  assert (Hp0 : pending st0 = vals ++ rest) by (unfold st0, input; by rewrite Hp).
  assert (Hs0 : store st0 = store st) by apply input_store.
  destruct (ask_filled prompt true VStr h vals rest [] st0 Hnd Hlen Hp0) as (Hr & Hp1 & Hs1);
    [by intros k _ ?%elem_of_nil|].
  assert (Hserve : serve "4" st =
            invoke (update_student student_id (filled true VStr h vals))
                   (ask prompt true VStr h [] st0).2).
  { unfold serve. rewrite bind_run. unfold get_headers. fold h.
    rewrite (bool_decide_eq_false_2 ("4" = "1")) by done.
    rewrite (bool_decide_eq_false_2 ("4" = "2")) by done.
    rewrite (bool_decide_eq_false_2 ("4" = "3")) by done.
    rewrite (bool_decide_eq_true_2 ("4" = "4")) by done.
    rewrite bind_run, Hin, bind_run. fold prompt.
    destruct (ask prompt true VStr h [] st0) as [r st1]. simpl in Hr |- *. by subst r. }
  rewrite Hserve. destruct (ask prompt true VStr h [] st0) as [r st1].
  simpl in Hr, Hp1, Hs1 |- *. unfold invoke. rewrite Hs1, Hs0.
  destruct (update_student_csv_run (store st) f recs student_id (filled true VStr h vals) Hst)
    as (Hok & _ & Hst'); [intros k; apply keys_filled|].
  destruct (update_student _ _ (store st)) as [r' w]. simpl in *. by subst r'.
Qed.

End cli.



Lemma serve_add_student_csv_witness :
  Cli.pending (Cli.serve "1" (at_menu ["3"; "Cy"; "19"; "B"; "10"])).2 = ["10"].
Proof.
  apply (serve_add_student_csv (at_menu ["3"; "Cy"; "19"; "B"; "10"]) students_csv
           [ann; bob] ["3"; "Cy"; "19"; "B"] ["10"] true).
  - csv_store_given sample_rows.
  - done.
  - done.
  - by vm_compute.
Defined.

Lemma serve_update_student_csv_witness :
  csv_store_of (Cli.store (Cli.serve "4" (at_menu ["2"; ""; ""; "32"; ""; "10"])).2)
    students_csv
    [ann; [("id", VStr "2"); ("name", VStr "Bob"); ("age", VStr "32"); ("grade", VStr "B")]].
Proof.
  apply (serve_update_student_csv (at_menu ["2"; ""; ""; "32"; ""; "10"]) students_csv
           [ann; bob] "2" [""; ""; "32"; ""] ["10"]).
  - csv_store_given sample_rows.
  - by_evaluation.
  - done.
  - done.
Defined.

Section csv_views.

Lemma table_row_store (w : world) (f : string) (recs : list record) (r : record) :
  csv_store_of w f recs → r ∈ recs → table_row (headers (self w)) r = inr r.*2.
Proof.
  intros (Hf & Hs & rows & Hh & <-) (row & -> & Hrow)%list_elem_of_fmap.
  destruct Hh as (_ & _ & _ & Hlen).
  rewrite table_row_csv_record; [|apply Hs|by rewrite read_back_length; apply Hlen].
  unfold csv_record. rewrite snd_zip; [done|].
  by rewrite length_fmap, read_back_length, Hlen.
Qed.

Lemma warnings_length criteria (students : list record) :
  (length (filter_students criteria students).2 ≤ length students)%nat.
Proof.
  induction students as [|student students IH]; simpl; [done|].
  assert (Hone : (length (matches_all criteria student).2 ≤ 1)%nat).
  { clear. induction criteria as [|[field value] criteria IH]; simpl; [lia|].
    destruct (Dict.get field student); simpl; [|lia].
    destruct (negb _); simpl; [lia|done]. }
  destruct (matches_all criteria student) as [ok warned].
  destruct (filter_students criteria students) as [filtered out].
  simpl in *. rewrite length_app. lia.
Qed.

Lemma no_warnings criteria (students : list record) :
  (∀ student field, student ∈ students → field ∈ criteria.*1 →
     is_Some (Dict.get field student)) →
  (filter_students criteria students).2 = [].
Proof.
  induction students as [|student students IH]; intros Hall; [done|].
  assert (Hnone : (matches_all criteria student).2 = []).
  { assert (Hs : ∀ field, field ∈ criteria.*1 → is_Some (Dict.get field student))
      by (intros; apply Hall; [by left|done]).
    clear -Hs. induction criteria as [|[field value] criteria IH]; simpl; [done|].
    destruct (Hs field) as [v ->]; [by left|].
    destruct (negb _); simpl; [done|]. apply IH. intros; apply Hs. by right. }
  assert (Hrest : (filter_students criteria students).2 = [])
    by (apply IH; intros; apply Hall; [by right|done]).
  cbn [filter_students].
  destruct (matches_all criteria student) as [ok warned].
  destruct (filter_students criteria students) as [filtered out].
  simpl in *. by subst.
Qed.

(** X27. [search_students] on a CSV store that holds records, no field of
    them over the limit of the reader, never raises: it prints at most
    one warning for each record, none when every field of the criteria
    is a column, and then the values of the records that match, in the
    order of the file, or the notice that none matched. *)
Theorem search_students_csv (w : world) (f : string) (recs : list record)
    (criteria : list (string * string)) :
  csv_store_of w f recs → readable (headers (self w)) recs → recs ≠ [] →
  let found := List.filter (λ student, (matches_all criteria student).1) recs in
  ∃ warnings,
    search_students criteria w =
      (inr (),
       printed w (warnings ++
         if bool_decide (found = []) then [Print "No matching students found!"]
         else [Print (Json.NL +:+ "Search Results:");
               PrintTable ((λ r, r.*2) <$> found) (headers (self w))])) ∧
    (length warnings ≤ length recs)%nat ∧
    ((∀ field, field ∈ criteria.*1 → field ∈ headers (self w)) → warnings = []).
Proof.
  intros Hst _ Hne found.
  assert (Hload : load_students w = (inr recs, w)).
  { destruct Hst as (Hf & Hs & rows & Hh & <-). by eapply csv_holds_load. }
  assert (Hset : not_filename (self w) = false).
  { destruct Hst as (Hf & _ & rows & (Hname & _) & _). by apply (not_filename_bound _ f). }
  exists (filter_students criteria recs).2. split_and!.
  - unfold search_students. run_prims. rewrite Hset, Hload.
    rewrite (bool_decide_eq_false_2 _ Hne).
    pose proof (filter_students_filter criteria recs) as Hf.
    destruct (filter_students criteria recs) as [filtered warnings].
    simpl in *. subst filtered. fold found.
    rewrite print_all_run. simpl.
    case_bool_decide; simpl.
    + unfold printed. simpl. by rewrite <- app_assoc.
    + rewrite (mapM_fmap_inr (table_row (headers (self w))) (λ r : record, r.*2)).
      * unfold printed. simpl. by rewrite <- !app_assoc.
      * intros r Hr. eapply table_row_store; [done|].
        apply list_elem_of_In in Hr. apply filter_In in Hr as [Hr _].
        by apply list_elem_of_In.
  - apply warnings_length.
  - intros Hfields. apply no_warnings. intros student field Hin Hfield.
    apply get_in_keys. rewrite (csv_store_keys _ _ _ _ Hst Hin). by apply Hfields.
Qed.

(** X28. [view_specific_columns] on a CSV store that holds records, no
    field of them over the limit of the reader, prints, for each
    record, its values under the requested names that are columns, in
    the order they were requested; every row has as many values as
    there are such names, whatever the number of names in the
    heading. *)
Theorem view_specific_columns_csv (w : world) (f : string) (recs : list record)
    (columns : list string) :
  csv_store_of w f recs → readable (headers (self w)) recs → recs ≠ [] →
  let table := (λ r, omap (λ col, Dict.get col r) columns) <$> recs in
  view_specific_columns columns w =
    (inr (), printed w [Print (Json.NL +:+ "Selected Student Records:");
                        PrintTable table columns]) ∧
  ∀ row, row ∈ table →
    length row = length (filter (λ col, col ∈ headers (self w)) columns).
Proof.
  intros Hst _ Hne table.
  assert (Hload : load_students w = (inr recs, w)).
  { destruct Hst as (Hf & Hs & rows & Hh & <-). by eapply csv_holds_load. }
  split.
  - unfold view_specific_columns. run_prims. rewrite Hload.
    rewrite (bool_decide_eq_false_2 _ Hne). simpl.
    unfold printed. simpl. by rewrite <- app_assoc.
  - intros row (r & -> & Hr)%list_elem_of_fmap.
    pose proof (csv_store_keys _ _ _ _ Hst Hr) as Hkeys. rewrite <- Hkeys. clear -r.
    induction columns as [|col columns IH]; [done|]. simpl.
    rewrite filter_cons. destruct (Dict.get col r) as [v|] eqn:Hget.
    + rewrite decide_True; [simpl; f_equal; exact IH|].
      apply mem_keys. by eapply mem_of_get.
    + rewrite decide_False; [exact IH|]. intros Hin%mem_keys.
      by rewrite (mem_false _ _ Hget) in Hin.
Qed.

End csv_views.

Section change_file.

Import Cli.

(** X29. The choice 8 with a path that [set_file_path] refuses: the store
    stays bound as it was, no file is touched, the error is reported,
    and "File changed successfully!" is not printed. *)
Theorem serve_change_file_refused (st : state) (file_path : string) (rest : list string) :
  pending st = file_path :: rest →
  Py.lower (Path.suffix (resolved_path (store st) (Some file_path))) ∉ [".csv"; ".json"] →
  let e := ValueError (Msg "File must be either CSV or JSON format") in
  let st1 := (serve "8" st).2 in
  (serve "8" st).1 = inl (Raised e) ∧
  store st1 = store st ∧ pending st1 = rest ∧
  transcript st1 = transcript st ++ [Prompt "Enter new file path (CSV or JSON): "] ∧
  transcript (handle (serve "8" st).1 st1).2 = transcript st1 ++ [Error e].
Proof.
  intros Hp Hout e st1.
  assert (Hserve : serve "8" st =
    (inl (Raised e),
     {| store := store st; pending := rest;
        transcript := transcript st ++ [Prompt "Enter new file path (CSV or JSON): "] |})).
  { unfold serve. rewrite bind_run. unfold get_headers.
    do 7 (rewrite bool_decide_eq_false_2 by done).
    rewrite (bool_decide_eq_true_2 ("8" = "8")) by done.
    rewrite bind_run. unfold input at 1. rewrite Hp. rewrite bind_run.
    unfold invoke. simpl store.
    rewrite (set_file_path_refused (store st) (Some file_path) Hout).
    simpl. by rewrite drop_all, app_nil_r. }
  unfold st1. rewrite Hserve. done.
Qed.

End change_file.

Lemma search_students_csv_witness :
  ∃ warnings,
    search_students [("name", "an")] (csv_store [ann; bob]) =
      (inr (),
       printed (csv_store [ann; bob]) (warnings ++
         [Print (Json.NL +:+ "Search Results:");
          PrintTable [[VStr "1"; VStr "Ann"; VStr "20"; VStr "A"]]
                     ["id"; "name"; "age"; "grade"]])) ∧
    (length warnings ≤ 2)%nat ∧
    ((∀ field, field ∈ ["name"] → field ∈ ["id"; "name"; "age"; "grade"]) →
     warnings = []).
Proof.
  apply (search_students_csv (csv_store [ann; bob]) students_csv [ann; bob] [("name", "an")]).
  - csv_store_given sample_rows.
  - by_evaluation.
  - done.
Defined.

Lemma view_specific_columns_csv_witness :
  view_specific_columns ["name"; "email"; "id"] (csv_store [ann; bob]) =
    (inr (),
     printed (csv_store [ann; bob])
       [Print (Json.NL +:+ "Selected Student Records:");
        PrintTable [[VStr "Ann"; VStr "1"]; [VStr "Bob"; VStr "2"]]
                   ["name"; "email"; "id"]]).
Proof.
  apply (view_specific_columns_csv (csv_store [ann; bob]) students_csv [ann; bob]
           ["name"; "email"; "id"]).
  - csv_store_given sample_rows.
  - by_evaluation.
  - done.
Defined.

Lemma serve_change_file_refused_witness :
  Cli.store (Cli.serve "8" (at_menu ["notes.txt"; "10"])).2 = csv_store [ann; bob].
Proof.
  apply (serve_change_file_refused (at_menu ["notes.txt"; "10"]) "notes.txt" ["10"]).
  - done.
  - vm_compute. intros H. by repeat (inversion H as [|? ? ? H']; clear H; rename H' into H).
Defined.
